(** * Quote-master: entitlement gate, pricing and document rendering

    A shallow embedding of the parts of the repository that carry business
    rules:

    - [Server]: the user rows and the Express routes of [server/routes.ts]
      that read or write them (the PDF entitlement gate, the admin user
      update, quote ownership), over the storage layer of
      [server/storage.ts] and the database stub of [server/db.ts];
    - [Editor]: the item editor [ItemsList] and the totals of
      [QuoteSummary];
    - [PdfGenerator]: the totals of [generateQuotePDF], [getTemplateColors]
      and the body of the document of [generateHTMLTemplate];
    - [Routes], [Auth], [Client]: the other quote routes, the session
      middleware of [server/replitAuth.ts], and the client side of saving
      a quote and generating its PDF;
    - [Interleaving]: the routes that write a user row, one await at a
      time, with the requests that the server has in hand interleaved;
    - [Ieee]: the item editor and the totals in the arithmetic of the
      engine.

    Conventions.  In [Editor] and [PdfGenerator] a JavaScript [number]
    that holds money or a quantity is a rational ([Q]) compared with [==]:
    the expressions of the source are read exactly.  Statements about the
    shape of an expression (what is clamped, what is coerced, which field
    a handler writes) are made there.  Statements about the values the
    code computes are made in [Ieee], where a [number] is a binary64
    float with the rounding, the infinities and [NaN] of IEEE 754.

    In [Server] a route is one function of the storage, which is how a
    single request runs when nothing else is in flight; [Interleaving]
    splits the same routes at their awaits and lets a statement of the
    database fail.  A nullable column is an [option].  Time stamps
    ([createdAt], [updatedAt]) and profile columns that no modelled route
    reads are left out of the rows. *)

From Stdlib Require Import ZArith QArith Qminmax Lqa String Ascii List Bool Lia Floats.
From stdpp Require Import gmap strings list fin_maps.

Local Open Scope string_scope.

(* ===================================================================== *)
(** ** JavaScript helpers *)
(* ===================================================================== *)

Module Js.

(** [String.prototype.toLowerCase] on the ASCII range.  No code point
    outside ASCII lower-cases to one of the letters of ['admin'], so for
    the comparisons of the routes the restriction loses nothing. *)
Definition lowerAscii (c : ascii) : ascii :=
  let n := nat_of_ascii c in
  if Nat.leb 65 n && Nat.leb n 90 then ascii_of_nat (n + 32) else c.

Fixpoint toLowerCase (s : string) : string :=
  match s with
  | EmptyString => EmptyString
  | String c rest => String (lowerAscii c) (toLowerCase rest)
  end.

Fixpoint startsWith (prefix s : string) : bool :=
  match prefix, s with
  | EmptyString, _ => true
  | String a prefix', String b s' => Ascii.eqb a b && startsWith prefix' s'
  | String _ _, EmptyString => false
  end.

(** [haystack.includes(needle)] *)
Fixpoint includes (needle haystack : string) : bool :=
  startsWith needle haystack ||
  match haystack with
  | EmptyString => false
  | String _ rest => includes needle rest
  end.

(** [s || ''] for a nullable string. *)
Definition orEmpty (s : option string) : string := default "" s.

(** Truthiness of a nullable boolean. *)
Definition truthy (b : option bool) : bool := default false b.

(** [n === 0] for a nullable integer. *)
Definition isZero (n : option Z) : bool :=
  match n with
  | Some z => Z.eqb z 0
  | None => false
  end.

End Js.

(* ===================================================================== *)
(** ** The server: storage and routes *)
(* ===================================================================== *)

Module Server.
Import Js.

(** JSON values sent with [res.json]. *)
#[warnings="-register-all"] Inductive Json : Type :=
| JUndefined
| JNull
| JBool (b : bool)
| JNum (n : Z)
| JStr (s : string)
| JArr (elements : list Json)
| JObj (fields : list (string * Json)).

Definition jOptBool (b : option bool) : Json :=
  match b with Some v => JBool v | None => JNull end.
Definition jOptNum (n : option Z) : Json :=
  match n with Some v => JNum v | None => JNull end.
Definition jOptStr (s : option string) : Json :=
  match s with Some v => JStr v | None => JNull end.

(** A row of the [users] table (shared/schema, as documented in
    replit.md): [role], [freeDownloadsUsed] and [hasActiveSubscription]
    have defaults but are nullable. *)
Record User : Type := mkUser {
  userId : string;
  email : option string;
  role : option string;
  stripeCustomerId : option string;
  stripeSubscriptionId : option string;
  freeDownloadsUsed : option Z;
  hasActiveSubscription : option bool
}.

Definition userJson (u : User) : Json :=
  JObj [ ("id", JStr (userId u));
         ("email", jOptStr (email u));
         ("role", jOptStr (role u));
         ("stripeCustomerId", jOptStr (stripeCustomerId u));
         ("stripeSubscriptionId", jOptStr (stripeSubscriptionId u));
         ("freeDownloadsUsed", jOptNum (freeDownloadsUsed u));
         ("hasActiveSubscription", jOptBool (hasActiveSubscription u)) ].

(** [Partial<User>] as the admin route hands it to [updateUser]: a column
    that is absent from the body is [None], a column that is present
    carries its new (nullable) value.  The route deletes [id] from the
    body, so the key is not among them. *)
Record UserPatch : Type := mkPatch {
  patchEmail : option (option string);
  patchRole : option (option string);
  patchStripeCustomerId : option (option string);
  patchStripeSubscriptionId : option (option string);
  patchFreeDownloadsUsed : option (option Z);
  patchHasActiveSubscription : option (option bool)
}.

(** A row of [quote_drafts]: the columns the routes inspect, and the
    remaining columns as they are serialised. *)
Record QuoteDraft : Type := mkQuoteDraft {
  quoteId : string;
  code : string;
  createdBy : string;
  otherColumns : list (string * Json)
}.

Record Db : Type := mkDb {
  users : gmap string User;
  quoteDrafts : gmap string QuoteDraft;
  quoteItems : gmap string (list Json)
}.

(** A thrown value; [message] is [error?.message]. *)
Record JsError : Type := mkError { message : option string }.

(** [db.ts]: with [DATABASE_URL] set, [db] is a live connection; without
    it, [db] is a proxy whose every property access throws one fixed
    error.  [Failing e] is a [db] of which every access throws [e]. *)
Inductive Storage : Type :=
| Connected (db : Db)
| Failing (e : JsError).

Definition stubError : JsError :=
  mkError (Some "DATABASE_URL is not set - database operations are disabled. Provide DATABASE_URL to enable persistence.").

Definition createStubDb : Storage := Failing stubError.

(** Result of an [await]ed storage call. *)
Inductive Result (A : Type) : Type :=
| Ok (a : A)
| Throw (e : JsError).
Arguments Ok {A} a.
Arguments Throw {A} e.

Definition withDb {A} (st : Storage) (k : Db -> Result A) : Result A :=
  match st with
  | Connected db => k db
  | Failing e => Throw e
  end.

(** *** DatabaseStorage *)

Definition getUser (st : Storage) (id : string) : Result (option User) :=
  withDb st (fun db => Ok (users db !! id)).

Definition getQuoteDraft (st : Storage) (id : string) : Result (option QuoteDraft) :=
  withDb st (fun db => Ok (quoteDrafts db !! id)).

Definition getQuoteItems (st : Storage) (id : string) : Result (list Json) :=
  withDb st (fun db => Ok (default [] (quoteItems db !! id))).

Definition setUsers (db : Db) (us : gmap string User) : Db :=
  mkDb us (quoteDrafts db) (quoteItems db).

(** [UPDATE users SET ... WHERE id = userId RETURNING *]: the row is
    rewritten when it exists; no row, no change, and [undefined] comes
    back. *)
Definition updateRow (f : User -> User) (userId : string) (db : Db)
  : Storage * option User :=
  match users db !! userId with
  | Some u => (Connected (setUsers db (<[userId := f u]> (users db))), Some (f u))
  | None => (Connected db, None)
  end.

Definition applyPatch (data : UserPatch) (u : User) : User :=
  {| userId := userId u;
     email := default (email u) (patchEmail data);
     role := default (role u) (patchRole data);
     stripeCustomerId := default (stripeCustomerId u) (patchStripeCustomerId data);
     stripeSubscriptionId :=
       default (stripeSubscriptionId u) (patchStripeSubscriptionId data);
     freeDownloadsUsed := default (freeDownloadsUsed u) (patchFreeDownloadsUsed data);
     hasActiveSubscription :=
       default (hasActiveSubscription u) (patchHasActiveSubscription data) |}.

Definition updateUser (st : Storage) (userId : string) (data : UserPatch)
  : Result (Storage * option User) :=
  withDb st (fun db => Ok (updateRow (applyPatch data) userId db)).

(** The column is a PostgreSQL [integer]: [free_downloads_used + 1] on
    the largest value is an error of the statement, and on [NULL] it is
    [NULL]. *)
Definition INT4_MAX : Z := 2147483647.

Definition plusOne (u : User) : User :=
  {| userId := userId u;
     email := email u;
     role := role u;
     stripeCustomerId := stripeCustomerId u;
     stripeSubscriptionId := stripeSubscriptionId u;
     freeDownloadsUsed := (fun n => n + 1)%Z <$> freeDownloadsUsed u;
     hasActiveSubscription := hasActiveSubscription u |}.

Definition incrementFreeDownloads (st : Storage) (userId : string)
  : Result (Storage * option User) :=
  withDb st (fun db =>
    match users db !! userId with
    | Some u =>
        if bool_decide (freeDownloadsUsed u = Some INT4_MAX)
        then Throw (mkError (Some "integer out of range"))
        else Ok (updateRow plusOne userId db)
    | None => Ok (Connected db, None)
    end).

Definition withSubscription (active : bool) (u : User) : User :=
  {| userId := userId u;
     email := email u;
     role := role u;
     stripeCustomerId := stripeCustomerId u;
     stripeSubscriptionId := stripeSubscriptionId u;
     freeDownloadsUsed := freeDownloadsUsed u;
     hasActiveSubscription := Some active |}.

Definition updateSubscriptionStatus (st : Storage) (userId : string) (active : bool)
  : Result (Storage * option User) :=
  withDb st (fun db => Ok (updateRow (withSubscription active) userId db)).

Definition withStripeInfo (customer : string) (subscription : option string)
    (u : User) : User :=
  {| userId := userId u;
     email := email u;
     role := role u;
     stripeCustomerId := Some customer;
     stripeSubscriptionId :=
       match subscription with
       | Some s => if String.eqb s "" then stripeSubscriptionId u else Some s
       | None => stripeSubscriptionId u
       end;
     freeDownloadsUsed := freeDownloadsUsed u;
     hasActiveSubscription := hasActiveSubscription u |}.

Definition updateUserStripeInfo (st : Storage) (userId customer : string)
    (subscription : option string) : Result (Storage * option User) :=
  withDb st (fun db => Ok (updateRow (withStripeInfo customer subscription) userId db)).

(** [upsertUser] as [replitAuth.ts] calls it at login: the claims carry
    the key and profile columns only.  A new row takes the column
    defaults; an existing row has the profile columns that the claims
    define overwritten.  This is the statement when the database accepts
    it; the unique index on [email] can make it fail instead, which
    [Interleaving.delivers] adds. *)
Definition upsertUser (st : Storage) (id : string) (mail : option string)
  : Result (Storage * User) :=
  withDb st (fun db =>
    let row :=
      match users db !! id with
      | Some u => applyPatch (mkPatch (Some <$> mail) None None None None None) u
      | None => mkUser id mail (Some "user") None None (Some 0%Z) (Some false)
      end in
    Ok (Connected (setUsers db (<[id := row]> (users db))), row)).

(** *** Requests and responses *)

(** [req.user.claims] as [isAuthenticated] leaves it. *)
Record Claims : Type := mkClaims { sub : string; claimsEmail : string }.

Record Response : Type := mkResponse { status : Z; body : Json }.

(** [res.status(s).json(b)]; [res.json(b)] is [json 200 b]. *)
Definition json (s : Z) (b : Json) : Response := mkResponse s b.

Definition messageBody (m : string) : Json := JObj [("message", JStr m)].

(** What a middleware does with a request: hand over to the next handler
    of the chain, or answer. *)
Inductive Middleware : Type :=
| Next
| Respond (r : Response).

(** [(error?.message || '').toString()] *)
Definition errorText (e : JsError) : string := orEmpty (message e).

(** [(user.role || '').toLowerCase() === 'admin'], the test of the PDF
    routes. *)
Definition isAdminAnyCase (u : User) : bool :=
  String.eqb (toLowerCase (orEmpty (role u))) "admin".

(** [user?.role !== 'admin'], the test of the quote and admin routes. *)
Definition roleIsNotAdmin (u : option User) : bool :=
  match u with
  | Some u' =>
      match role u' with
      | Some r => negb (String.eqb r "admin")
      | None => true
      end
  | None => true
  end.

(** *** routes.ts, lines 18-58 *)
Definition requireSubscriptionOrFreeTrial (st : Storage) (claims : Claims) : Middleware :=
  match getUser st (sub claims) with
  | Ok None => Respond (json 404 (messageBody "User not found"))
  | Ok (Some user) =>
      if isAdminAnyCase user then Next
      else if truthy (hasActiveSubscription user) then Next
      else if isZero (freeDownloadsUsed user) then Next
      else Respond (json 402
             (JObj [ ("message", JStr "Subscription required");
                     ("code", JStr "SUBSCRIPTION_REQUIRED");
                     ("freeDownloadsUsed", jOptNum (freeDownloadsUsed user)) ]))
  | Throw error =>
      let msg := errorText error in
      if includes "DATABASE_URL is not set" msg then Next
      else Respond (json 500 (messageBody "Failed to check subscription status"))
  end.

(** *** GET /api/check-pdf-access, lines 441-472 *)
Definition unconditionalAccess : Json :=
  JObj [ ("canGenerate", JBool true);
         ("hasActiveSubscription", JBool true);
         ("freeDownloadsUsed", JNum 0);
         ("isFreeTrial", JBool false) ].

Definition checkPdfAccess (st : Storage) (claims : Claims) : Response :=
  match getUser st (sub claims) with
  | Ok None => json 404 (messageBody "User not found")
  | Ok (Some user) =>
      if isAdminAnyCase user then json 200 unconditionalAccess
      else
        let canGenerate :=
          truthy (hasActiveSubscription user) || isZero (freeDownloadsUsed user) in
        json 200
          (JObj [ ("canGenerate", JBool canGenerate);
                  ("hasActiveSubscription", jOptBool (hasActiveSubscription user));
                  ("freeDownloadsUsed", jOptNum (freeDownloadsUsed user));
                  ("isFreeTrial",
                     JBool (isZero (freeDownloadsUsed user)
                            && negb (truthy (hasActiveSubscription user)))) ])
  | Throw error =>
      let msg := errorText error in
      if includes "DATABASE_URL is not set" msg then json 200 unconditionalAccess
      else json 500 (messageBody "Failed to check PDF access")
  end.

(** *** POST /api/track-pdf-download, lines 475-503: the handler behind
    the gate *)
Definition trackFailed : Response :=
  json 500 (messageBody "Failed to track PDF download").

Definition trackPdfDownloadHandler (st : Storage) (claims : Claims)
  : Storage * Response :=
  match getUser st (sub claims) with
  | Ok None => (st, json 404 (messageBody "User not found"))
  | Ok (Some user) =>
      if negb (truthy (hasActiveSubscription user)) && isZero (freeDownloadsUsed user)
      then
        match incrementFreeDownloads st (sub claims) with
        | Ok (st', _) =>
            (st', json 200
                    (JObj [ ("success", JBool true);
                            ("message",
                               JStr "Free trial used. Subscribe to continue generating PDFs.");
                            ("freeDownloadsUsed", JNum 1) ]))
        | Throw _ => (st, trackFailed)
        end
      else
        (st, json 200
               (JObj [ ("success", JBool true);
                       ("message", JStr "PDF generated successfully");
                       ("freeDownloadsUsed", jOptNum (freeDownloadsUsed user)) ]))
  | Throw _ => (st, trackFailed)
  end.

(** The route: [isAuthenticated] has filled in the claims, the gate runs,
    and the handler runs when the gate calls [next()]. *)
Definition trackPdfDownload (st : Storage) (claims : Claims) : Storage * Response :=
  match requireSubscriptionOrFreeTrial st claims with
  | Next => trackPdfDownloadHandler st claims
  | Respond r => (st, r)
  end.

(** *** GET /api/quotes/:id, lines 178-197 *)
Definition getQuote (st : Storage) (claims : Claims) (id : string) : Response :=
  let failed := json 500 (messageBody "Failed to fetch quote") in
  match getQuoteDraft st id with
  | Ok None => json 404 (messageBody "Quote not found")
  | Ok (Some quote) =>
      match getUser st (sub claims) with
      | Ok user =>
          if roleIsNotAdmin user && negb (String.eqb (createdBy quote) (claimsEmail claims))
          then json 403 (messageBody "Access denied")
          else
            match getQuoteItems st id with
            | Ok items =>
                json 200
                  (JObj ([ ("id", JStr (quoteId quote));
                           ("code", JStr (code quote));
                           ("createdBy", JStr (createdBy quote)) ]
                         ++ otherColumns quote ++ [("items", JArr items)]))
            | Throw _ => failed
            end
      | Throw _ => failed
      end
  | Throw _ => failed
  end.

(** *** PUT /api/admin/users/:id, lines 419-438.  [data] is the body
    after the three [delete]s. *)
Definition adminUpdateUser (st : Storage) (claims : Claims) (id : string)
    (data : UserPatch) : Storage * Response :=
  let failed := json 500 (messageBody "Failed to update user") in
  match getUser st (sub claims) with
  | Ok adminUser =>
      if roleIsNotAdmin adminUser
      then (st, json 403 (messageBody "Admin access required"))
      else
        match updateUser st id data with
        | Ok (st', user) =>
            (st', json 200 (match user with Some u => userJson u | None => JUndefined end))
        | Throw _ => (st, failed)
        end
  | Throw _ => (st, failed)
  end.

(** *** The operations that reach the [users] table

    Each HTTP request or callback that the server handles and that reads
    or writes a user row, run from its first await to its last with no
    other request in between.  [Interleaving] has the same requests one
    await at a time. *)
Inductive Operation : Type :=
| Login (id : string) (mail : option string)
    (* the OIDC callback: upsertUser(claims) *)
| CheckPdfAccess (claims : Claims)
| TrackPdfDownload (claims : Claims)
| GetQuote (claims : Claims) (id : string)
| AdminUpdateUser (claims : Claims) (id : string) (data : UserPatch)
| StripeCustomerCreated (userId customer : string) (subscription : option string)
    (* get-or-create-subscription: updateUserStripeInfo *)
| StripeWebhook (userId : string) (active : bool)
    (* the webhook, once it has found the user: updateSubscriptionStatus *).

Definition stateOf {A} (st : Storage) (r : Result (Storage * A)) : Storage :=
  match r with
  | Ok (st', _) => st'
  | Throw _ => st
  end.

(** The storage after an operation. *)
Definition perform (op : Operation) (st : Storage) : Storage :=
  match op with
  | Login id mail => stateOf st (upsertUser st id mail)
  | CheckPdfAccess _ => st
  | TrackPdfDownload claims => fst (trackPdfDownload st claims)
  | GetQuote _ _ => st
  | AdminUpdateUser claims id data => fst (adminUpdateUser st claims id data)
  | StripeCustomerCreated userId customer subscription =>
      stateOf st (updateUserStripeInfo st userId customer subscription)
  | StripeWebhook userId active =>
      stateOf st (updateSubscriptionStatus st userId active)
  end.

(** A sequence of operations, each one finished before the next one
    starts. *)
Definition run (ops : list Operation) (st : Storage) : Storage :=
  fold_left (fun s op => perform op s) ops st.

Definition isAdminUpdate (op : Operation) : bool :=
  match op with
  | AdminUpdateUser _ _ _ => true
  | _ => false
  end.

(** The row of a user in a storage, when it can be read. *)
Definition rowOf (st : Storage) (id : string) : option User :=
  match st with
  | Connected db => users db !! id
  | Failing _ => None
  end.

(** The counter of a user in a storage. *)
Definition counterOf (st : Storage) (id : string) : option (option Z) :=
  freeDownloadsUsed <$> rowOf st id.

End Server.

(* ===================================================================== *)
(** ** The quote editor: ItemsList and QuoteSummary *)
(* ===================================================================== *)

Module Editor.
Local Open Scope Q_scope.

(** [x || 0] on a number. *)
Definition orZero (x : Q) : Q := if Qeq_bool x 0 then 0 else x.

(** [interface QuoteItem] of ItemsList. *)
Module QuoteItem.
Record t : Type := make {
  description : string;
  unit_price : Q;
  needed_quantity : Q;
  owned_quantity : Q;
  buy_quantity : Q;
  total : Q
}.
End QuoteItem.
Import QuoteItem.
Abbreviation QuoteItem := QuoteItem.t.

(** *** ItemsList *)

Definition addItem (items : list QuoteItem) : list QuoteItem :=
  items ++ [ {| description := ""; unit_price := 0; needed_quantity := 1;
                owned_quantity := 0; buy_quantity := 1; total := 0 |} ].

(** [array.filter((x, i) => p(x, i))] *)
Fixpoint filterFrom {A} (p : A -> nat -> bool) (i : nat) (l : list A) : list A :=
  match l with
  | [] => []
  | x :: rest =>
      if p x i then x :: filterFrom p (S i) rest else filterFrom p (S i) rest
  end.

Definition removeItem (index : nat) (items : list QuoteItem) : list QuoteItem :=
  filterFrom (fun _ i => negb (Nat.eqb i index)) 0%nat items.

(** The pair [(field, value)] of [updateItem], with the value typed as
    the interface types the field. *)
Inductive Assignment : Type :=
| Description (value : string)
| UnitPrice (value : Q)
| NeededQuantity (value : Q)
| OwnedQuantity (value : Q)
| BuyQuantity (value : Q)
| Total (value : Q).

(** [{ ...item, [field]: value }] *)
Definition assign (a : Assignment) (item : QuoteItem) : QuoteItem :=
  match a with
  | Description v =>
      make v (unit_price item) (needed_quantity item) (owned_quantity item)
        (buy_quantity item) (total item)
  | UnitPrice v =>
      make (description item) v (needed_quantity item) (owned_quantity item)
        (buy_quantity item) (total item)
  | NeededQuantity v =>
      make (description item) (unit_price item) v (owned_quantity item)
        (buy_quantity item) (total item)
  | OwnedQuantity v =>
      make (description item) (unit_price item) (needed_quantity item) v
        (buy_quantity item) (total item)
  | BuyQuantity v =>
      make (description item) (unit_price item) (needed_quantity item)
        (owned_quantity item) v (total item)
  | Total v =>
      make (description item) (unit_price item) (needed_quantity item)
        (owned_quantity item) (buy_quantity item) v
  end.

(** [field === 'needed_quantity' || field === 'owned_quantity' ||
    field === 'unit_price'] *)
Definition recalculates (a : Assignment) : bool :=
  match a with
  | NeededQuantity _ | OwnedQuantity _ | UnitPrice _ => true
  | Description _ | BuyQuantity _ | Total _ => false
  end.

(** The body of the [if] of [updateItem]. *)
Definition recalculate (item : QuoteItem) : QuoteItem :=
  let needed := orZero (needed_quantity item) in
  let owned := orZero (owned_quantity item) in
  let buyQty := Qmax 0 (needed - owned) in
  make (description item) (unit_price item) (needed_quantity item)
    (owned_quantity item) buyQty (buyQty * orZero (unit_price item)).

(** [updateItem(index, field, value)], lines 133-148.  [None] is the call
    with an index past the end: JavaScript would grow the array there
    with an object that has none of the other fields of the interface;
    the component calls [updateItem] from the row it has rendered for
    [index], so that call is not made. *)
Definition updateItem (index : nat) (a : Assignment) (items : list QuoteItem)
  : option (list QuoteItem) :=
  match items !! index with
  | Some item =>
      let edited := assign a item in
      Some (<[index := if recalculates a then recalculate edited else edited]> items)
  | None => None
  end.

(** The rows of the table body, lines 186-287. *)
Inductive Row : Type :=
| PlaceholderRow (colSpan : nat) (text : string)
| ItemRow (index : nat) (item : QuoteItem) (economia totalNecessario : Q).

Definition quoted (s : string) : string :=
  String (ascii_of_nat 34) s +:+ String (ascii_of_nat 34) EmptyString.

Definition noItemsText : string :=
  "Nenhum item adicionado. Clique em " +:+ quoted "Adicionar Item" +:+ " para começar.".

Definition tableBody (items : list QuoteItem) : list Row :=
  if Nat.eqb (length items) 0%nat
  then [PlaceholderRow 8%nat noItemsText]
  else imap (fun index item =>
               ItemRow index item
                 (orZero (owned_quantity item) * orZero (unit_price item))
                 (orZero (needed_quantity item) * orZero (unit_price item)))
            items.

(** *** QuoteSummary, lines 18-21 *)

Record Totals : Type := mkTotals {
  subtotal : Q;
  discountAmount : Q;
  total : Q
}.

(** [items.reduce((sum, item) => sum + (item.total || 0), 0)] *)
Definition sumTotals (items : list QuoteItem) : Q :=
  fold_left (fun sum item => sum + orZero (QuoteItem.total item)) items 0.

Definition QuoteSummary (items : list QuoteItem) (discount : Q) : Totals :=
  let subtotal := sumTotals items in
  let discountAmount := (subtotal * discount) / 100 in
  let total := subtotal - discountAmount in
  mkTotals subtotal discountAmount total.

(** *** The words of the specification

    "clamp(discountPercent, 0, 100)", written down as it is stated, to
    be compared with what the components compute. *)
Definition clamp (x lo hi : Q) : Q := Qmax lo (Qmin x hi).

End Editor.

(* ===================================================================== *)
(** ** The PDF generator: totals, palette and document *)
(* ===================================================================== *)

Module PdfGenerator.
Import Editor Editor.QuoteItem.
Local Open Scope Q_scope.

(** [interface Quote] *)
Record Quote : Type := mkQuote {
  code : string;
  title : string;
  client_name : string;
  client_email : string;
  items : list QuoteItem;
  discount : Q;
  template_variant : string;
  note : option string
}.

(** The company as [Company.list()] returns it; both fields may be
    missing. *)
Record Company : Type := mkCompany {
  logo_url : option string;
  name : option string
}.

(** [generateQuotePDF], "Calculate totals", lines 969-971. *)
Definition calculateTotals (quote : Quote) : Totals :=
  let subtotal := sumTotals (items quote) in
  let discountAmount := (subtotal * orZero (discount quote)) / 100 in
  let total := subtotal - discountAmount in
  mkTotals subtotal discountAmount total.

(** *** getTemplateColors, lines 1005-1018 *)

Record Palette : Type := mkPalette {
  main : string;
  dark : string;
  light : string;
  bg : string;
  bg_grad : string;
  header_grad : string;
  text : option string;
  text_alt : option string
}.

Definition classic : Palette :=
  mkPalette "#2563eb" "#1e40af" "#e0e7ff" "#eff6ff"
    "linear-gradient(135deg, #eff6ff 0%, #dbeafe 100%)"
    "linear-gradient(135deg, #2563eb 0%, #3b82f6 100%)" None None.

Definition getTemplateColors (variant : string) : Palette :=
  if String.eqb variant "variant_b" then
    mkPalette "#7c3aed" "#6b21a8" "#e9d5ff" "#faf5ff"
      "linear-gradient(135deg, #faf5ff 0%, #f3e8ff 100%)"
      "linear-gradient(135deg, #7c3aed 0%, #8b5cf6 100%)" None None
  else if String.eqb variant "variant_c" then
    mkPalette "#c59d5f" "#2d3748" "#4a5568" "#2d3748" "#2d3748"
      "linear-gradient(135deg, #4a5568 0%, #2d3748 100%)"
      (Some "#f7fafc") (Some "#a0aec0")
  else if String.eqb variant "variant_d" then
    mkPalette "#047857" "#065f46" "#d1fae5" "#f0fdf4"
      "linear-gradient(135deg, #f0fdf4 0%, #d1fae5 100%)"
      "linear-gradient(135deg, #059669 0%, #10b981 100%)" None None
  else if String.eqb variant "variant_e" then
    mkPalette "#f97316" "#1f2937" "#e5e7eb" "#f9fafb" "#f9fafb" "#1f2937" None None
  else classic.

(** *** generateHTMLTemplate, the [<body>], lines 1172-1274

    The markup is kept as a tree.  [Money q] stands for
    [q.toLocaleString('pt-BR', { minimumFractionDigits: 2 })] and
    [Num q] for a number interpolated as it is; both are formatted by
    the host.  The style sheet of the [<head>] is not part of the
    model. *)
#[warnings="-register-all"] Inductive Html : Type :=
| Text (s : string)
| Money (q : Q)
| Num (q : Q)
| Element (tag : string) (attributes : list (string * string)) (children : list Html).

Definition el (tag class : string) (children : list Html) : Html :=
  Element tag [("class", class)] children.

Definition td (class : string) (children : list Html) : Html := el "td" class children.

(** The callback of [quote.items.map], lines 1223-1237. *)
Definition itemRow (item : QuoteItem) : Html :=
  let economia := orZero (owned_quantity item) * orZero (unit_price item) in
  Element "tr" []
    [ td "item-desc" [Text (description item)];
      td "text-right" [Text "R$ "; Money (orZero (unit_price item))];
      td "text-right" [Num (orZero (needed_quantity item))];
      Element "td" [("class", "text-right"); ("style", "color: #f97316; font-weight: 600;")]
        [Num (orZero (owned_quantity item))];
      Element "td" [("class", "text-right"); ("style", "color: #2563eb; font-weight: 600;")]
        [Num (orZero (buy_quantity item))];
      td "text-right font-semibold text-green-600"
        ([Text "R$ "; Money (orZero (QuoteItem.total item))]
         ++ (if Qlt_le_dec 0 economia
             then [ Element "br" [] [];
                    Element "small" [("style", "color: #6b7280;")]
                      [Text "Economia: R$ "; Money economia] ]
             else [])) ].

Definition th (class : option string) (label : string) : Html :=
  Element "th" (match class with Some c => [("class", c)] | None => [] end) [Text label].

(** The rows of [<tbody>]: [quote.items.map(...).join('')]. *)
Definition itemRows (quote : Quote) : list Html := map itemRow (items quote).

Definition itemsSection (quote : Quote) : Html :=
  el "div" "items-section"
    [ el "div" "section-title" [Text "Itens do Orçamento"];
      el "table" "items-table"
        [ Element "thead" []
            [ Element "tr" []
                [ th None "Item";
                  th (Some "text-right") "Preço Unit.";
                  th (Some "text-right") "Necessário";
                  th (Some "text-right") "Já Tenho";
                  th (Some "text-right") "Comprar";
                  th (Some "text-right") "A Pagar" ] ];
          Element "tbody" [] (itemRows quote) ] ].

Definition summarySection (quote : Quote) (totals : Totals) : Html :=
  el "div" "summary-section"
    ([ el "div" "summary-row"
         [ Element "span" [] [Text "Subtotal:"];
           Element "span" [] [Text "R$ "; Money (subtotal totals)] ] ]
     ++ (if Qlt_le_dec 0 (discount quote)
         then [ el "div" "summary-row"
                  [ Element "span" [] [Text "Desconto ("; Num (discount quote); Text "%):"];
                    Element "span" [("style", "color: #dc2626;")]
                      [Text "-R$ "; Money (discountAmount totals)] ] ]
         else [])
     ++ [ el "div" "summary-row total"
            [ Element "span" [] [Text "TOTAL:"];
              el "span" "total-value" [Text "R$ "; Money (Editor.total totals)] ] ]).

(** [s || fallback] for a string that may be missing or empty. *)
Definition orText (s : option string) (fallback : string) : string :=
  match s with
  | Some v => if String.eqb v "" then fallback else v
  | None => fallback
  end.

Definition nonEmpty (s : option string) : option string :=
  match s with
  | Some v => if String.eqb v "" then None else Some v
  | None => None
  end.

Definition headerSection (quote : Quote) (company : option Company) (today : string)
  : Html :=
  let isDarkTheme := String.eqb (template_variant quote) "variant_c" in
  el "div" "header"
    [ el "div" "logo-section"
        [ match nonEmpty (company ≫= logo_url) with
          | Some url =>
              Element "img"
                ([("src", url); ("alt", "Logo"); ("class", "logo")]
                 ++ (if isDarkTheme
                     then [("style", "filter: invert(1) grayscale(1) brightness(2);")]
                     else []))
                []
          | None => el "div" "company-name" [Text (orText (company ≫= name) "Sua Empresa")]
          end ];
      el "div" "quote-info"
        [ el "div" "quote-title" [Text "ORÇAMENTO"];
          el "div" "quote-code" [Text (code quote)];
          Element "div" [("style", "margin-top: 15px; font-size: 14px; color: #6b7280;")]
            [Text "Data: "; Text today] ] ].

Definition clientSection (quote : Quote) : Html :=
  el "div" "client-section"
    [ el "div" "client-title" [Text "Dados do Cliente"];
      el "div" "client-info"
        [ el "div" "client-field"
            [ Element "strong" [] [Text "Cliente:"];
              Text " "; Text (orText (Some (client_name quote)) "N/A") ];
          el "div" "client-field"
            [ Element "strong" [] [Text "Email:"];
              Text " "; Text (orText (Some (client_email quote)) "N/A") ] ] ].

Definition titleSection (quote : Quote) : Html :=
  let colors := getTemplateColors (template_variant quote) in
  Element "div" [("style", "text-align: center; margin: 30px 0;")]
    [ Element "h1" [("style", "color: " +:+ main colors +:+ "; font-size: 24px;")]
        [Text (title quote)] ].

Definition notesSection (quote : Quote) : list Html :=
  match nonEmpty (note quote) with
  | Some n =>
      [ el "div" "notes-section"
          [ el "div" "notes-title" [Text "Observações:"];
            Element "div" [] [Text n] ] ]
  | None => []
  end.

Definition footerSection : Html :=
  el "div" "footer"
    [ Element "p" [] [Text "Este orçamento foi gerado automaticamente pelo QuoteMaster"];
      Element "p" [] [Text "Válido por 30 dias a partir da data de emissão"] ].

(** [today] is [new Date().toLocaleDateString('pt-BR')]. *)
Definition generateHTMLTemplate (quote : Quote) (company : option Company)
    (totals : Totals) (today : string) : Html :=
  Element "body" []
    [ el "div" "container"
        ([ headerSection quote company today;
           clientSection quote;
           titleSection quote;
           itemsSection quote;
           summarySection quote totals ]
         ++ notesSection quote
         ++ [ footerSection ]) ].

(** The child lists of every [tag] element of a document, in document
    order; [childrenOf "tbody"] gives the rows of its table bodies. *)
Fixpoint childrenOf (tag : string) (h : Html) {struct h} : list (list Html) :=
  match h with
  | Element t _ children =>
      ((if String.eqb t tag then [children] else [])
       ++ (fix inAll (l : list Html) : list (list Html) :=
             match l with
             | [] => []
             | c :: rest => (childrenOf tag c ++ inAll rest)%list
             end) children)%list
  | Text _ | Money _ | Num _ => []
  end.

End PdfGenerator.

(* ===================================================================== *)
(** ** Concrete data used by the examples *)
(* ===================================================================== *)

Module Examples.
Import Js Server.

Definition fresh : User :=
  mkUser "user-1" (Some "user1@example.com") (Some "user") None None (Some 0%Z) (Some false).

Definition spent : User :=
  mkUser "user-2" (Some "user2@example.com") (Some "user") None None (Some 1%Z) (Some false).

Definition root : User :=
  mkUser "admin-1" (Some "root@example.com") (Some "admin") None None (Some 0%Z) (Some false).

Definition capital : User :=
  mkUser "admin-2" (Some "boss@example.com") (Some "Admin") None None (Some 3%Z) (Some false).

Definition draft : QuoteDraft :=
  mkQuoteDraft "q-1" "QT-202601-001" "user1@example.com" [("title", JStr "Obra")].

Definition db0 : Db :=
  mkDb (<["user-1" := fresh]> (<["user-2" := spent]>
         (<["admin-1" := root]> (<["admin-2" := capital]> ∅))))
       (<["q-1" := draft]> ∅)
       ∅.

Definition freshClaims : Claims := mkClaims "user-1" "user1@example.com".
Definition rootClaims : Claims := mkClaims "admin-1" "root@example.com".
Definition capitalClaims : Claims := mkClaims "admin-2" "boss@example.com".

(** The body [{ freeDownloadsUsed: 0 }] sent to the admin route. *)
Definition resetCounter : UserPatch :=
  mkPatch None None None None (Some (Some 0%Z)) None.

End Examples.

Module EditorExamples.
Import Editor Editor.QuoteItem PdfGenerator.
Local Open Scope Q_scope.

(** The list of one row priced at 100 with 5 needed and 2 owned. *)
Definition sessionItems : list QuoteItem :=
  [ make "" 100 (inject_Z 5) (inject_Z 2) (Qmax 0 (inject_Z 5 - inject_Z 2))
      (Qmax 0 (inject_Z 5 - inject_Z 2) * 100) ].

Definition emptyQuote : Quote :=
  mkQuote "QT-202601-001" "Obra" "Cliente" "cliente@example.com" [] 0 "variant_a" None.

Definition sessionQuote : Quote :=
  mkQuote "QT-202601-002" "Obra" "Cliente" "cliente@example.com" sessionItems 10
    "variant_z" None.

End EditorExamples.

(* ===================================================================== *)
(** ** More of the server: the other quote routes *)
(* ===================================================================== *)

Module Routes.
Import Js Server.

(** [listQuoteDrafts(userEmail?)] of the storage: with a truthy [userEmail]
    the rows created by that address, otherwise every row.  The rows are
    given as the finite map they form: the [ORDER BY] of the query is not
    modelled. *)
Definition listQuoteDrafts (st : Storage) (userEmail : option string)
  : Result (gmap string QuoteDraft) :=
  withDb st (fun db =>
    match userEmail with
    | Some address =>
        if String.eqb address ""
        then Ok (quoteDrafts db)
        else Ok (filter (fun row => createdBy (snd row) = address) (quoteDrafts db))
    | None => Ok (quoteDrafts db)
    end).

(** What GET /api/quotes sends: the rows, or an error answer. *)
Inductive Listing : Type :=
| Rows (quotes : gmap string QuoteDraft)
| Answer (r : Response).

(** *** GET /api/quotes, routes.ts lines 166-176 *)
Definition getQuotes (st : Storage) (claims : Claims) : Listing :=
  let failed := Answer (json 500 (messageBody "Failed to fetch quotes")) in
  match getUser st (sub claims) with
  | Ok user =>
      let userEmail := if roleIsNotAdmin user then Some (claimsEmail claims) else None in
      match listQuoteDrafts st userEmail with
      | Ok quotes => Rows quotes
      | Throw _ => failed
      end
  | Throw _ => failed
  end.

(** [deleteQuoteDraft]: the row goes, and with it its items
    ([quote_items.quote_draft_id] is declared [onDelete: "cascade"]). *)
Definition deleteQuoteDraft (st : Storage) (id : string) : Result Storage :=
  withDb st (fun db =>
    Ok (Connected (mkDb (users db) (delete id (quoteDrafts db)) (delete id (quoteItems db))))).

(** *** DELETE /api/quotes/:id, routes.ts lines 254-274 *)
Definition deleteQuote (st : Storage) (claims : Claims) (id : string)
  : Storage * Response :=
  let failed := json 500 (messageBody "Failed to delete quote") in
  match getQuoteDraft st id with
  | Ok None => (st, json 404 (messageBody "Quote not found"))
  | Ok (Some quote) =>
      match getUser st (sub claims) with
      | Ok user =>
          if roleIsNotAdmin user && negb (String.eqb (createdBy quote) (claimsEmail claims))
          then (st, json 403 (messageBody "Access denied"))
          else
            match deleteQuoteDraft st id with
            | Ok st' => (st', json 200 (messageBody "Quote deleted successfully"))
            | Throw _ => (st, failed)
            end
      | Throw _ => (st, failed)
      end
  | Throw _ => (st, failed)
  end.

(** *** GET /api/quotes/:quoteId/items, routes.ts lines 304-324 *)
Definition getItems (st : Storage) (claims : Claims) (quoteId : string) : Response :=
  let failed := json 500 (messageBody "Failed to fetch quote items") in
  match getQuoteDraft st quoteId with
  | Ok None => json 404 (messageBody "Quote not found")
  | Ok (Some quote) =>
      match getUser st (sub claims) with
      | Ok user =>
          if roleIsNotAdmin user && negb (String.eqb (createdBy quote) (claimsEmail claims))
          then json 403 (messageBody "Access denied")
          else
            match getQuoteItems st quoteId with
            | Ok items => json 200 (JArr items)
            | Throw _ => failed
            end
      | Throw _ => failed
      end
  | Throw _ => failed
  end.

(** *** GET /api/admin/users, routes.ts lines 389-402.  The rows are sent
    as the finite map they form. *)
Inductive UserListing : Type :=
| UserRows (rows : gmap string User)
| UserAnswer (r : Response).

Definition adminListUsers (st : Storage) (claims : Claims) : UserListing :=
  let failed := UserAnswer (json 500 (messageBody "Failed to fetch users")) in
  match getUser st (sub claims) with
  | Ok user =>
      if roleIsNotAdmin user
      then UserAnswer (json 403 (messageBody "Admin access required"))
      else
        match st with
        | Connected db => UserRows (users db)
        | Failing _ => failed
        end
  | Throw _ => failed
  end.

(** The webhook of Stripe, routes.ts line 615:
    [['active', 'trialing'].includes(subscription.status)]. *)
Definition isActive (status : string) : bool :=
  String.eqb status "active" || String.eqb status "trialing".

(** A user row with another role. *)
Definition withRole (r : option string) (u : User) : User :=
  mkUser (userId u) (email u) r (stripeCustomerId u) (stripeSubscriptionId u)
    (freeDownloadsUsed u) (hasActiveSubscription u).

(** The database in which the row [id], if there is one, has the role
    [r]. *)
Definition setRole (id : string) (r : option string) (db : Db) : Db :=
  setUsers db (alter (withRole r) id (users db)).

End Routes.

(* ===================================================================== *)
(** ** Sessions: replitAuth.ts *)
(* ===================================================================== *)

Module Auth.
Import Js Server.

(** The token endpoint response, as far as [updateUserSession] reads it;
    [exp] is [claims().exp]. *)
Record Tokens : Type := mkTokens {
  tokenClaims : Claims;
  exp : option Z;
  tokenAccess : option string;
  tokenRefresh : option string
}.

(** [req.user] *)
Record Session : Type := mkSession {
  claims : Claims;
  access_token : option string;
  refresh_token : option string;
  expires_at : option Z
}.

(** [updateUserSession(user, tokens)], lines 54-62. *)
Definition updateUserSession (tokens : Tokens) : Session :=
  mkSession (tokenClaims tokens) (tokenAccess tokens) (tokenRefresh tokens) (exp tokens).

(** [!user.expires_at]: missing or 0. *)
Definition noExpiry (s : Session) : bool :=
  match expires_at s with
  | Some t => Z.eqb t 0
  | None => true
  end.

(** A refresh token that is there: neither missing nor empty. *)
Definition refreshable (s : Session) : option string :=
  match refresh_token s with
  | Some t => if String.eqb t "" then None else Some t
  | None => None
  end.

Definition unauthorized : Response := json 401 (messageBody "Unauthorized").

(** [isAuthenticated], lines 179-206.  [session] is [None] when
    [req.isAuthenticated()] is false; [now] is
    [Math.floor(Date.now() / 1000)]; [refreshTokenGrant] is the call to the
    identity provider.  The result carries [req.user] as the middleware
    leaves it. *)
Definition isAuthenticated (session : option Session) (now : Z)
    (refreshTokenGrant : string -> Result Tokens) : Middleware * option Session :=
  match session with
  | None => (Respond unauthorized, session)
  | Some user =>
      if noExpiry user then (Respond unauthorized, session)
      else if Z.leb now (default 0%Z (expires_at user)) then (Next, session)
      else
        match refreshable user with
        | None => (Respond unauthorized, session)
        | Some refreshToken =>
            match refreshTokenGrant refreshToken with
            | Ok tokenResponse => (Next, Some (updateUserSession tokenResponse))
            | Throw _ => (Respond unauthorized, session)
            end
        end
  end.

End Auth.

(* ===================================================================== *)
(** ** The client: saving and generating a PDF *)
(* ===================================================================== *)

Module Client.
Import Js Server Editor PdfGenerator.
Local Open Scope Q_scope.

(** [saveData.subtotal] and [saveData.total] of the save mutation of the
    quote editor (quote-editor.tsx lines 117-119), before [toString()]. *)
Definition saveSubtotal (items : list QuoteItem) : Q := sumTotals items.

Definition saveTotal (items : list QuoteItem) (discount : Q) : Q :=
  sumTotals items - (sumTotals items * orZero discount) / 100.

(** [response.ok] of [fetch]. *)
Definition ok (r : Response) : bool := Z.leb 200 (status r) && Z.leb (status r) 299.

Fixpoint assoc (key : string) (fields : list (string * Json)) : Json :=
  match fields with
  | [] => JUndefined
  | (k, v) :: rest => if String.eqb key k then v else assoc key rest
  end.

(** [data.key] on a parsed body: [None] is the [TypeError] of reading a
    property of [null] or [undefined]. *)
Definition property (key : string) (data : Json) : option Json :=
  match data with
  | JObj fields => Some (assoc key fields)
  | JUndefined | JNull => None
  | JBool _ | JNum _ | JStr _ | JArr _ => Some JUndefined
  end.

Definition truthyJson (j : Json) : bool :=
  match j with
  | JUndefined | JNull => false
  | JBool b => b
  | JNum n => negb (Z.eqb n 0)
  | JStr s => negb (String.eqb s "")
  | JArr _ | JObj _ => true
  end.

(** [j === 'text'] *)
Definition isString (j : Json) (text : string) : bool :=
  match j with
  | JStr s => String.eqb s text
  | _ => false
  end.

(** What [generateQuotePDF] returns. *)
Module PdfResult.
Record value : Type := mk {
  success : bool;
  requiresSubscription : bool;
  url : option string;
  isFreeTrial : Json;
  freeDownloadsUsed : Json;
  message : Json
}.
End PdfResult.

(** The answer of the [catch]. *)
Definition generationError : PdfResult.value :=
  PdfResult.mk false false None JUndefined JUndefined
    (JStr "Erro ao gerar PDF. Tente novamente.").

Definition orUndefined (j : option Json) : Json := default JUndefined j.

(** [generateQuotePDF(quote)], pdfGenerator lines 919-1003, run against
    the server: the two [fetch]es are the routes, [companyList] is what
    [Company.list()] resolves to or throws, [windowOpens] tells whether
    [window.open] returned a window, [today] is the date printed.  The
    result is the storage of the server afterwards, the value returned,
    and the document written to the window, if any. *)
Definition generateQuotePDF (st : Storage) (claims : Claims) (quote : Quote)
    (companyList : Result (list Company)) (windowOpens : bool) (today : string)
  : Storage * PdfResult.value * option Html :=
  let accessResponse := checkPdfAccess st claims in
  if negb (ok accessResponse) then (st, generationError, None)
  else
    let accessData := body accessResponse in
    match property "canGenerate" accessData with
    | None => (st, generationError, None)
    | Some canGenerate =>
        if negb (truthyJson canGenerate)
        then
          (st,
           PdfResult.mk false true None JUndefined
             (orUndefined (property "freeDownloadsUsed" accessData))
             (JStr "Você já utilizou seu download gratuito. Assine o plano para continuar gerando PDFs."),
           None)
        else
          let tracked := trackPdfDownload st claims in
          let st1 := fst tracked in
          let trackResponse := snd tracked in
          if negb (ok trackResponse)
          then
            let errorData := body trackResponse in
            match property "code" errorData with
            | Some code =>
                if isString code "SUBSCRIPTION_REQUIRED"
                then
                  (st1,
                   PdfResult.mk false true None JUndefined
                     (orUndefined (property "freeDownloadsUsed" errorData))
                     (JStr "Assinatura necessária para gerar mais PDFs."),
                   None)
                else (st1, generationError, None)
            | None => (st1, generationError, None)
            end
          else
            let trackData := body trackResponse in
            match companyList with
            | Throw _ => (st1, generationError, None)
            | Ok companies =>
                let company := head companies in
                let totals := calculateTotals quote in
                let htmlContent := generateHTMLTemplate quote company totals today in
                match property "freeDownloadsUsed" trackData,
                      property "message" trackData with
                | Some used, Some text =>
                    (st1,
                     PdfResult.mk true false (Some "#")
                       (orUndefined (property "isFreeTrial" accessData)) used text,
                     if windowOpens then Some htmlContent else None)
                | _, _ => (st1, generationError, None)
                end
            end
    end.

End Client.

Module MoreExamples.
Import Js Server Examples Routes Auth.

Definition subscriber : User :=
  mkUser "user-3" (Some "user3@example.com") (Some "user") (Some "cus_123") (Some "sub_123")
    (Some 1%Z) (Some true).

Definition banned : User :=
  mkUser "user-4" (Some "user4@example.com") (Some "banned") None None (Some 0%Z) (Some false).

Definition db1 : Db :=
  mkDb (<["user-3" := subscriber]> (<["user-4" := banned]> (users db0)))
       (<["q-2" := mkQuoteDraft "q-2" "QT-202601-002" "user2@example.com" []]>
          (quoteDrafts db0))
       (<["q-1" := [JObj [("description", JStr "Cimento")]]]> ∅).

Definition subscriberClaims : Claims := mkClaims "user-3" "user3@example.com".
Definition spentClaims : Claims := mkClaims "user-2" "user2@example.com".
Definition bannedClaims : Claims := mkClaims "user-4" "user4@example.com".
Definition namelessClaims : Claims := mkClaims "user-2" "".

Definition stale : Session :=
  mkSession freshClaims (Some "at-1") (Some "rt-1") (Some 1000%Z).

Definition renewed : Tokens :=
  mkTokens freshClaims (Some 5000%Z) (Some "at-2") (Some "rt-2").

Definition grantAlways (refreshToken : string) : Result Tokens := Ok renewed.

Definition grantNever (refreshToken : string) : Result Tokens :=
  Throw (mkError (Some "invalid_grant")).

End MoreExamples.

Module MoreEditorExamples.
Import Editor Editor.QuoteItem.
Local Open Scope Q_scope.

(** The row of [EditorExamples.sessionItems]. *)
Definition sessionRow : QuoteItem :=
  make "" 100 (inject_Z 5) (inject_Z 2) (Qmax 0 (inject_Z 5 - inject_Z 2))
    (Qmax 0 (inject_Z 5 - inject_Z 2) * 100).

End MoreEditorExamples.

(* ===================================================================== *)
(** ** Requests in flight: the awaits of the routes that write user rows *)
(* ===================================================================== *)

Module Interleaving.
Import Js Server.

(** What an awaited storage call delivers to the code behind it: the
    result of the statement as [DatabaseStorage] is modelled above, or a
    rejection.  A rejection stands for what the model of the tables does
    not decide: a unique index or a foreign key of the schema that the
    statement would violate, a value out of the range of its column, a
    lost connection.  A rejected statement leaves the tables as they
    were. *)
Inductive delivers {A : Type} (modelled : Result A) : Result A -> Prop :=
| Accepted : delivers modelled modelled
| Rejected (e : JsError) : delivers modelled (Throw e).

(** A request that the server is handling, at the [await] it has reached.
    Node runs the code between two awaits without interruption, and the
    database runs one statement at a time, so a request moves from one
    constructor to the next in one step, and the steps of different
    requests interleave. *)
Inductive Request : Type :=
(* POST /api/track-pdf-download *)
| AtGate (claims : Claims)
    (* routes.ts 21: storage.getUser, in requireSubscriptionOrFreeTrial *)
| AtHandler (claims : Claims)
    (* routes.ts 478: storage.getUser, in the handler *)
| AtIncrement (claims : Claims) (user : User)
    (* routes.ts 486: storage.incrementFreeDownloads; [user] is the row
       read at 478 *)
(* PUT /api/admin/users/:id *)
| AtAdminRead (claims : Claims) (id : string) (data : UserPatch)
    (* routes.ts 421: storage.getUser *)
| AtAdminUpdate (id : string) (data : UserPatch)
    (* routes.ts 432: storage.updateUser *)
(* the login callback, replitAuth.ts 67 *)
| AtUpsert (id : string) (mail : option string)
(* POST /api/local-login, replitAuth.ts 144-150 *)
| AtLocalUpsert
| AtLocalRead
| AtLocalRole (id : string)
(* POST /api/get-or-create-subscription, routes.ts 537 and 548 *)
| AtStripeInfo (userId customer : string) (subscription : option string)
(* POST /api/stripe/webhook, routes.ts 616 and 632 *)
| AtSubscriptionStatus (userId : string) (active : bool)
(* the request has been answered *)
| Answered (r : Response)
(* the request is over; its answer is not part of the model *)
| Settled.

(** The code of the gate behind its await, lines 22-57. *)
Definition afterGate (claims : Claims) (r : Result (option User)) : Request :=
  match r with
  | Ok None => Answered (json 404 (messageBody "User not found"))
  | Ok (Some user) =>
      if isAdminAnyCase user then AtHandler claims
      else if truthy (hasActiveSubscription user) then AtHandler claims
      else if isZero (freeDownloadsUsed user) then AtHandler claims
      else Answered (json 402
             (JObj [ ("message", JStr "Subscription required");
                     ("code", JStr "SUBSCRIPTION_REQUIRED");
                     ("freeDownloadsUsed", jOptNum (freeDownloadsUsed user)) ]))
  | Throw error =>
      if includes "DATABASE_URL is not set" (errorText error) then AtHandler claims
      else Answered (json 500 (messageBody "Failed to check subscription status"))
  end.

(** The handler behind its first await, lines 480-498. *)
Definition afterHandler (claims : Claims) (r : Result (option User)) : Request :=
  match r with
  | Ok None => Answered (json 404 (messageBody "User not found"))
  | Ok (Some user) =>
      if negb (truthy (hasActiveSubscription user)) && isZero (freeDownloadsUsed user)
      then AtIncrement claims user
      else Answered (json 200
             (JObj [ ("success", JBool true);
                     ("message", JStr "PDF generated successfully");
                     ("freeDownloadsUsed", jOptNum (freeDownloadsUsed user)) ]))
  | Throw _ => Answered trackFailed
  end.

(** The handler behind its second await, lines 487-491. *)
Definition afterIncrement {A : Type} (r : Result A) : Response :=
  match r with
  | Ok _ =>
      json 200
        (JObj [ ("success", JBool true);
                ("message", JStr "Free trial used. Subscribe to continue generating PDFs.");
                ("freeDownloadsUsed", JNum 1) ])
  | Throw _ => trackFailed
  end.

(** The admin route behind its first await, lines 422-431. *)
Definition afterAdminRead (id : string) (data : UserPatch) (r : Result (option User))
  : Request :=
  match r with
  | Ok adminUser =>
      if roleIsNotAdmin adminUser
      then Answered (json 403 (messageBody "Admin access required"))
      else AtAdminUpdate id data
  | Throw _ => Answered (json 500 (messageBody "Failed to update user"))
  end.

(** The admin route behind its second await, lines 433-436. *)
Definition afterAdminUpdate (r : Result (Storage * option User)) : Response :=
  match r with
  | Ok (_, user) => json 200 (match user with Some u => userJson u | None => JUndefined end)
  | Throw _ => json 500 (messageBody "Failed to update user")
  end.

(** local-login behind [getUser], lines 148-150: with a row whose role
    is not 'admin' the role is written, otherwise the session is set
    up. *)
Definition afterLocalRead (r : Result (option User)) : Request :=
  match r with
  | Ok (Some userRecord) =>
      if roleIsNotAdmin (Some userRecord) then AtLocalRole (userId userRecord) else Settled
  | Ok None => Settled
  | Throw _ => Settled
  end.

Definition roleAdmin : UserPatch := mkPatch None (Some (Some "admin")) None None None None.

(** One await of one request: the storage before, the request, the
    storage after, and where the request stands then.  A handler without
    [try] (the login callback, local-login) ends when its call throws. *)
Inductive step : Storage -> Request -> Storage -> Request -> Prop :=
| gate_reads st claims r :
    delivers (getUser st (sub claims)) r ->
    step st (AtGate claims) st (afterGate claims r)
| handler_reads st claims r :
    delivers (getUser st (sub claims)) r ->
    step st (AtHandler claims) st (afterHandler claims r)
| handler_increments st claims user r :
    delivers (incrementFreeDownloads st (sub claims)) r ->
    step st (AtIncrement claims user) (stateOf st r) (Answered (afterIncrement r))
| admin_reads st claims id data r :
    delivers (getUser st (sub claims)) r ->
    step st (AtAdminRead claims id data) st (afterAdminRead id data r)
| admin_updates st id data r :
    delivers (updateUser st id data) r ->
    step st (AtAdminUpdate id data) (stateOf st r) (Answered (afterAdminUpdate r))
| login_upserts st id mail r :
    delivers (upsertUser st id mail) r ->
    step st (AtUpsert id mail) (stateOf st r) Settled
| local_upserts st r :
    delivers (upsertUser st "local-admin" (Some "admin@local")) r ->
    step st AtLocalUpsert (stateOf st r)
      (match r with Ok _ => AtLocalRead | Throw _ => Settled end)
| local_reads st r :
    delivers (getUser st "local-admin") r ->
    step st AtLocalRead st (afterLocalRead r)
| local_writes_role st id r :
    delivers (updateUser st id roleAdmin) r ->
    step st (AtLocalRole id) (stateOf st r) Settled
| stripe_info_written st userId customer subscription r :
    delivers (updateUserStripeInfo st userId customer subscription) r ->
    step st (AtStripeInfo userId customer subscription) (stateOf st r) Settled
| subscription_status_written st userId active r :
    delivers (updateSubscriptionStatus st userId active) r ->
    step st (AtSubscriptionStatus userId active) (stateOf st r) Settled.

(** The points at which a request enters. *)
Definition entry (rq : Request) : bool :=
  match rq with
  | AtGate _ | AtAdminRead _ _ _ | AtUpsert _ _ | AtLocalUpsert
  | AtStripeInfo _ _ _ | AtSubscriptionStatus _ _ => true
  | AtHandler _ | AtIncrement _ _ | AtAdminUpdate _ _ | AtLocalRead | AtLocalRole _
  | Answered _ | Settled => false
  end.

(** The server: the storage and the requests in flight.  A request
    arrives, or one of the requests in flight runs its next await. *)
Inductive serverStep : Storage * list Request -> Storage * list Request -> Prop :=
| arrives st pool rq :
    entry rq = true ->
    serverStep (st, pool) (st, (pool ++ [rq])%list)
| advances st pool i rq st' rq' :
    pool !! i = Some rq ->
    step st rq st' rq' ->
    serverStep (st, pool) (st', <[i := rq']> pool).

(** What the server can reach from a storage with no request in flight. *)
Definition reachable (st0 st : Storage) (pool : list Request) : Prop :=
  rtc serverStep (st0, []) (st, pool).

(** An admin update that writes the counter column. *)
Definition writesCounter (rq : Request) : bool :=
  match rq with
  | AtAdminRead _ _ data | AtAdminUpdate _ data =>
      bool_decide (patchFreeDownloadsUsed data <> None)
  | _ => false
  end.

(** A step after which no request in flight is such an update. *)
Definition quietStep (c c' : Storage * list Request) : Prop :=
  serverStep c c' /\ Forall (fun rq => writesCounter rq = false) (snd c').

(** The test of line 485 held for the row that a request at line 486 has
    read. *)
Definition onTrial (rq : Request) : Prop :=
  match rq with
  | AtIncrement _ user =>
      truthy (hasActiveSubscription user) = false /\ freeDownloadsUsed user = Some 0%Z
  | _ => True
  end.

(** The answer of the handler behind the increment. *)
Definition trialUsed : Response :=
  json 200
    (JObj [ ("success", JBool true);
            ("message", JStr "Free trial used. Subscribe to continue generating PDFs.");
            ("freeDownloadsUsed", JNum 1) ]).

(** Where the operations of [Server.Operation] that write user rows
    enter; the two that only read have no request here. *)
Definition entryOf (op : Operation) : option Request :=
  match op with
  | Login id mail => Some (AtUpsert id mail)
  | TrackPdfDownload claims => Some (AtGate claims)
  | AdminUpdateUser claims id data => Some (AtAdminRead claims id data)
  | StripeCustomerCreated userId customer subscription =>
      Some (AtStripeInfo userId customer subscription)
  | StripeWebhook userId active => Some (AtSubscriptionStatus userId active)
  | CheckPdfAccess _ | GetQuote _ _ => None
  end.

End Interleaving.

(* ===================================================================== *)
(** ** The editor and the totals in the arithmetic of the engine *)
(* ===================================================================== *)

(** [ItemsList], [QuoteSummary] and the totals of [generateQuotePDF] once
    more, with every [number] a binary64 double and every operation the
    one of IEEE 754: products, sums and quotients round, a product can
    overflow to [Infinity], and [NaN] is a value like the others. *)
Module Ieee.
Local Open Scope float_scope.

(** [x || 0]: [NaN], [0] and [-0] are the falsy numbers. *)
Definition orZero (x : float) : float := if is_nan x || is_zero x then 0 else x.

(** [Math.max(a, b)]: [NaN] when either argument is [NaN], and [+0]
    above [-0]. *)
Definition max (a b : float) : float :=
  if is_nan a || is_nan b then nan
  else if a <? b then b
  else if b <? a then a
  else if get_sign a then b else a.

(** [interface QuoteItem] of ItemsList. *)
Module QuoteItem.
Record t : Type := make {
  description : string;
  unit_price : float;
  needed_quantity : float;
  owned_quantity : float;
  buy_quantity : float;
  total : float
}.
End QuoteItem.
Import QuoteItem.
Abbreviation QuoteItem := QuoteItem.t.

(** *** ItemsList, lines 116-148 *)

Definition addItem (items : list QuoteItem) : list QuoteItem :=
  items ++ [ {| description := ""; unit_price := 0; needed_quantity := 1;
                owned_quantity := 0; buy_quantity := 1; total := 0 |} ].

Definition removeItem (index : nat) (items : list QuoteItem) : list QuoteItem :=
  Editor.filterFrom (fun _ i => negb (Nat.eqb i index)) 0%nat items.

(** The pair [(field, value)] of [updateItem]. *)
Inductive Assignment : Type :=
| Description (value : string)
| UnitPrice (value : float)
| NeededQuantity (value : float)
| OwnedQuantity (value : float)
| BuyQuantity (value : float)
| Total (value : float).

(** [{ ...item, [field]: value }] *)
Definition assign (a : Assignment) (item : QuoteItem) : QuoteItem :=
  match a with
  | Description v =>
      make v (unit_price item) (needed_quantity item) (owned_quantity item)
        (buy_quantity item) (total item)
  | UnitPrice v =>
      make (description item) v (needed_quantity item) (owned_quantity item)
        (buy_quantity item) (total item)
  | NeededQuantity v =>
      make (description item) (unit_price item) v (owned_quantity item)
        (buy_quantity item) (total item)
  | OwnedQuantity v =>
      make (description item) (unit_price item) (needed_quantity item) v
        (buy_quantity item) (total item)
  | BuyQuantity v =>
      make (description item) (unit_price item) (needed_quantity item)
        (owned_quantity item) v (total item)
  | Total v =>
      make (description item) (unit_price item) (needed_quantity item)
        (owned_quantity item) (buy_quantity item) v
  end.

(** [field === 'needed_quantity' || field === 'owned_quantity' ||
    field === 'unit_price'] *)
Definition recalculates (a : Assignment) : bool :=
  match a with
  | NeededQuantity _ | OwnedQuantity _ | UnitPrice _ => true
  | Description _ | BuyQuantity _ | Total _ => false
  end.

(** The body of the [if] of [updateItem], lines 139-144. *)
Definition recalculate (item : QuoteItem) : QuoteItem :=
  let needed := orZero (needed_quantity item) in
  let owned := orZero (owned_quantity item) in
  let buyQty := max 0 (needed - owned) in
  make (description item) (unit_price item) (needed_quantity item)
    (owned_quantity item) buyQty (buyQty * orZero (unit_price item)).

(** [updateItem(index, field, value)]; [None] is the call with an index
    past the end, which the component does not make. *)
Definition updateItem (index : nat) (a : Assignment) (items : list QuoteItem)
  : option (list QuoteItem) :=
  match items !! index with
  | Some item =>
      let edited := assign a item in
      Some (<[index := if recalculates a then recalculate edited else edited]> items)
  | None => None
  end.

(** The events of the component, lines 158-283.  A number input hands
    its text to [parseFloat] or [parseInt]; [parsed] is what that call
    returned, [NaN] included, and the handler passes [parsed || 0] on. *)
Inductive Event : Type :=
| AddClicked
| RemoveClicked (index : nat)
| DescriptionChanged (index : nat) (value : string)
| PriceChanged (index : nat) (parsed : float)
| NeededChanged (index : nat) (parsed : float)
| OwnedChanged (index : nat) (parsed : float).

(** The list handed to [onChange]; [None] when the event names a row
    that is not on screen. *)
Definition handle (e : Event) (items : list QuoteItem) : option (list QuoteItem) :=
  match e with
  | AddClicked => Some (addItem items)
  | RemoveClicked index =>
      if Nat.ltb index (length items) then Some (removeItem index items) else None
  | DescriptionChanged index value => updateItem index (Description value) items
  | PriceChanged index parsed => updateItem index (UnitPrice (orZero parsed)) items
  | NeededChanged index parsed => updateItem index (NeededQuantity (orZero parsed)) items
  | OwnedChanged index parsed => updateItem index (OwnedQuantity (orZero parsed)) items
  end.

(** The editor starts a new quote with [items: []] and replaces the list
    by what [onChange] receives. *)
Fixpoint edit (events : list Event) (items : list QuoteItem) : option (list QuoteItem) :=
  match events with
  | [] => Some items
  | e :: rest =>
      match handle e items with
      | Some items' => edit rest items'
      | None => None
      end
  end.

(** The lists the editor can hold: those reached from the empty list. *)
Definition maintained (items : list QuoteItem) : Prop :=
  exists events, edit events [] = Some items.

(** What the editor keeps true of a row: each number entered is what
    [|| 0] makes of it, and the derived fields are computed from the
    numbers entered. *)
Definition kept (item : QuoteItem) : Prop :=
  orZero (unit_price item) = unit_price item /\
  orZero (needed_quantity item) = needed_quantity item /\
  orZero (owned_quantity item) = owned_quantity item /\
  buy_quantity item = max 0 (needed_quantity item - owned_quantity item) /\
  QuoteItem.total item = buy_quantity item * unit_price item.

(** A number of the data model of the specification: not negative, and
    finite ([0 <= x && x < Infinity]). *)
Definition inRange (x : float) : bool := (0 <=? x) && (x <? infinity).

(** *** QuoteSummary, lines 18-21, and generateQuotePDF, lines 969-971 *)

Record Totals : Type := mkTotals {
  subtotal : float;
  discountAmount : float;
  total : float
}.

(** [items.reduce((sum, item) => sum + (item.total || 0), 0)] *)
Definition sumTotals (items : list QuoteItem) : float :=
  fold_left (fun sum item => sum + orZero (QuoteItem.total item)) items 0.

Definition QuoteSummary (items : list QuoteItem) (discount : float) : Totals :=
  let subtotal := sumTotals items in
  let discountAmount := (subtotal * discount) / 100 in
  let total := subtotal - discountAmount in
  mkTotals subtotal discountAmount total.

(** [generateQuotePDF], "Calculate totals", on [quote.items] and
    [quote.discount]. *)
Definition calculateTotals (items : list QuoteItem) (discount : float) : Totals :=
  let subtotal := sumTotals items in
  let discountAmount := (subtotal * orZero discount) / 100 in
  let total := subtotal - discountAmount in
  mkTotals subtotal discountAmount total.

End Ieee.

(** The values of [spec_float], the specification of the operations on
    doubles, told apart by sign. *)
Module Binary64.
Local Open Scope Z_scope.

(** What [binary_round_aux] does with the rounded mantissa. *)
Definition finish (prec emax : Z) (sx : bool) (m : Z) (e : Z) : spec_float :=
  let '(mrs, e') := shr_fexp prec emax m e loc_Exact in
  match shr_m mrs with
  | Z0 => S754_zero sx
  | Zpos p => if e' <=? emax - prec then S754_finite sx p e' else S754_infinity sx
  | Zneg _ => S754_nan
  end.

(** Zero of either sign, a positive number or [+Infinity]. *)
Definition nonneg (x : spec_float) : Prop :=
  match x with
  | S754_zero _ => True
  | S754_finite s _ _ | S754_infinity s => s = false
  | S754_nan => False
  end.

(** Zero of either sign or a positive number. *)
Definition finite_nonneg (x : spec_float) : Prop :=
  match x with
  | S754_zero _ => True
  | S754_finite s _ _ => s = false
  | S754_infinity _ | S754_nan => False
  end.

(** Such a number, or [NaN]. *)
Definition nonneg_or_nan (x : spec_float) : Prop :=
  match x with
  | S754_nan => True
  | _ => nonneg x
  end.

(** A number with the sign bit clear: [+0], a positive number or
    [+Infinity]. *)
Definition unsigned (x : spec_float) : Prop :=
  match x with
  | S754_zero s | S754_finite s _ _ | S754_infinity s => s = false
  | S754_nan => False
  end.

End Binary64.

Module IeeeExamples.
Import Ieee Ieee.QuoteItem.
Local Open Scope float_scope.
#[local] Set Warnings "-inexact-float".

(** One row added, priced at 0.1, with 3 needed. *)
Definition tenths : list Event :=
  [ AddClicked; PriceChanged 0 0.1; NeededChanged 0 3 ].

Definition tenthsItems : list QuoteItem := [ make "" 0.1 3 0 3 0.30000000000000004 ].

(** One row added, priced at 1e308, with 10 needed. *)
Definition huge : list Event :=
  [ AddClicked; PriceChanged 0 1e308; NeededChanged 0 10 ].

Definition hugeItems : list QuoteItem := [ make "" 1e308 10 0 10 infinity ].

End IeeeExamples.

(* ===================================================================== *)
(** ** Facts about the server *)
(* ===================================================================== *)

Module ServerFacts.
Import Js Server.

(** *** Strings *)

Lemma startsWith_app (p s : string) : startsWith p (p +:+ s) = true.
Proof.
  induction p as [|c p IH]; simpl; [done|].
  by rewrite Ascii.eqb_refl, IH.
Qed.

Lemma startsWith_split (p s : string) :
  startsWith p s = true -> exists rest, s = p +:+ rest.
Proof.
  revert s. induction p as [|c p IH]; intros s H.
  - by exists s.
  - destruct s as [|d s]; simpl in H; [done|].
    apply andb_true_iff in H as [Hc Hp].
    apply Ascii.eqb_eq in Hc. subst d.
    destruct (IH _ Hp) as [rest ->]. by exists rest.
Qed.

Lemma includes_here (needle hay : string) :
  startsWith needle hay = true -> includes needle hay = true.
Proof. intros H. destruct hay; simpl; by rewrite H. Qed.

(** [includes] is the substring test. *)
Lemma includes_spec (needle hay : string) :
  includes needle hay = true <->
  exists before after, hay = before +:+ needle +:+ after.
Proof.
  split.
  - induction hay as [|c hay IH]; simpl; intros H.
    + rewrite orb_false_r in H. apply startsWith_split in H as [rest ->].
      by exists "", rest.
    + apply orb_true_iff in H as [H|H].
      * apply startsWith_split in H as [rest ->]. by exists "", rest.
      * destruct (IH H) as (b & a & ->). by exists (String c b), a.
  - intros (before & after & ->).
    induction before as [|c b IH].
    + change ("" +:+ needle +:+ after) with (needle +:+ after).
      apply includes_here, startsWith_app.
    + simpl. by rewrite IH, orb_true_r.
Qed.

Lemma isAdminAnyCase_spec (u : User) :
  isAdminAnyCase u = true <-> toLowerCase (orEmpty (role u)) = "admin".
Proof. unfold isAdminAnyCase. apply String.eqb_eq. Qed.

Lemma roleIsNotAdmin_spec (u : User) :
  roleIsNotAdmin (Some u) = false <-> role u = Some "admin".
Proof.
  unfold roleIsNotAdmin. destruct (role u) as [r|]; [|done].
  rewrite negb_false_iff, String.eqb_eq. split; congruence.
Qed.

Lemma exact_admin_is_admin (u : User) :
  role u = Some "admin" -> isAdminAnyCase u = true.
Proof. intros H. unfold isAdminAnyCase. by rewrite H. Qed.

End ServerFacts.

(* ===================================================================== *)
(** ** The entitlement gate and the download counter *)
(* ===================================================================== *)

Module GateFacts.
Import Js Server Examples.

Section OneUser.
Variable db : Db.
Variable claims : Claims.
Variable user : User.
Hypothesis stored : users db !! sub claims = Some user.

Lemma getUser_stored : getUser (Connected db) (sub claims) = Ok (Some user).
Proof using stored. unfold getUser; simpl. by rewrite stored. Qed.

(** An admin passes the gate whatever the counter and the subscription
    flag are. *)
Lemma gate_admin :
  isAdminAnyCase user = true ->
  requireSubscriptionOrFreeTrial (Connected db) claims = Next.
Proof using stored.
  intros Hadmin. unfold requireSubscriptionOrFreeTrial.
  by rewrite getUser_stored, Hadmin.
Qed.

Lemma check_admin :
  isAdminAnyCase user = true ->
  checkPdfAccess (Connected db) claims = json 200 unconditionalAccess.
Proof using stored.
  intros Hadmin. unfold checkPdfAccess.
  by rewrite getUser_stored, Hadmin.
Qed.

(** What the handler does once the gate has let the request through. *)
Lemma handler_counts :
  truthy (hasActiveSubscription user) = false ->
  freeDownloadsUsed user = Some 0%Z ->
  trackPdfDownloadHandler (Connected db) claims =
    (Connected (setUsers db (<[sub claims := plusOne user]> (users db))),
     json 200
       (JObj [ ("success", JBool true);
               ("message", JStr "Free trial used. Subscribe to continue generating PDFs.");
               ("freeDownloadsUsed", JNum 1) ])).
Proof using stored.
  intros Hsub Hzero. unfold trackPdfDownloadHandler.
  rewrite getUser_stored, Hsub, Hzero. simpl.
  unfold incrementFreeDownloads, updateRow; simpl.
  rewrite stored, Hzero.
  by rewrite bool_decide_eq_false_2.
Qed.

Lemma handler_leaves :
  truthy (hasActiveSubscription user) = true \/ isZero (freeDownloadsUsed user) = false ->
  trackPdfDownloadHandler (Connected db) claims =
    (Connected db,
     json 200
       (JObj [ ("success", JBool true);
               ("message", JStr "PDF generated successfully");
               ("freeDownloadsUsed", jOptNum (freeDownloadsUsed user)) ])).
Proof using stored.
  intros H. unfold trackPdfDownloadHandler. rewrite getUser_stored.
  destruct H as [-> | ->]; [done|]. by rewrite andb_false_r.
Qed.

(** The admin is always answered with 200; the row is left alone when
    the admin has a subscription or a counter other than 0. *)
Lemma admin_track_permitted :
  isAdminAnyCase user = true ->
  status (snd (trackPdfDownload (Connected db) claims)) = 200%Z.
Proof using stored.
  intros Hadmin. unfold trackPdfDownload. rewrite (gate_admin Hadmin).
  destruct (truthy (hasActiveSubscription user)) eqn:Hs.
  - rewrite handler_leaves; auto.
  - destruct (freeDownloadsUsed user) as [[| |]|] eqn:Hc;
      first [ by rewrite (handler_counts Hs Hc)
            | rewrite handler_leaves; [done | rewrite Hc; by right] ].
Qed.

Lemma admin_track_frame :
  isAdminAnyCase user = true ->
  truthy (hasActiveSubscription user) = true \/ isZero (freeDownloadsUsed user) = false ->
  fst (trackPdfDownload (Connected db) claims) = Connected db.
Proof using stored.
  intros Hadmin H. unfold trackPdfDownload.
  by rewrite (gate_admin Hadmin), (handler_leaves H).
Qed.

(** An admin on the free trial has the download counted all the same. *)
Lemma admin_track_counts :
  isAdminAnyCase user = true ->
  truthy (hasActiveSubscription user) = false ->
  freeDownloadsUsed user = Some 0%Z ->
  counterOf (fst (trackPdfDownload (Connected db) claims)) (sub claims) = Some (Some 1%Z).
Proof using stored.
  intros Hadmin Hs Hc. unfold trackPdfDownload.
  rewrite (gate_admin Hadmin), (handler_counts Hs Hc).
  unfold counterOf; simpl. rewrite lookup_insert_eq. simpl. by rewrite Hc.
Qed.

End OneUser.

Arguments getUser_stored {db claims user} stored.
Arguments gate_admin {db claims user} stored _.
Arguments check_admin {db claims user} stored _.
Arguments handler_counts {db claims user} stored _ _.
Arguments handler_leaves {db claims user} stored _.
Arguments admin_track_permitted {db claims user} stored _.
Arguments admin_track_frame {db claims user} stored _ _.
Arguments admin_track_counts {db claims user} stored _ _ _.

(** C1, at the input on which the code departs from it: the admin
    [root] has no subscription and has not downloaded yet.  The request
    is let through by the gate and answered with 200, and the handler
    moves the admin's [freeDownloadsUsed] from 0 to 1. *)
Theorem admin_on_trial_is_counted :
  requireSubscriptionOrFreeTrial (Connected db0) rootClaims = Next /\
  counterOf (Connected db0) "admin-1" = Some (Some 0%Z) /\
  counterOf (fst (trackPdfDownload (Connected db0) rootClaims)) "admin-1"
    = Some (Some 1%Z) /\
  snd (trackPdfDownload (Connected db0) rootClaims) =
    json 200
      (JObj [ ("success", JBool true);
              ("message", JStr "Free trial used. Subscribe to continue generating PDFs.");
              ("freeDownloadsUsed", JNum 1) ]).
Proof.
  assert (Hrow : users db0 !! sub rootClaims = Some root) by reflexivity.
  split; [|split; [|split]].
  - by apply (gate_admin Hrow).
  - reflexivity.
  - by apply (admin_track_counts Hrow).
  - unfold trackPdfDownload.
    rewrite (gate_admin Hrow) by reflexivity.
    by rewrite (handler_counts Hrow).
Qed.

(** C2: a non-admin user with [freeDownloadsUsed = 0] and no
    subscription is served once, which sets the counter to 1; the next
    request is refused with 402, code SUBSCRIPTION_REQUIRED and the count
    1, and the refusal leaves the storage as it was. *)
Theorem fresh_user_served_once (db : Db) (claims : Claims) (user : User) :
  users db !! sub claims = Some user ->
  isAdminAnyCase user = false ->
  freeDownloadsUsed user = Some 0%Z ->
  hasActiveSubscription user = Some false ->
  let first := trackPdfDownload (Connected db) claims in
  let second := trackPdfDownload (fst first) claims in
  snd first =
    json 200
      (JObj [ ("success", JBool true);
              ("message", JStr "Free trial used. Subscribe to continue generating PDFs.");
              ("freeDownloadsUsed", JNum 1) ]) /\
  counterOf (fst first) (sub claims) = Some (Some 1%Z) /\
  snd second =
    json 402
      (JObj [ ("message", JStr "Subscription required");
              ("code", JStr "SUBSCRIPTION_REQUIRED");
              ("freeDownloadsUsed", JNum 1) ]) /\
  fst second = fst first.
Proof.
  intros Hrow Hadmin Hzero Hsub first second.
  assert (Hgate : requireSubscriptionOrFreeTrial (Connected db) claims = Next).
  { unfold requireSubscriptionOrFreeTrial.
    by rewrite (getUser_stored Hrow), Hadmin, Hsub, Hzero. }
  assert (Hfirst : first =
    (Connected (setUsers db (<[sub claims := plusOne user]> (users db))),
     json 200
       (JObj [ ("success", JBool true);
               ("message", JStr "Free trial used. Subscribe to continue generating PDFs.");
               ("freeDownloadsUsed", JNum 1) ]))).
  { unfold first, trackPdfDownload. rewrite Hgate.
    apply (handler_counts Hrow); [by rewrite Hsub | done]. }
  assert (Hsecond : second =
    (fst first,
     json 402
       (JObj [ ("message", JStr "Subscription required");
               ("code", JStr "SUBSCRIPTION_REQUIRED");
               ("freeDownloadsUsed", JNum 1) ]))).
  { unfold second. rewrite Hfirst. simpl.
    unfold trackPdfDownload, requireSubscriptionOrFreeTrial, getUser. simpl.
    rewrite lookup_insert_eq.
    replace (isAdminAnyCase (plusOne user)) with false by done.
    simpl. by rewrite Hsub, Hzero. }
  rewrite Hsecond, Hfirst. simpl. split; [done|]. split; [|done].
  unfold counterOf; simpl. rewrite lookup_insert_eq. simpl. by rewrite Hzero.
Qed.

Lemma fresh_user_served_once_witness :
  let first := trackPdfDownload (Connected db0) freshClaims in
  let second := trackPdfDownload (fst first) freshClaims in
  snd first =
    json 200
      (JObj [ ("success", JBool true);
              ("message", JStr "Free trial used. Subscribe to continue generating PDFs.");
              ("freeDownloadsUsed", JNum 1) ]) /\
  counterOf (fst first) (sub freshClaims) = Some (Some 1%Z) /\
  snd second =
    json 402
      (JObj [ ("message", JStr "Subscription required");
              ("code", JStr "SUBSCRIPTION_REQUIRED");
              ("freeDownloadsUsed", JNum 1) ]) /\
  fst second = fst first.
Proof.
  apply (fresh_user_served_once db0 freshClaims fresh); reflexivity.
Defined.

End GateFacts.

(* ===================================================================== *)
(** ** The counter along the operations of the server *)
(* ===================================================================== *)

Module CounterFacts.
Import Js Server Examples GateFacts.

(** An [UPDATE] that does not write the counter column leaves every
    counter as it was. *)
Lemma counterOf_updateRow (f : User -> User) (target id : string) (db : Db) :
  (forall u, freeDownloadsUsed (f u) = freeDownloadsUsed u) ->
  counterOf (fst (updateRow f target db)) id = counterOf (Connected db) id.
Proof.
  intros Hf. unfold updateRow, counterOf.
  destruct (users db !! target) as [u|] eqn:Hu; simpl; [|done].
  destruct (decide (target = id)) as [->|Hne].
  - rewrite lookup_insert_eq, Hu. simpl. by rewrite Hf.
  - by rewrite lookup_insert_ne.
Qed.

(** [incrementFreeDownloads], when the statement succeeds, adds exactly
    one to the counter of its row. *)
Lemma incrementFreeDownloads_adds_one (db : Db) (id : string) (u : User) (n : Z) st' r :
  users db !! id = Some u ->
  freeDownloadsUsed u = Some n ->
  incrementFreeDownloads (Connected db) id = Ok (st', r) ->
  counterOf st' id = Some (Some (n + 1)%Z).
Proof.
  intros Hu Hn. unfold incrementFreeDownloads; simpl. rewrite Hu.
  case_bool_decide; [done|]. unfold updateRow. rewrite Hu.
  intros [= <- _]. unfold counterOf; simpl.
  rewrite lookup_insert_eq. simpl. by rewrite Hn.
Qed.

(** The admin route writes the counter it is given. *)
Lemma adminUpdateUser_writes_counter (db : Db) (claims : Claims) (admin target : User)
    (id : string) (data : UserPatch) (v : option Z) :
  users db !! sub claims = Some admin ->
  role admin = Some "admin" ->
  users db !! id = Some target ->
  patchFreeDownloadsUsed data = Some v ->
  counterOf (fst (adminUpdateUser (Connected db) claims id data)) id = Some v.
Proof.
  intros Hadmin Hrole Htarget Hv. unfold adminUpdateUser.
  rewrite (getUser_stored Hadmin).
  replace (roleIsNotAdmin (Some admin)) with false
    by (symmetry; by apply ServerFacts.roleIsNotAdmin_spec).
  unfold updateUser, updateRow; simpl. rewrite Htarget. simpl.
  unfold counterOf; simpl. rewrite lookup_insert_eq. simpl. by rewrite Hv.
Qed.

End CounterFacts.

(* ===================================================================== *)
(** ** The two admin tests, and the database stub *)
(* ===================================================================== *)

Module RoleFacts.
Import Js Server Examples Routes GateFacts.

(** The test of the PDF routes does not see the case of the role. *)
Lemma isAdminAnyCase_ignores_case (u v : User) :
  toLowerCase (orEmpty (role u)) = toLowerCase (orEmpty (role v)) ->
  isAdminAnyCase u = isAdminAnyCase v.
Proof. unfold isAdminAnyCase. by intros ->. Qed.

Lemma capital_Admin_tests (u : User) :
  role u = Some "Admin" ->
  isAdminAnyCase u = true /\ roleIsNotAdmin (Some u) = true.
Proof. intros H. unfold isAdminAnyCase, roleIsNotAdmin. by rewrite H. Qed.

Lemma getQuote_denied (db : Db) (claims : Claims) (id : string) (quote : QuoteDraft) :
  quoteDrafts db !! id = Some quote ->
  roleIsNotAdmin (users db !! sub claims) = true ->
  createdBy quote <> claimsEmail claims ->
  getQuote (Connected db) claims id = json 403 (messageBody "Access denied").
Proof.
  intros Hquote Hrole Hother. unfold getQuote, getQuoteDraft, getUser; simpl.
  rewrite Hquote, Hrole.
  destruct (String.eqb_spec (createdBy quote) (claimsEmail claims)); [done|].
  reflexivity.
Qed.

Lemma adminUpdateUser_denied (db : Db) (claims : Claims) (id : string) (data : UserPatch) :
  roleIsNotAdmin (users db !! sub claims) = true ->
  adminUpdateUser (Connected db) claims id data =
    (Connected db, json 403 (messageBody "Admin access required")).
Proof. intros H. unfold adminUpdateUser, getUser; simpl. by rewrite H. Qed.

Lemma getQuote_granted (db : Db) (claims : Claims) (id : string) (quote : QuoteDraft) :
  quoteDrafts db !! id = Some quote ->
  roleIsNotAdmin (users db !! sub claims) = false ->
  getQuote (Connected db) claims id =
    json 200
      (JObj ([ ("id", JStr (quoteId quote));
               ("code", JStr (code quote));
               ("createdBy", JStr (createdBy quote)) ]
             ++ otherColumns quote
             ++ [("items", JArr (default [] (quoteItems db !! id)))])).
Proof.
  intros Hquote Hrole. unfold getQuote, getQuoteDraft, getUser, getQuoteItems; simpl.
  by rewrite Hquote, Hrole.
Qed.

Lemma adminUpdateUser_not_denied (db : Db) (claims : Claims) (id : string)
    (data : UserPatch) :
  roleIsNotAdmin (users db !! sub claims) = false ->
  status (snd (adminUpdateUser (Connected db) claims id data)) = 200%Z.
Proof.
  intros H. unfold adminUpdateUser, getUser, updateUser; simpl. rewrite H.
  unfold updateRow. by destruct (users db !! id).
Qed.

Lemma strict_test (u : User) :
  role u <> Some "admin" -> roleIsNotAdmin (Some u) = true.
Proof.
  intros H. destruct (roleIsNotAdmin (Some u)) eqn:E; [done|].
  by apply ServerFacts.roleIsNotAdmin_spec in E.
Qed.

(** For a caller whose free download is spent and who has no
    subscription, the two PDF routes let the request through exactly
    when the role is 'admin' in some casing. *)
Lemma pdf_routes_test_lowercased (db : Db) (claims : Claims) (user : User) :
  users db !! sub claims = Some user ->
  truthy (hasActiveSubscription user) = false ->
  isZero (freeDownloadsUsed user) = false ->
  (requireSubscriptionOrFreeTrial (Connected db) claims = Next
   <-> toLowerCase (orEmpty (role user)) = "admin") /\
  (checkPdfAccess (Connected db) claims = json 200 unconditionalAccess
   <-> toLowerCase (orEmpty (role user)) = "admin").
Proof.
  intros Hrow Hs Hz.
  unfold requireSubscriptionOrFreeTrial, checkPdfAccess.
  rewrite (getUser_stored Hrow), Hs, Hz.
  destruct (isAdminAnyCase user) eqn:Hadmin.
  - apply ServerFacts.isAdminAnyCase_spec in Hadmin. by split.
  - assert (Hne : toLowerCase (orEmpty (role user)) <> "admin").
    { intros H. apply ServerFacts.isAdminAnyCase_spec in H. congruence. }
    split; (split; [discriminate|done]).
Qed.

Lemma role_tests (db : Db) (claims : Claims) (user : User) (id : string)
    (quote : QuoteDraft) (target : string) (data : UserPatch) :
  users db !! sub claims = Some user ->
  quoteDrafts db !! id = Some quote ->
  createdBy quote <> claimsEmail claims ->
  let st := Connected db in
  (toLowerCase (orEmpty (role user)) = "admin" ->
   checkPdfAccess st claims = json 200 unconditionalAccess /\
   requireSubscriptionOrFreeTrial st claims = Next /\
   status (snd (trackPdfDownload st claims)) = 200%Z) /\
  (truthy (hasActiveSubscription user) = false ->
   isZero (freeDownloadsUsed user) = false ->
   (requireSubscriptionOrFreeTrial st claims = Next
    <-> toLowerCase (orEmpty (role user)) = "admin") /\
   (checkPdfAccess st claims = json 200 unconditionalAccess
    <-> toLowerCase (orEmpty (role user)) = "admin")) /\
  (role user = Some "admin" ->
   getQuote st claims id =
     json 200
       (JObj ([ ("id", JStr (quoteId quote));
                ("code", JStr (code quote));
                ("createdBy", JStr (createdBy quote)) ]
              ++ otherColumns quote
              ++ [("items", JArr (default [] (quoteItems db !! id)))])) /\
   adminListUsers st claims = UserRows (users db) /\
   status (snd (adminUpdateUser st claims target data)) = 200%Z) /\
  (role user <> Some "admin" ->
   getQuote st claims id = json 403 (messageBody "Access denied") /\
   adminListUsers st claims = UserAnswer (json 403 (messageBody "Admin access required")) /\
   adminUpdateUser st claims target data =
     (st, json 403 (messageBody "Admin access required"))) /\
  (role user = Some "Admin" ->
   checkPdfAccess st claims = json 200 unconditionalAccess /\
   requireSubscriptionOrFreeTrial st claims = Next /\
   status (snd (trackPdfDownload st claims)) = 200%Z /\
   getQuote st claims id = json 403 (messageBody "Access denied") /\
   adminListUsers st claims = UserAnswer (json 403 (messageBody "Admin access required")) /\
   adminUpdateUser st claims target data =
     (st, json 403 (messageBody "Admin access required"))).
Proof.
  intros Hrow Hquote Hother st.
  assert (Hpdf : toLowerCase (orEmpty (role user)) = "admin" ->
            checkPdfAccess st claims = json 200 unconditionalAccess /\
            requireSubscriptionOrFreeTrial st claims = Next /\
            status (snd (trackPdfDownload st claims)) = 200%Z).
  { intros H. apply ServerFacts.isAdminAnyCase_spec in H.
    split; [by apply (check_admin Hrow)|].
    split; [by apply (gate_admin Hrow)|by apply (admin_track_permitted Hrow)]. }
  assert (Hstrict : role user <> Some "admin" ->
            getQuote st claims id = json 403 (messageBody "Access denied") /\
            adminListUsers st claims
              = UserAnswer (json 403 (messageBody "Admin access required")) /\
            adminUpdateUser st claims target data =
              (st, json 403 (messageBody "Admin access required"))).
  { intros H. apply strict_test in H.
    split; [apply (getQuote_denied db claims id quote); [done|by rewrite Hrow|done]|].
    split; [|apply adminUpdateUser_denied; by rewrite Hrow].
    unfold st, adminListUsers. by rewrite (getUser_stored Hrow), H. }
  split; [done|].
  split; [by apply pdf_routes_test_lowercased|].
  split.
  { intros H.
    assert (Hexact : roleIsNotAdmin (users db !! sub claims) = false)
      by (rewrite Hrow; by apply ServerFacts.roleIsNotAdmin_spec).
    split; [by apply getQuote_granted|].
    split; [|by apply adminUpdateUser_not_denied].
    unfold st, adminListUsers. rewrite (getUser_stored Hrow).
    rewrite Hrow in Hexact. by rewrite Hexact. }
  split; [done|].
  intros H.
  destruct Hpdf as (A & B & C); [by rewrite H|].
  destruct Hstrict as (D & E & F); [by rewrite H|].
  by repeat split.
Qed.



(** The lookup throws exactly when the storage fails. *)
Lemma getUser_throws (st : Storage) (id : string) (e : JsError) :
  getUser st id = Throw e <-> st = Failing e.
Proof.
  destruct st as [db|e']; simpl; split; intros H; try done; congruence.
Qed.

(** C10: when the lookup of the user throws an error whose message
    contains 'DATABASE_URL is not set', the gate calls [next()] and
    check-pdf-access answers with [canGenerate: true], whoever asks. *)
Theorem database_stub_fails_open (st : Storage) (e : JsError) (claims : Claims) :
  getUser st (sub claims) = Throw e ->
  includes "DATABASE_URL is not set" (errorText e) = true ->
  requireSubscriptionOrFreeTrial st claims = Next /\
  checkPdfAccess st claims = json 200 unconditionalAccess /\
  In ("canGenerate", JBool true)
     (match body (checkPdfAccess st claims) with JObj fields => fields | _ => [] end).
Proof.
  intros Hthrow Hmsg.
  unfold requireSubscriptionOrFreeTrial, checkPdfAccess.
  rewrite Hthrow, Hmsg. split; [done|]. split; [done|]. simpl. by left.
Qed.

Lemma database_stub_fails_open_witness :
  requireSubscriptionOrFreeTrial createStubDb freshClaims = Next /\
  checkPdfAccess createStubDb freshClaims = json 200 unconditionalAccess /\
  In ("canGenerate", JBool true)
     (match body (checkPdfAccess createStubDb freshClaims) with
      | JObj fields => fields
      | _ => []
      end).
Proof.
  apply (database_stub_fails_open createStubDb stubError freshClaims); reflexivity.
Defined.

(** Behind the open gate the handler meets the same error and answers
    with 500: the download is not tracked. *)
Lemma track_on_stub (e : JsError) (claims : Claims) :
  includes "DATABASE_URL is not set" (errorText e) = true ->
  trackPdfDownload (Failing e) claims = (Failing e, trackFailed).
Proof.
  intros H. unfold trackPdfDownload, requireSubscriptionOrFreeTrial. simpl.
  by rewrite H.
Qed.

End RoleFacts.

(* ===================================================================== *)
(** ** The item editor and the totals *)
(* ===================================================================== *)

Module EditorFacts.
Import Editor Editor.QuoteItem PdfGenerator EditorExamples.
Local Open Scope Q_scope.

Lemma orZero_eq (x : Q) : orZero x == x.
Proof.
  unfold orZero. destruct (Qeq_bool x 0) eqn:E; [|reflexivity].
  apply Qeq_bool_iff in E. by rewrite E.
Qed.

(** *** The reduce of QuoteSummary *)

Lemma sum_from (items : list QuoteItem) :
  forall a b, a == b ->
    fold_left (fun sum item => sum + orZero (QuoteItem.total item)) items a
    == b + fold_left (fun sum item => sum + orZero (QuoteItem.total item)) items 0.
Proof.
  induction items as [|item items IH]; intros a b Hab; simpl.
  - rewrite Hab. ring.
  - rewrite (IH (a + orZero (QuoteItem.total item)) (b + orZero (QuoteItem.total item)))
      by (by rewrite Hab).
    rewrite (IH (0 + orZero (QuoteItem.total item)) (orZero (QuoteItem.total item)))
      by ring.
    ring.
Qed.

Lemma sumTotals_cons (item : QuoteItem) (items : list QuoteItem) :
  sumTotals (item :: items) == QuoteItem.total item + sumTotals items.
Proof.
  unfold sumTotals; simpl.
  rewrite (sum_from items _ (QuoteItem.total item)); [reflexivity|].
  rewrite orZero_eq. ring.
Qed.

(** *** The claim on the discount *)

(** C6 as stated fails: on a subtotal of 300 a discount of 150 gives the
    discount amount 450, where the clamped percentage would give 300. *)
Lemma discount_is_not_clamped :
  ~ (forall (items : list QuoteItem) (d : Q),
       discountAmount (QuoteSummary items d)
         == subtotal (QuoteSummary items d) * clamp d 0 100 / 100).
Proof.
  intros H. specialize (H sessionItems 150).
  apply Qeq_bool_iff in H. vm_compute in H. discriminate.
Qed.

Lemma clamp_inside (d : Q) : 0 <= d <= 100 -> clamp d 0 100 == d.
Proof.
  intros [Hlo Hhi]. unfold clamp.
  rewrite (Q.min_l d 100) by done. by apply Q.max_r.
Qed.

(** C6, amended: the discount amount is [subtotal * discount / 100] for
    every discount, in the summary of the editor and in the PDF
    generator, with no clamping; for a discount in [0,100] this is
    [subtotal * clamp(discount, 0, 100) / 100]. *)
Theorem discount_amount_formula (quote : Quote) :
  let shown := QuoteSummary (items quote) (discount quote) in
  let printed := calculateTotals quote in
  discountAmount shown == subtotal shown * discount quote / 100 /\
  discountAmount printed == subtotal printed * discount quote / 100 /\
  (0 <= discount quote <= 100 ->
   discountAmount shown == subtotal shown * clamp (discount quote) 0 100 / 100 /\
   discountAmount printed == subtotal printed * clamp (discount quote) 0 100 / 100).
Proof.
  intros shown printed.
  assert (Hshown : discountAmount shown == subtotal shown * discount quote / 100)
    by reflexivity.
  assert (Hprinted : discountAmount printed == subtotal printed * discount quote / 100).
  { unfold printed; simpl. by rewrite orZero_eq. }
  split; [done|]. split; [done|].
  intros Hd. rewrite (clamp_inside _ Hd). by split.
Qed.

Lemma discount_amount_formula_witness :
  let shown := QuoteSummary (items sessionQuote) (discount sessionQuote) in
  let printed := calculateTotals sessionQuote in
  discountAmount shown == subtotal shown * clamp (discount sessionQuote) 0 100 / 100 /\
  discountAmount printed == subtotal printed * clamp (discount sessionQuote) 0 100 / 100.
Proof.
  apply (discount_amount_formula sessionQuote). split; discriminate.
Defined.

End EditorFacts.

(* ===================================================================== *)
(** ** The palette and the rendered document *)
(* ===================================================================== *)

Module RendererFacts.
Import Editor Editor.QuoteItem PdfGenerator EditorExamples.
Local Open Scope Q_scope.

(** The four variants with a palette of their own. *)
Lemma getTemplateColors_known :
  main (getTemplateColors "variant_b") = "#7c3aed" /\
  main (getTemplateColors "variant_c") = "#c59d5f" /\
  main (getTemplateColors "variant_d") = "#047857" /\
  main (getTemplateColors "variant_e") = "#f97316" /\
  getTemplateColors "variant_a" = classic.
Proof. repeat split. Qed.

(** Only the dark variant carries the two text colours. *)
Lemma text_colours_only_dark (variant : string) :
  is_Some (text (getTemplateColors variant)) <-> variant = "variant_c".
Proof.
  unfold getTemplateColors.
  destruct (String.eqb_spec variant "variant_b") as [->|?].
  { split; [by intros [? ?]|done]. }
  destruct (String.eqb_spec variant "variant_c") as [->|?].
  { split; [done|by eexists]. }
  destruct (String.eqb_spec variant "variant_d") as [->|?].
  { split; [by intros [? ?]|done]. }
  destruct (String.eqb_spec variant "variant_e") as [->|?].
  { split; [by intros [? ?]|done]. }
  split; [by intros [? ?]|done].
Qed.

(** C7: a variant that is none of variant_b, variant_c, variant_d and
    variant_e gets the classic palette of variant_a.  The function is
    total: there is no input on which it fails. *)
Theorem unknown_variant_is_classic (variant : string) :
  variant <> "variant_b" ->
  variant <> "variant_c" ->
  variant <> "variant_d" ->
  variant <> "variant_e" ->
  getTemplateColors variant = classic.
Proof.
  intros Hb Hc Hd He. unfold getTemplateColors.
  apply String.eqb_neq in Hb, Hc, Hd, He.
  by rewrite Hb, Hc, Hd, He.
Qed.

Lemma unknown_variant_is_classic_witness :
  getTemplateColors (template_variant sessionQuote) = classic.
Proof.
  apply (unknown_variant_is_classic "variant_z"); discriminate.
Defined.

(** The document has one table body, and its rows are the rows of the
    items, one for one. *)
Lemma document_rows (quote : Quote) (company : option Company) (totals : Totals)
    (today : string) :
  childrenOf "tbody" (generateHTMLTemplate quote company totals today)
    = [itemRows quote].
Proof.
  assert (Hrows : forall l : list QuoteItem,
            (fix inAll (l : list Html) : list (list Html) :=
               match l with
               | [] => []
               | c :: rest => (childrenOf "tbody" c ++ inAll rest)%list
               end) (map itemRow l) = []).
  { induction l as [|item l IH]; [done|].
    simpl map. cbv beta iota. rewrite IH.
    unfold itemRow. simpl. by destruct (Qlt_le_dec _ _). }
  unfold generateHTMLTemplate, headerSection, clientSection, titleSection,
    itemsSection, summarySection, notesSection, footerSection, itemRows.
  destruct (nonEmpty (company ≫= logo_url)), (nonEmpty (note quote)),
    (Qlt_le_dec 0 (discount quote));
    simpl; rewrite Hrows; reflexivity.
Qed.

Lemma empty_totals (quote : Quote) :
  items quote = [] ->
  subtotal (calculateTotals quote) == 0 /\
  discountAmount (calculateTotals quote) == 0 /\
  Editor.total (calculateTotals quote) == 0.
Proof.
  intros Hitems. unfold calculateTotals; simpl. rewrite Hitems.
  unfold sumTotals; simpl. repeat split; unfold Qdiv; ring.
Qed.

(** C8 as stated fails: the document rendered for a quote without items
    has a table body with no row in it, placeholder or other. *)
Lemma empty_quote_has_no_row :
  ~ (exists row,
       In row (concat (childrenOf "tbody"
                         (generateHTMLTemplate emptyQuote None
                            (calculateTotals emptyQuote) "01/01/2026")))).
Proof. rewrite document_rows. intros [row []]. Qed.

(** C8, amended: for a quote with no items and discount 0 the totals are
    subtotal 0 and total 0, and the items table of the rendered document
    has an empty body; the row that says there are no items belongs to
    the table of the editor. *)
Theorem empty_quote_renders_empty_body (quote : Quote) (company : option Company)
    (today : string) :
  items quote = [] ->
  discount quote == 0 ->
  subtotal (calculateTotals quote) == 0 /\
  Editor.total (calculateTotals quote) == 0 /\
  subtotal (QuoteSummary (items quote) (discount quote)) == 0 /\
  Editor.total (QuoteSummary (items quote) (discount quote)) == 0 /\
  childrenOf "tbody" (generateHTMLTemplate quote company (calculateTotals quote) today)
    = [[]] /\
  tableBody (items quote) = [PlaceholderRow 8 noItemsText].
Proof.
  intros Hitems Hdiscount.
  destruct (empty_totals quote Hitems) as (Hsub & _ & Htot).
  split; [done|]. split; [done|].
  rewrite document_rows. unfold itemRows. rewrite Hitems. simpl.
  repeat split; unfold sumTotals, Qdiv; simpl; ring.
Qed.

Lemma empty_quote_renders_empty_body_witness :
  subtotal (calculateTotals emptyQuote) == 0 /\
  Editor.total (calculateTotals emptyQuote) == 0 /\
  subtotal (QuoteSummary (items emptyQuote) (discount emptyQuote)) == 0 /\
  Editor.total (QuoteSummary (items emptyQuote) (discount emptyQuote)) == 0 /\
  childrenOf "tbody"
    (generateHTMLTemplate emptyQuote None (calculateTotals emptyQuote) "01/01/2026")
    = [[]] /\
  tableBody (items emptyQuote) = [PlaceholderRow 8 noItemsText].
Proof.
  apply (empty_quote_renders_empty_body emptyQuote None "01/01/2026"); reflexivity.
Defined.

(** With items, each table shows one row per item and no placeholder. *)
Lemma rows_per_item (quote : Quote) :
  items quote <> [] ->
  length (itemRows quote) = length (items quote) /\
  length (tableBody (items quote)) = length (items quote).
Proof.
  intros Hne. unfold itemRows, tableBody. rewrite length_map. split; [done|].
  destruct (items quote) as [|item rest]; [done|].
  simpl. by rewrite length_imap.
Qed.

End RendererFacts.

(* ===================================================================== *)
(** ** The counter under interleaved requests *)
(* ===================================================================== *)

Module InterleavingFacts.
Import Js Server Examples Interleaving GateFacts CounterFacts.

Lemma isZero_Some_0 (n : option Z) : isZero n = true -> n = Some 0%Z.
Proof.
  destruct n as [z|]; [|done]. simpl. intros H. apply Z.eqb_eq in H. by subst z.
Qed.

(** *** One statement *)

Lemma stateOf_rejected {A} (st : Storage) (modelled r : Result (Storage * A)) :
  delivers modelled r -> r = modelled \/ stateOf st r = st.
Proof. intros [|e]; [by left|by right]. Qed.

(** A statement that rewrites one row without writing its counter leaves
    every counter as it was. *)
Lemma rewrite_keeps_counter (f : User -> User) (target id : string) (st : Storage)
    (r : Result (Storage * option User)) :
  (forall u, freeDownloadsUsed (f u) = freeDownloadsUsed u) ->
  delivers (withDb st (fun db => Ok (updateRow f target db))) r ->
  counterOf (stateOf st r) id = counterOf st id.
Proof.
  intros Hf [|e]; [|done].
  destruct st as [db|e]; [|done]. simpl.
  change (counterOf (fst (updateRow f target db)) id = counterOf (Connected db) id).
  by apply counterOf_updateRow.
Qed.

Lemma upsert_keeps_counter (st : Storage) (target : string) (mail : option string)
    (id : string) (u : User) (r : Result (Storage * User)) :
  rowOf st id = Some u ->
  delivers (upsertUser st target mail) r ->
  counterOf (stateOf st r) id = Some (freeDownloadsUsed u).
Proof.
  intros Hrow Hr.
  assert (Hsame : counterOf st id = Some (freeDownloadsUsed u))
    by (unfold counterOf; by rewrite Hrow).
  destruct Hr as [|e]; [|done].
  destruct st as [db|e]; [|done]. simpl in Hrow |- *.
  unfold counterOf; simpl.
  destruct (decide (target = id)) as [->|Hne].
  - rewrite lookup_insert_eq, Hrow. by destruct mail.
  - rewrite lookup_insert_ne by done. by rewrite Hrow.
Qed.

(** [incrementFreeDownloads]: the counter of the row it names goes up by
    one, or the statement changes nothing. *)
Lemma increment_counter (st : Storage) (target id : string) (u : User)
    (r : Result (Storage * option User)) :
  rowOf st id = Some u ->
  delivers (incrementFreeDownloads st target) r ->
  counterOf (stateOf st r) id = Some (freeDownloadsUsed u) \/
  (target = id /\ exists n, freeDownloadsUsed u = Some n /\
     counterOf (stateOf st r) id = Some (Some (n + 1)%Z) /\
     exists a, r = Ok a).
Proof.
  intros Hrow Hr.
  assert (Hsame : counterOf st id = Some (freeDownloadsUsed u))
    by (unfold counterOf; by rewrite Hrow).
  destruct Hr as [|e]; [|by left].
  destruct st as [db|e]; [|by left]. simpl in Hrow.
  unfold incrementFreeDownloads; simpl.
  destruct (users db !! target) as [row|] eqn:Htarget; [|by left].
  case_bool_decide as Hmax; [by left|].
  destruct (decide (target = id)) as [->|Hne].
  - rewrite Hrow in Htarget. injection Htarget as <-.
    destruct (freeDownloadsUsed u) as [n|] eqn:Hn.
    + right. split; [done|]. exists n. split; [done|]. split; [|by eexists].
      unfold updateRow. rewrite Hrow. unfold counterOf; simpl.
      rewrite lookup_insert_eq. simpl. by rewrite Hn.
    + left. unfold updateRow. rewrite Hrow. unfold counterOf; simpl.
      rewrite lookup_insert_eq. simpl. by rewrite Hn.
  - left. unfold updateRow. rewrite Htarget. unfold counterOf; simpl.
    rewrite lookup_insert_ne by done. by rewrite Hrow.
Qed.

(** [updateUser]: the counter of the row it names is the one of the body,
    when the body has one; otherwise every counter is as before. *)
Lemma update_counter (st : Storage) (target id : string) (data : UserPatch) (u : User)
    (r : Result (Storage * option User)) :
  rowOf st id = Some u ->
  delivers (updateUser st target data) r ->
  counterOf (stateOf st r) id = Some (freeDownloadsUsed u) \/
  (target = id /\ exists v, patchFreeDownloadsUsed data = Some v /\
     counterOf (stateOf st r) id = Some v /\ exists a, r = Ok a).
Proof.
  intros Hrow Hr.
  assert (Hsame : counterOf st id = Some (freeDownloadsUsed u))
    by (unfold counterOf; by rewrite Hrow).
  destruct (patchFreeDownloadsUsed data) as [v|] eqn:Hv.
  2: { left. rewrite <- Hsame. apply (rewrite_keeps_counter (applyPatch data) target).
       - intros row. simpl. by rewrite Hv.
       - exact Hr. }
  destruct Hr as [|e]; [|by left].
  destruct st as [db|e]; [|by left]. simpl in Hrow.
  unfold updateUser, updateRow; simpl.
  destruct (users db !! target) as [row|] eqn:Htarget; [|by left].
  destruct (decide (target = id)) as [->|Hne].
  - right. split; [done|]. exists v. split; [done|]. split; [|by eexists].
    unfold counterOf; simpl. rewrite lookup_insert_eq. simpl. by rewrite Hv.
  - left. unfold counterOf; simpl. rewrite lookup_insert_ne by done. by rewrite Hrow.
Qed.

(** *** One step of one request *)

Lemma step_counter (st st' : Storage) (rq rq' : Request) (id : string) (u : User) :
  step st rq st' rq' ->
  onTrial rq ->
  rowOf st id = Some u ->
  counterOf st' id = Some (freeDownloadsUsed u) \/
  (exists claims seen n,
     rq = AtIncrement claims seen /\ sub claims = id /\
     truthy (hasActiveSubscription seen) = false /\
     freeDownloadsUsed seen = Some 0%Z /\
     freeDownloadsUsed u = Some n /\
     counterOf st' id = Some (Some (n + 1)%Z) /\
     exists answer, rq' = Answered answer /\ status answer = 200%Z) \/
  (exists data v,
     rq = AtAdminUpdate id data /\
     patchFreeDownloadsUsed data = Some v /\
     counterOf st' id = Some v /\
     exists answer, rq' = Answered answer /\ status answer = 200%Z).
Proof.
  intros Hstep Htrial Hrow.
  assert (Hsame : counterOf st id = Some (freeDownloadsUsed u))
    by (unfold counterOf; by rewrite Hrow).
  destruct Hstep as [st claims r Hr|st claims r Hr|st claims seen r Hr
                    |st claims target data r Hr|st target data r Hr
                    |st target mail r Hr|st r Hr|st r Hr|st target r Hr
                    |st target customer subscription r Hr|st target active r Hr];
    try (by left).
  - (* the increment *)
    destruct (increment_counter st (sub claims) id u r Hrow Hr)
      as [H|(Heq & n & Hn & Hafter & a & ->)]; [by left|].
    right; left. destruct Htrial as [Hs Hz].
    exists claims, seen, n. repeat (split; [done|]). by eexists.
  - (* the admin update *)
    destruct (update_counter st target id data u r Hrow Hr)
      as [H|(-> & v & Hv & Hafter & [[st1 row] ->])]; [by left|].
    right; right. exists data, v. repeat (split; [done|]). by eexists.
  - left. by apply (upsert_keeps_counter st target mail).
  - left. by apply (upsert_keeps_counter st "local-admin" (Some "admin@local")).
  - left. destruct (update_counter st target id roleAdmin u r Hrow Hr)
      as [H|(_ & v & Hv & _)]; [done|done].
  - left. rewrite <- Hsame.
    by apply (rewrite_keeps_counter (withStripeInfo customer subscription) target).
  - left. rewrite <- Hsame.
    by apply (rewrite_keeps_counter (withSubscription active) target).
Qed.

(** *** The requests in flight *)

Lemma step_onTrial (st st' : Storage) (rq rq' : Request) :
  step st rq st' rq' -> onTrial rq'.
Proof.
  intros [st0 claims r _|st0 claims r _| | | | | | | | |]; try done.
  - destruct r as [[user|]|e]; simpl; try done.
    + repeat (case_match; try done).
    + by case_match.
  - destruct r as [[user|]|e]; simpl; try done.
    destruct (truthy (hasActiveSubscription user)) eqn:Hs; simpl; [done|].
    destruct (isZero (freeDownloadsUsed user)) eqn:Hz; simpl; [|done].
    split; [done|by apply isZero_Some_0].
  - destruct r as [adminUser|e]; simpl; [|done]. by case_match.
  - by case_match.
  - destruct r as [[userRecord|]|e]; simpl; try done. by case_match.
Qed.

Lemma serverStep_onTrial (c c' : Storage * list Request) :
  serverStep c c' -> Forall onTrial (snd c) -> Forall onTrial (snd c').
Proof.
  intros [st pool rq Hentry|st pool i rq st' rq' Hi Hstep] Hall; simpl in *.
  - apply Forall_app. split; [done|]. constructor; [|constructor].
    by destruct rq.
  - apply Forall_insert; [done|]. by apply (step_onTrial st st' rq).
Qed.

Lemma run_onTrial (c c' : Storage * list Request) :
  rtc serverStep c c' -> Forall onTrial (snd c) -> Forall onTrial (snd c').
Proof.
  induction 1 as [c|c1 c2 c3 Hstep _ IH]; [done|].
  intros Hall. apply IH. by apply (serverStep_onTrial c1).
Qed.

Lemma reachable_onTrial (st0 st : Storage) (pool : list Request) :
  reachable st0 st pool -> Forall onTrial pool.
Proof. intros H. apply (run_onTrial _ _ H). constructor. Qed.

(** One step of the server, with the requests in flight as they can
    be. *)
Lemma serverStep_counter (st st' : Storage) (pool pool' : list Request) (id : string)
    (u : User) :
  Forall onTrial pool ->
  serverStep (st, pool) (st', pool') ->
  rowOf st id = Some u ->
  counterOf st' id = Some (freeDownloadsUsed u) \/
  (exists i claims seen n,
     pool !! i = Some (AtIncrement claims seen) /\ sub claims = id /\
     truthy (hasActiveSubscription seen) = false /\
     freeDownloadsUsed seen = Some 0%Z /\
     freeDownloadsUsed u = Some n /\
     counterOf st' id = Some (Some (n + 1)%Z) /\
     exists answer, pool' !! i = Some (Answered answer) /\ status answer = 200%Z) \/
  (exists i data v,
     pool !! i = Some (AtAdminUpdate id data) /\
     patchFreeDownloadsUsed data = Some v /\
     counterOf st' id = Some v /\
     exists answer, pool' !! i = Some (Answered answer) /\ status answer = 200%Z).
Proof.
  intros Hall Hstep Hrow.
  inversion Hstep as [st1 pool1 rq Hentry|st1 pool1 i rq st2 rq' Hi Hrq]; subst.
  { left. unfold counterOf. by rewrite Hrow. }
  assert (Hafter : <[i := rq']> pool !! i = Some rq').
  { apply list_lookup_insert_eq. by apply lookup_lt_Some in Hi. }
  pose proof (Forall_lookup_1 _ _ _ _ Hall Hi) as Htrial.
  destruct (step_counter st st' rq rq' id u Hrq Htrial Hrow)
    as [H|[(claims & seen & n & -> & H1 & H2 & H3 & H4 & H5 & answer & -> & H6)
          |(data & v & -> & H1 & H2 & answer & -> & H3)]].
  - by left.
  - right; left. exists i, claims, seen, n. repeat (split; [done|]). by exists answer.
  - right; right. exists i, data, v. repeat (split; [done|]). by exists answer.
Qed.

(** While no admin update that writes the counter is in flight, the
    counter of an existing row never goes down, however the requests
    interleave. *)
Lemma counter_never_decreases (c c' : Storage * list Request) :
  rtc quietStep c c' ->
  forall (id : string) (u : User) (n : Z),
    Forall onTrial (snd c) ->
    Forall (fun rq => writesCounter rq = false) (snd c) ->
    rowOf (fst c) id = Some u ->
    freeDownloadsUsed u = Some n ->
    exists u' n',
      rowOf (fst c') id = Some u' /\ freeDownloadsUsed u' = Some n' /\ (n <= n')%Z.
Proof.
  induction 1 as [c|[st pool] [st1 pool1] c3 [Hstep Hquiet'] _ IH];
    intros id u n Htrial Hquiet Hrow Hn.
  { exists u, n. split; [done|]. split; [done|lia]. }
  simpl in *.
  assert (Hnext : exists u1 n1, rowOf st1 id = Some u1 /\ freeDownloadsUsed u1 = Some n1 /\
                                (n <= n1)%Z).
  { destruct (serverStep_counter st st1 pool pool1 id u Htrial Hstep Hrow)
      as [H|[(i & claims & seen & m & _ & _ & _ & _ & Hm & H & _)
            |(i & data & v & Hi & Hv & _)]].
    - unfold counterOf in H. destruct (rowOf st1 id) as [u1|]; simplify_eq/=.
      exists u1, n. split; [done|]. split; [congruence|lia].
    - unfold counterOf in H. destruct (rowOf st1 id) as [u1|]; simplify_eq/=.
      exists u1, (n + 1)%Z. split; [done|]. split; [done|lia].
    - pose proof (Forall_lookup_1 _ _ _ _ Hquiet Hi) as Hw. simpl in Hw.
      rewrite Hv in Hw. by case_bool_decide. }
  destruct Hnext as (u1 & n1 & Hrow1 & Hn1 & Hle).
  destruct (IH id u1 n1) as (u' & n' & Hrow' & Hn' & Hle'); try done.
  { by apply (serverStep_onTrial (st, pool) (st1, pool1)). }
  exists u', n'. split; [done|]. split; [done|lia].
Qed.

(** *** Two downloads at once *)

Lemma two_downloads_at_once (db : Db) (claims : Claims) (user : User) :
  users db !! sub claims = Some user ->
  truthy (hasActiveSubscription user) = false ->
  freeDownloadsUsed user = Some 0%Z ->
  exists st',
    reachable (Connected db) st' [Answered trialUsed; Answered trialUsed] /\
    counterOf st' (sub claims) = Some (Some 2%Z).
Proof.
  intros Hrow Hs Hz.
  set (db1 := setUsers db (<[sub claims := plusOne user]> (users db))).
  set (db2 := setUsers db1 (<[sub claims := plusOne (plusOne user)]> (users db1))).
  assert (Hread : getUser (Connected db) (sub claims) = Ok (Some user))
    by (unfold getUser; simpl; by rewrite Hrow).
  assert (Hgate : afterGate claims (Ok (Some user)) = AtHandler claims).
  { simpl. rewrite Hs, Hz. by destruct (isAdminAnyCase user). }
  assert (Hhandler : afterHandler claims (Ok (Some user)) = AtIncrement claims user).
  { simpl. by rewrite Hs, Hz. }
  assert (Hfirst : incrementFreeDownloads (Connected db) (sub claims)
                   = Ok (Connected db1, Some (plusOne user))).
  { unfold incrementFreeDownloads, updateRow; simpl. rewrite Hrow, Hz.
    by rewrite bool_decide_eq_false_2. }
  assert (Hrow1 : users db1 !! sub claims = Some (plusOne user))
    by (unfold db1; simpl; apply lookup_insert_eq).
  assert (Hsecond : incrementFreeDownloads (Connected db1) (sub claims)
                    = Ok (Connected db2, Some (plusOne (plusOne user)))).
  { unfold incrementFreeDownloads, updateRow. cbn [withDb]. rewrite Hrow1.
    cbn [plusOne freeDownloadsUsed]. rewrite Hz. cbn [fmap option_fmap option_map].
    by rewrite bool_decide_eq_false_2. }
  exists (Connected db2). split.
  - unfold reachable.
    eapply rtc_l; [exact (arrives _ [] (AtGate claims) eq_refl)|].
    eapply rtc_l; [exact (arrives _ [AtGate claims] (AtGate claims) eq_refl)|].
    eapply rtc_l.
    { apply (advances _ _ 0 (AtGate claims)); [done|].
      apply gate_reads. rewrite Hread. constructor. }
    eapply rtc_l.
    { apply (advances _ _ 1 (AtGate claims)); [done|].
      apply gate_reads. rewrite Hread. constructor. }
    rewrite Hgate. cbn [insert list_insert app].
    eapply rtc_l.
    { apply (advances _ _ 0 (AtHandler claims)); [done|].
      apply handler_reads. rewrite Hread. constructor. }
    eapply rtc_l.
    { apply (advances _ _ 1 (AtHandler claims)); [done|].
      apply handler_reads. rewrite Hread. constructor. }
    rewrite Hhandler. cbn [insert list_insert].
    eapply rtc_l.
    { apply (advances _ _ 0 (AtIncrement claims user)); [done|].
      apply handler_increments. rewrite Hfirst. constructor. }
    eapply rtc_l.
    { apply (advances _ _ 1 (AtIncrement claims user)); [done|].
      apply handler_increments. cbn [stateOf]. rewrite Hsecond. constructor. }
    cbn [stateOf afterIncrement insert list_insert]. apply rtc_refl.
  - unfold counterOf, db2; simpl. rewrite lookup_insert_eq. simpl. by rewrite Hz.
Qed.

(** *** A request on its own

    A request that runs from its arrival to its end with no other step
    in between, and with every statement accepted, does what the route
    written as one function does. *)
Lemma track_alone (st : Storage) (claims : Claims) :
  rtc serverStep (st, [AtGate claims])
    (fst (trackPdfDownload st claims), [Answered (snd (trackPdfDownload st claims))]).
Proof.
  unfold trackPdfDownload, requireSubscriptionOrFreeTrial.
  eapply rtc_l.
  { apply (advances _ _ 0 (AtGate claims)); [done|]. apply gate_reads. constructor. }
  cbn [insert list_insert]. unfold afterGate.
  assert (Hhandler :
    rtc serverStep (st, [AtHandler claims])
      (fst (trackPdfDownloadHandler st claims),
       [Answered (snd (trackPdfDownloadHandler st claims))])).
  { eapply rtc_l.
    { apply (advances _ _ 0 (AtHandler claims)); [done|].
      apply handler_reads. constructor. }
    cbn [insert list_insert]. unfold afterHandler, trackPdfDownloadHandler.
    destruct (getUser st (sub claims)) as [[user|]|e]; try apply rtc_refl.
    destruct (negb (truthy (hasActiveSubscription user)) && isZero (freeDownloadsUsed user));
      [|apply rtc_refl].
    eapply rtc_l.
    { apply (advances _ _ 0 (AtIncrement claims user)); [done|].
      apply handler_increments. constructor. }
    cbn [insert list_insert].
    destruct (incrementFreeDownloads st (sub claims)) as [[st1 row]|e]; apply rtc_refl. }
  destruct (getUser st (sub claims)) as [[user|]|e]; try apply rtc_refl.
  - destruct (isAdminAnyCase user); [done|].
    destruct (truthy (hasActiveSubscription user)); [done|].
    destruct (isZero (freeDownloadsUsed user)); [done|apply rtc_refl].
  - destruct (includes "DATABASE_URL is not set" (errorText e)); [done|apply rtc_refl].
Qed.

Lemma admin_update_alone (st : Storage) (claims : Claims) (id : string) (data : UserPatch) :
  rtc serverStep (st, [AtAdminRead claims id data])
    (fst (adminUpdateUser st claims id data),
     [Answered (snd (adminUpdateUser st claims id data))]).
Proof.
  unfold adminUpdateUser.
  eapply rtc_l.
  { apply (advances _ _ 0 (AtAdminRead claims id data)); [done|].
    apply admin_reads. constructor. }
  cbn [insert list_insert]. unfold afterAdminRead.
  destruct (getUser st (sub claims)) as [adminUser|e]; [|apply rtc_refl].
  destruct (roleIsNotAdmin adminUser); [apply rtc_refl|].
  eapply rtc_l.
  { apply (advances _ _ 0 (AtAdminUpdate id data)); [done|].
    apply admin_updates. constructor. }
  cbn [insert list_insert].
  destruct (updateUser st id data) as [[st1 row]|e]; apply rtc_refl.
Qed.

(** [Server.perform] is one schedule of the server: the request runs
    alone and every statement is accepted. *)
Lemma perform_is_a_schedule (op : Operation) (st : Storage) (rq : Request) :
  entryOf op = Some rq ->
  exists final, rtc serverStep (st, [rq]) (perform op st, [final]).
Proof.
  destruct op as [uid mail|c|c|c q|c i d|uid cust subscr|uid active];
    simpl; intros [= <-].
  - exists Settled. eapply rtc_l; [|apply rtc_refl].
    exact (advances st [AtUpsert uid mail] 0 _ _ _ eq_refl
             (login_upserts st uid mail _ (Accepted _))).
  - eexists. apply track_alone.
  - eexists. apply admin_update_alone.
  - exists Settled. eapply rtc_l; [|apply rtc_refl].
    exact (advances st [AtStripeInfo uid cust subscr] 0 _ _ _ eq_refl
             (stripe_info_written st uid cust subscr _ (Accepted _))).
  - exists Settled. eapply rtc_l; [|apply rtc_refl].
    exact (advances st [AtSubscriptionStatus uid active] 0 _ _ _ eq_refl
             (subscription_status_written st uid active _ (Accepted _))).
Qed.

(** *** The claim on the counter *)

Lemma reset_in_flight :
  reachable (Connected db0) (Connected db0) [AtAdminUpdate "user-2" resetCounter].
Proof.
  unfold reachable.
  eapply rtc_l;
    [exact (arrives _ [] (AtAdminRead rootClaims "user-2" resetCounter) eq_refl)|].
  eapply rtc_l; [|apply rtc_refl].
  exact (advances _ [AtAdminRead rootClaims "user-2" resetCounter] 0 _ _ _ eq_refl
           (admin_reads (Connected db0) rootClaims "user-2" resetCounter _ (Accepted _))).
Qed.

Lemma reset_step :
  serverStep (Connected db0, [AtAdminUpdate "user-2" resetCounter])
    (stateOf (Connected db0) (updateUser (Connected db0) "user-2" resetCounter),
     [Answered (afterAdminUpdate (updateUser (Connected db0) "user-2" resetCounter))]).
Proof.
  exact (advances _ [AtAdminUpdate "user-2" resetCounter] 0 _ _ _ eq_refl
           (admin_updates (Connected db0) "user-2" resetCounter _ (Accepted _))).
Qed.

(** C5 as stated fails: an admin who sends [{ freeDownloadsUsed: 0 }] to
    PUT /api/admin/users/user-2 takes the counter of that user from 1
    back to 0. *)
Lemma admin_update_lowers_counter :
  ~ (forall (st0 st st' : Storage) (pool pool' : list Request) (id : string) (n n' : Z),
       reachable st0 st pool ->
       serverStep (st, pool) (st', pool') ->
       counterOf st id = Some (Some n) ->
       counterOf st' id = Some (Some n') ->
       (n <= n')%Z).
Proof.
  intros H.
  specialize (H _ _ _ _ _ "user-2" 1%Z 0%Z reset_in_flight reset_step).
  assert (Hle : (1 <= 0)%Z) by (apply H; reflexivity).
  lia.
Qed.

Lemma fresh_at_increment :
  reachable (Connected db0) (Connected db0) [AtIncrement freshClaims fresh].
Proof.
  unfold reachable.
  eapply rtc_l; [exact (arrives _ [] (AtGate freshClaims) eq_refl)|].
  eapply rtc_l.
  { exact (advances _ [AtGate freshClaims] 0 _ _ _ eq_refl
             (gate_reads (Connected db0) freshClaims _ (Accepted _))). }
  eapply rtc_l; [|apply rtc_refl].
  exact (advances _ [AtHandler freshClaims] 0 _ _ _ eq_refl
           (handler_reads (Connected db0) freshClaims _ (Accepted _))).
Qed.

Lemma fresh_increment_step :
  serverStep (Connected db0, [AtIncrement freshClaims fresh])
    (stateOf (Connected db0) (incrementFreeDownloads (Connected db0) "user-1"),
     [Answered trialUsed]).
Proof.
  exact (advances _ [AtIncrement freshClaims fresh] 0 _ _ _ eq_refl
           (handler_increments (Connected db0) freshClaims fresh _ (Accepted _))).
Qed.

(** C5, amended: at every step of the server (one awaited storage call
    of one request, the requests interleaving as they may, a statement
    being accepted or rejected) the counter of an existing row stays as
    it is, or is raised by exactly 1 by the increment of a POST
    /api/track-pdf-download of that user, whose handler had read the row
    with no active subscription and the counter at 0 and which is
    answered with 200, or is overwritten by an accepted PUT
    /api/admin/users/:id whose body carries [freeDownloadsUsed]. *)
Theorem counter_raised_only_by_track (st0 st st' : Storage) (pool pool' : list Request)
    (id : string) (u : User) :
  reachable st0 st pool ->
  serverStep (st, pool) (st', pool') ->
  rowOf st id = Some u ->
  counterOf st' id = Some (freeDownloadsUsed u) \/
  (exists i claims seen n,
     pool !! i = Some (AtIncrement claims seen) /\ sub claims = id /\
     truthy (hasActiveSubscription seen) = false /\
     freeDownloadsUsed seen = Some 0%Z /\
     freeDownloadsUsed u = Some n /\
     counterOf st' id = Some (Some (n + 1)%Z) /\
     exists answer, pool' !! i = Some (Answered answer) /\ status answer = 200%Z) \/
  (exists i data v,
     pool !! i = Some (AtAdminUpdate id data) /\
     patchFreeDownloadsUsed data = Some v /\
     counterOf st' id = Some v /\
     exists answer, pool' !! i = Some (Answered answer) /\ status answer = 200%Z).
Proof.
  intros Hreach. apply serverStep_counter. by apply (reachable_onTrial st0 st).
Qed.

Lemma counter_raised_only_by_track_witness :
  let st' := stateOf (Connected db0) (incrementFreeDownloads (Connected db0) "user-1") in
  let pool := [AtIncrement freshClaims fresh] in
  let pool' := [Answered trialUsed] in
  counterOf st' "user-1" = Some (freeDownloadsUsed fresh) \/
  (exists i claims seen n,
     pool !! i = Some (AtIncrement claims seen) /\ sub claims = "user-1" /\
     truthy (hasActiveSubscription seen) = false /\
     freeDownloadsUsed seen = Some 0%Z /\
     freeDownloadsUsed fresh = Some n /\
     counterOf st' "user-1" = Some (Some (n + 1)%Z) /\
     exists answer, pool' !! i = Some (Answered answer) /\ status answer = 200%Z) \/
  (exists i data v,
     pool !! i = Some (AtAdminUpdate "user-1" data) /\
     patchFreeDownloadsUsed data = Some v /\
     counterOf st' "user-1" = Some v /\
     exists answer, pool' !! i = Some (Answered answer) /\ status answer = 200%Z).
Proof.
  exact (counter_raised_only_by_track (Connected db0) (Connected db0) _ _ _ "user-1" fresh
           fresh_at_increment fresh_increment_step eq_refl).
Defined.

End InterleavingFacts.

(* ===================================================================== *)
(** ** Rounding: what the specification of the doubles gives *)
(* ===================================================================== *)

Module RoundingFacts.
Import Binary64.
Local Open Scope Z_scope.

Section Spec.
Variable prec emax : Z.
Hypothesis prec_pos : 0 < prec.

Abbreviation emin := (SpecFloat.emin prec emax).
Abbreviation fexp := (SpecFloat.fexp prec emax).

(** *** Digits *)

Lemma digits2_size (m : positive) : digits2_pos m = Pos.size m.
Proof. induction m as [m IH|m IH|]; simpl; congruence. Qed.

Lemma digits_bounds (m : positive) :
  2 ^ (Zpos (digits2_pos m) - 1) <= Zpos m < 2 ^ Zpos (digits2_pos m).
Proof.
  rewrite digits2_size. split.
  - pose proof (Pos.size_le m) as H.
    assert (H2 : (2 ^ Pos.size m <= m~0)%positive) by exact H.
    apply Pos2Z.pos_le_pos in H2. rewrite Pos2Z.inj_pow in H2.
    replace (Zpos (Pos.size m)) with (Zpos (Pos.size m) - 1 + 1) in H2 by lia.
    rewrite Z.pow_add_r in H2 by lia. change (Zpos m~0) with (2 * Zpos m) in H2. lia.
  - pose proof (Pos.size_gt m) as H.
    apply Pos2Z.pos_lt_pos in H. by rewrite Pos2Z.inj_pow in H.
Qed.

Lemma digits_unique (m : positive) (d : Z) :
  2 ^ (d - 1) <= Zpos m < 2 ^ d -> Zpos (digits2_pos m) = d.
Proof.
  intros [Hlo Hhi]. destruct (digits_bounds m) as [Hlo' Hhi'].
  assert (0 < d).
  { destruct (Z.lt_trichotomy d 0) as [H|[H|H]]; [|subst d; simpl in Hhi; lia|done].
    rewrite Z.pow_neg_r in Hhi by lia. lia. }
  assert (d - 1 < Zpos (digits2_pos m)).
  { apply (Z.pow_lt_mono_r_iff 2); lia. }
  assert (Zpos (digits2_pos m) - 1 < d).
  { apply (Z.pow_lt_mono_r_iff 2); lia. }
  lia.
Qed.

(** *** Shifting to the right *)

Lemma shr_1_m (r : shr_record) : 0 <= shr_m r -> shr_m (shr_1 r) = shr_m r / 2.
Proof.
  destruct r as [m b s]. cbn [shr_m]. intros Hm.
  destruct m as [|[p|p|]|p]; cbn [shr_1 shr_m]; try lia; try reflexivity.
  - apply (Z.div_unique _ 2 _ 1); lia.
  - apply (Z.div_unique _ 2 _ 0); lia.
Qed.

Lemma pow2_xO (n : positive) : 2 ^ Zpos n~0 = 2 ^ Zpos n * 2 ^ Zpos n.
Proof.
  replace (Zpos n~0) with (Zpos n + Zpos n) by lia. apply Z.pow_add_r; lia.
Qed.

Lemma pow2_xI (n : positive) : 2 ^ Zpos n~1 = 2 * (2 ^ Zpos n * 2 ^ Zpos n).
Proof.
  replace (Zpos n~1) with (1 + (Zpos n + Zpos n)) by lia.
  rewrite !Z.pow_add_r by lia. reflexivity.
Qed.

Lemma pow2_pos (n : Z) : 0 <= n -> 0 < 2 ^ n.
Proof. intros H. apply Z.pow_pos_nonneg; lia. Qed.

Lemma iter_shr_m (n : positive) :
  forall r, 0 <= shr_m r ->
            shr_m (SpecFloat.iter_pos shr_1 n r) = shr_m r / 2 ^ Zpos n.
Proof.
  induction n as [n IH|n IH|]; intros r Hr; cbn [SpecFloat.iter_pos].
  - assert (H1 : 0 <= shr_m (shr_1 r)).
    { rewrite shr_1_m by done. apply Z.div_pos; lia. }
    assert (H2 : 0 <= shr_m (SpecFloat.iter_pos shr_1 n (shr_1 r))).
    { rewrite IH by done. apply Z.div_pos; [done|]. by apply pow2_pos. }
    rewrite IH, IH, shr_1_m by done.
    pose proof (pow2_pos (Zpos n) ltac:(lia)).
    rewrite !Z.div_div by lia.
    by rewrite pow2_xI.
  - assert (H2 : 0 <= shr_m (SpecFloat.iter_pos shr_1 n r)).
    { rewrite IH by done. apply Z.div_pos; [done|]. by apply pow2_pos. }
    rewrite IH, IH by done.
    pose proof (pow2_pos (Zpos n) ltac:(lia)).
    rewrite !Z.div_div by lia.
    by rewrite pow2_xO.
  - rewrite shr_1_m by done. reflexivity.
Qed.

Lemma shr_m_of_loc (m : Z) (l : location) : shr_m (shr_record_of_loc m l) = m.
Proof. by destruct l as [|[| |]]. Qed.

(** The mantissa after [shr]: divided by the power of two, when the
    shift is positive. *)
Lemma shr_mantissa (r : shr_record) (e n : Z) :
  0 <= shr_m r ->
  shr_m (fst (shr r e n)) = (if 0 <? n then shr_m r / 2 ^ n else shr_m r) /\
  snd (shr r e n) = (if 0 <? n then e + n else e).
Proof.
  intros Hr. destruct n as [|n|n]; simpl; [done| |done].
  split; [by apply iter_shr_m|done].
Qed.

Lemma shr_nonneg (r : shr_record) (e n : Z) :
  0 <= shr_m r -> 0 <= shr_m (fst (shr r e n)).
Proof.
  intros Hr. destruct n as [|n|n]; cbn [shr fst]; [done| |done].
  rewrite iter_shr_m by done. apply Z.div_pos; [done|]. by apply pow2_pos.
Qed.

Lemma round_nearest_even_cases (m : Z) (l : location) :
  round_nearest_even m l = m \/ round_nearest_even m l = m + 1.
Proof.
  destruct l as [|[| |]]; simpl; auto. destruct (Z.even m); auto.
Qed.

(** *** The last steps of a rounding *)

Lemma binary_round_aux_finish (sx : bool) (m e : Z) (l : location) :
  binary_round_aux prec emax sx m e l
  = finish prec emax sx
      (round_nearest_even (shr_m (fst (shr_fexp prec emax m e l)))
         (loc_of_shr_record (fst (shr_fexp prec emax m e l))))
      (snd (shr_fexp prec emax m e l)).
Proof.
  unfold binary_round_aux, finish.
  by destruct (shr_fexp prec emax m e l) as [mrs' e'].
Qed.

(** A rounding of a mantissa that is not negative gives a number with
    the sign asked for: never [NaN]. *)
Lemma finish_sign (sx : bool) (m e : Z) :
  0 <= m ->
  match finish prec emax sx m e with
  | S754_zero s | S754_infinity s | S754_finite s _ _ => s = sx
  | S754_nan => False
  end.
Proof.
  intros Hm. unfold finish, shr_fexp.
  pose proof (shr_nonneg (shr_record_of_loc m loc_Exact) e
                (fexp (Zdigits2 m + e) - e)) as Hshr.
  destruct (shr (shr_record_of_loc m loc_Exact) e (fexp (Zdigits2 m + e) - e))
    as [mrs e'].
  cbn [fst] in Hshr. specialize (Hshr Hm).
  destruct (shr_m mrs) as [|p|p]; [done| |lia].
  by destruct (e' <=? emax - prec).
Qed.

Lemma binary_round_aux_sign (sx : bool) (m e : Z) (l : location) :
  0 <= m ->
  match binary_round_aux prec emax sx m e l with
  | S754_zero s | S754_infinity s | S754_finite s _ _ => s = sx
  | S754_nan => False
  end.
Proof.
  intros Hm. rewrite binary_round_aux_finish. apply finish_sign.
  unfold shr_fexp.
  pose proof (shr_nonneg (shr_record_of_loc m l) e (fexp (Zdigits2 m + e) - e)) as Hshr.
  rewrite shr_m_of_loc in Hshr. specialize (Hshr Hm).
  set (mrs := fst (shr (shr_record_of_loc m l) e (fexp (Zdigits2 m + e) - e))) in *.
  destruct (round_nearest_even_cases (shr_m mrs) (loc_of_shr_record mrs)) as [-> | ->]; lia.
Qed.

(** *** Exponents *)

Lemma fexp_mono (a b : Z) : a <= b -> fexp a <= fexp b.
Proof. unfold SpecFloat.fexp. lia. Qed.

Lemma fexp_ge_emin (a : Z) : emin <= fexp a.
Proof. unfold SpecFloat.fexp. lia. Qed.

Lemma fexp_above_emin (a : Z) : emin < fexp a -> fexp a = a - prec.
Proof. unfold SpecFloat.fexp. lia. Qed.

Lemma canonical_spec (m : positive) (e : Z) :
  canonical_mantissa prec emax m e = true <-> fexp (Zpos (digits2_pos m) + e) = e.
Proof. unfold canonical_mantissa. apply Z.eqb_eq. Qed.

Lemma bounded_spec (m : positive) (e : Z) :
  bounded prec emax m e = true <->
  fexp (Zpos (digits2_pos m) + e) = e /\ e <= emax - prec.
Proof.
  unfold bounded. rewrite andb_true_iff, canonical_spec, Z.leb_le. tauto.
Qed.

(** *** Shifting to the left *)

Lemma iter_xO_value (m k : positive) : Zpos (Pos.iter xO m k) = Zpos m * 2 ^ Zpos k.
Proof.
  induction k as [|k IH] using Pos.peano_ind.
  - simpl. lia.
  - rewrite Pos.iter_succ, Pos2Z.inj_xO, IH, Pos2Z.inj_succ, Z.pow_succ_r by lia. lia.
Qed.

(** [shl_align] to an exponent that is not above the present one keeps
    the value. *)
Lemma shl_align_value (m : positive) (e e' : Z) :
  e' <= e ->
  Zpos (fst (shl_align m e e')) = Zpos m * 2 ^ (e - e') /\
  snd (shl_align m e e') = e'.
Proof.
  intros Hle. unfold shl_align.
  destruct (e' - e) as [|k|k] eqn:E; cbn [fst snd].
  - replace (e - e') with 0 by lia. simpl. lia.
  - lia.
  - rewrite iter_xO_value. replace (e - e') with (Zpos k) by lia. lia.
Qed.

Lemma shl_align_same (m : positive) (e e' : Z) :
  e <= e' -> shl_align m e e' = (m, e).
Proof.
  intros Hle. unfold shl_align. destruct (e' - e) as [|k|k] eqn:E; [done|done|lia].
Qed.

Lemma digits_shift (m : positive) (k : Z) (q : positive) :
  0 <= k -> Zpos q = Zpos m * 2 ^ k ->
  Zpos (digits2_pos q) = Zpos (digits2_pos m) + k.
Proof.
  intros Hk Hq. apply digits_unique. rewrite Hq.
  destruct (digits_bounds m) as [Hlo Hhi].
  pose proof (pow2_pos k Hk).
  replace (Zpos (digits2_pos m) + k - 1) with (Zpos (digits2_pos m) - 1 + k) by lia.
  rewrite !Z.pow_add_r by lia. nia.
Qed.

(** A mantissa below a scaled one has no more digits. *)
Lemma digits_below (p m : positive) (k : Z) :
  0 <= k -> Zpos p < Zpos m * 2 ^ k ->
  Zpos (digits2_pos p) <= Zpos (digits2_pos m) + k.
Proof.
  intros Hk Hlt.
  destruct (digits_bounds p) as [Hlo _]. destruct (digits_bounds m) as [_ Hhi].
  pose proof (pow2_pos k Hk).
  assert (Hpow : 2 ^ (Zpos (digits2_pos p) - 1) < 2 ^ (Zpos (digits2_pos m) + k)).
  { rewrite (Z.pow_add_r 2 (Zpos (digits2_pos m))) by lia. nia. }
  apply Z.pow_lt_mono_r_iff in Hpow; lia.
Qed.

(** *** Roundings that are exact *)

Lemma finish_canonical (sx : bool) (m : positive) (e : Z) :
  fexp (Zpos (digits2_pos m) + e) = e ->
  finish prec emax sx (Zpos m) e
  = if e <=? emax - prec then S754_finite sx m e else S754_infinity sx.
Proof.
  intros H. unfold finish, shr_fexp. cbn [Zdigits2]. rewrite H, Z.sub_diag. reflexivity.
Qed.

Lemma binary_round_aux_canonical (sx : bool) (m : positive) (e : Z) :
  fexp (Zpos (digits2_pos m) + e) = e ->
  binary_round_aux prec emax sx (Zpos m) e loc_Exact
  = if e <=? emax - prec then S754_finite sx m e else S754_infinity sx.
Proof.
  intros H. rewrite binary_round_aux_finish. unfold shr_fexp. cbn [Zdigits2].
  rewrite H, Z.sub_diag. cbn. by apply finish_canonical.
Qed.

(** *** Comparing two positive numbers *)

Lemma SFleb_finite (m1 m2 : positive) (e1 e2 : Z) :
  e1 < e2 \/ (e1 = e2 /\ Zpos m1 <= Zpos m2) ->
  SFleb (S754_finite false m1 e1) (S754_finite false m2 e2) = true.
Proof.
  intros H. unfold SFleb, SFcompare.
  destruct (Z.compare_spec e1 e2) as [Heq|Hlt|Hgt]; [|done|lia].
  change (Pos.compare_cont Eq m1 m2) with (Pos.compare m1 m2).
  destruct (Pos.compare_spec m1 m2) as [?|?|Hgt]; [done|done|lia].
Qed.

(** *** Roundings that carry *)

Lemma finish_carry (sx : bool) (q : positive) (e : Z) :
  emin <= e ->
  Zpos q = 2 ^ prec ->
  exists q',
    Zpos q' = 2 ^ (prec - 1) /\
    finish prec emax sx (Zpos q) e
    = if e + 1 <=? emax - prec then S754_finite sx q' (e + 1) else S754_infinity sx.
Proof.
  intros He Hq.
  assert (Hhalf : 2 ^ prec = 2 * 2 ^ (prec - 1)).
  { replace prec with (1 + (prec - 1)) at 1 by lia. rewrite Z.pow_add_r by lia. done. }
  pose proof (pow2_pos (prec - 1) ltac:(lia)) as Hpos.
  assert (Hdigits : Zpos (digits2_pos q) = prec + 1).
  { apply digits_unique. rewrite Hq. replace (prec + 1 - 1) with prec by lia.
    rewrite (Z.pow_add_r 2 prec 1) by lia. lia. }
  unfold finish, shr_fexp. cbn [Zdigits2]. rewrite Hdigits.
  replace (fexp (prec + 1 + e) - e) with 1 by (unfold SpecFloat.fexp; lia).
  cbn [shr SpecFloat.iter_pos shr_record_of_loc].
  assert (Hm : shr_m (shr_1 {| shr_m := Zpos q; shr_r := false; shr_s := false |})
               = 2 ^ (prec - 1)).
  { rewrite shr_1_m by (cbn; lia). cbn [shr_m]. rewrite Hq, Hhalf.
    rewrite Z.mul_comm. apply Z.div_mul. lia. }
  destruct (shr_m (shr_1 {| shr_m := Zpos q; shr_r := false; shr_s := false |}))
    as [|q'|q']; [lia| |lia].
  by exists q'.
Qed.

(** *** The rounding of a number below a representable one *)

Lemma round_below (mx : positive) (ex : Z) (p : positive) (e : Z) :
  bounded prec emax mx ex = true ->
  emin <= e ->
  e <= ex ->
  Zpos p < Zpos mx * 2 ^ (ex - e) ->
  SFleb (binary_round prec emax false p e) (S754_finite false mx ex) = true.
Proof.
  intros Hb Hemin Hle Hlt.
  apply bounded_spec in Hb as [Hcan Hmax].
  pose proof (digits_below p mx (ex - e) ltac:(lia) Hlt) as Hd.
  assert (HE : fexp (Zpos (digits2_pos p) + e) <= ex).
  { rewrite <- Hcan. apply fexp_mono. lia. }
  unfold binary_round.
  set (d := Zpos (digits2_pos p)) in *. set (E := fexp (d + e)) in *.
  destruct (Z.lt_ge_cases E e) as [HEe|HEe].
  - (* the mantissa is shifted to the left: no rounding *)
    destruct (shl_align_value p e E ltac:(lia)) as [Hval Hexp].
    destruct (shl_align p e E) as [mz ez]. cbn [fst snd] in Hval, Hexp. subst ez.
    rewrite binary_round_aux_canonical.
    2: { rewrite (digits_shift p (e - E) mz) by (lia || done). fold d.
         replace (d + (e - E) + E) with (d + e) by lia. done. }
    replace (E <=? emax - prec) with true by (symmetry; apply Z.leb_le; lia).
    apply SFleb_finite. left. lia.
  - rewrite (shl_align_same p e E HEe).
    destruct (Z.eq_dec E e) as [Heq|Hne].
    + (* the mantissa fits as it is *)
      rewrite binary_round_aux_canonical by (fold d; fold E; done).
      replace (e <=? emax - prec) with true by (symmetry; apply Z.leb_le; lia).
      apply SFleb_finite. destruct (Z.eq_dec e ex) as [->|]; [right|left; lia].
      split; [done|]. rewrite Z.sub_diag in Hlt. simpl in Hlt. lia.
    + (* the mantissa is shifted to the right and rounded *)
      assert (Hn : 0 < E - e) by lia.
      assert (HEd : E = d + e - prec) by (apply fexp_above_emin; fold E; lia).
      rewrite binary_round_aux_finish. unfold shr_fexp. cbn [Zdigits2]. fold d. fold E.
      destruct (shr_mantissa (shr_record_of_loc (Zpos p) loc_Exact) e (E - e))
        as [Hm He]; [cbn; lia|].
      replace (0 <? E - e) with true in Hm, He by (symmetry; apply Z.ltb_lt; lia).
      destruct (shr (shr_record_of_loc (Zpos p) loc_Exact) e (E - e)) as [mrs e'].
      cbn [fst snd shr_m shr_record_of_loc] in Hm, He |- *.
      subst e'. replace (e + (E - e)) with E by lia.
      destruct (digits_bounds p) as [Hplo Hphi]. fold d in Hplo, Hphi.
      pose proof (pow2_pos (E - e) ltac:(lia)) as Hpow.
      pose proof (pow2_pos (prec - 1) ltac:(lia)) as Hpow1.
      assert (Hhalf : 2 ^ prec = 2 * 2 ^ (prec - 1)).
      { replace prec with (1 + (prec - 1)) at 1 by lia.
        rewrite Z.pow_add_r by lia. done. }
      assert (Hsplit : 2 ^ (d - 1) = 2 ^ (E - e) * 2 ^ (prec - 1)).
      { rewrite <- Z.pow_add_r by lia. f_equal. lia. }
      assert (Hsplit' : 2 ^ d = 2 ^ (E - e) * 2 ^ prec).
      { rewrite <- Z.pow_add_r by lia. f_equal. lia. }
      assert (Hlo : 2 ^ (prec - 1) <= shr_m mrs).
      { rewrite Hm. apply Z.div_le_lower_bound; lia. }
      assert (Hhi : shr_m mrs < 2 ^ prec).
      { rewrite Hm. apply Z.div_lt_upper_bound; lia. }
      assert (Hbelow : E = ex -> shr_m mrs < Zpos mx).
      { intros ->. rewrite Hm. apply Z.div_lt_upper_bound; lia. }
      assert (Hmx : Zpos mx < 2 ^ prec).
      { destruct (digits_bounds mx) as [_ Hx].
        assert (Zpos (digits2_pos mx) <= prec)
          by (unfold SpecFloat.fexp in Hcan; lia).
        eapply Z.lt_le_trans; [exact Hx|]. apply Z.pow_le_mono_r; lia. }
      destruct (round_nearest_even_cases (shr_m mrs) (loc_of_shr_record mrs)) as [-> | ->].
      * (* rounded down *)
        destruct (shr_m mrs) as [|q|q] eqn:Hq; [lia| |lia].
        rewrite finish_canonical.
        2: { rewrite (digits_unique q prec) by lia. unfold SpecFloat.fexp. lia. }
        replace (E <=? emax - prec) with true by (symmetry; apply Z.leb_le; lia).
        apply SFleb_finite. destruct (Z.eq_dec E ex) as [Hex|]; [right|left; lia].
        split; [done|]. specialize (Hbelow Hex). lia.
      * (* rounded up *)
        destruct (Z.eq_dec (shr_m mrs + 1) (2 ^ prec)) as [Hcarry|Hnone].
        -- assert (Hex : E < ex).
           { destruct (Z.eq_dec E ex) as [Hex|]; [|lia]. specialize (Hbelow Hex). lia. }
           destruct (shr_m mrs + 1) as [|q|q] eqn:Hq; [lia| |lia].
           destruct (finish_carry false q E ltac:(lia) Hcarry) as (q' & Hq' & ->).
           replace (E + 1 <=? emax - prec) with true by (symmetry; apply Z.leb_le; lia).
           apply SFleb_finite. destruct (Z.eq_dec (E + 1) ex) as [Hex'|]; [right|left; lia].
           split; [done|]. rewrite Hq'.
           assert (Hdx : Zpos (digits2_pos mx) = prec).
           { assert (emin < fexp (Zpos (digits2_pos mx) + ex)) by lia.
             apply fexp_above_emin in H. lia. }
           destruct (digits_bounds mx) as [Hx _]. by rewrite Hdx in Hx.
        -- destruct (shr_m mrs + 1) as [|q|q] eqn:Hq; [lia| |lia].
           rewrite finish_canonical.
           2: { rewrite (digits_unique q prec) by lia. unfold SpecFloat.fexp. lia. }
           replace (E <=? emax - prec) with true by (symmetry; apply Z.leb_le; lia).
           apply SFleb_finite. destruct (Z.eq_dec E ex) as [Hex|]; [right|left; lia].
           split; [done|]. specialize (Hbelow Hex). lia.
Qed.

(** *** Numbers that are not negative *)

Lemma nonneg_spec (x : spec_float) : SFleb (S754_zero false) x = true <-> nonneg x.
Proof. destruct x as [s|[|]| |[|] m e]; simpl; split; try done. Qed.

Lemma finite_nonneg_spec (x : spec_float) :
  SFleb (S754_zero false) x = true /\ SFltb x (S754_infinity false) = true
  <-> finite_nonneg x.
Proof.
  destruct x as [s|[|]| |[|] m e]; simpl; split; try done; try by intros [? ?].
Qed.

Lemma rounded_nonneg (m e : Z) (l : location) :
  0 <= m -> nonneg (binary_round_aux prec emax false m e l).
Proof.
  intros Hm. pose proof (binary_round_aux_sign false m e l Hm) as H.
  by destruct (binary_round_aux prec emax false m e l).
Qed.

Lemma SFmul_nonneg (x y : spec_float) :
  finite_nonneg x -> finite_nonneg y -> nonneg (SFmul prec emax x y).
Proof.
  destruct x as [sx|sx| |sx mx ex], y as [sy|sy| |sy my ey]; simpl; try done.
  intros -> ->. by apply rounded_nonneg.
Qed.

Lemma SFdiv_nonneg (x : spec_float) (my : positive) (ey : Z) :
  nonneg x -> nonneg (SFdiv prec emax x (S754_finite false my ey)).
Proof.
  destruct x as [sx|sx| |sx mx ex]; simpl; try done.
  - intros ->. done.
  - intros ->. unfold SFdiv_core_binary.
    set (m' := match _ - _ - _ with Z0 => Zpos mx | Zpos _ => _ | Zneg _ => 0 end).
    assert (Hm' : 0 <= m').
    { unfold m'. destruct (_ - _ - _); [lia| |lia]. by apply Z.shiftl_nonneg. }
    pose proof (Z_div_mod m' (Zpos my) ltac:(lia)) as Hdiv.
    destruct (Z.div_eucl m' (Zpos my)) as [q r]. apply rounded_nonneg.
    destruct Hdiv as [Heq Hr]. nia.
Qed.

Lemma binary_round_nonneg (p : positive) (e : Z) :
  nonneg (binary_round prec emax false p e).
Proof.
  unfold binary_round. destruct (shl_align p e _) as [mz ez]. by apply rounded_nonneg.
Qed.

Lemma SFadd_nonneg (x y : spec_float) :
  nonneg x -> nonneg y -> nonneg (SFadd prec emax x y).
Proof.
  destruct x as [sx|sx| |sx mx ex], y as [sy|sy| |sy my ey]; simpl; try done.
  - by destruct sx, sy.
  - by intros -> ->.
  - intros -> ->. simpl.
    set (a := fst (shl_align mx ex (Z.min ex ey))).
    set (b := fst (shl_align my ey (Z.min ex ey))).
    change (Zpos a + Zpos b) with (Zpos (a + b)). apply binary_round_nonneg.
Qed.

(** *** A subtraction does not go up *)

Lemma valid_exponent (m : positive) (e : Z) :
  bounded prec emax m e = true -> emin <= e.
Proof. intros H. apply bounded_spec in H as [<- _]. apply fexp_ge_emin. Qed.

Lemma negative_below (r : spec_float) (mx : positive) (ex : Z) :
  match r with
  | S754_zero s | S754_infinity s | S754_finite s _ _ => s = true
  | S754_nan => False
  end ->
  SFleb r (S754_finite false mx ex) = true.
Proof. destruct r as [s|s| |s m e]; simpl; try done; by intros ->. Qed.

Lemma SFsub_le (x y : spec_float) :
  SpecFloat.valid_binary prec emax x = true ->
  SpecFloat.valid_binary prec emax y = true ->
  finite_nonneg x ->
  nonneg y ->
  SFleb (SFsub prec emax x y) x = true.
Proof.
  destruct x as [sx|sx| |sx mx ex], y as [sy|sy| |sy my ey]; simpl; try done.
  - by destruct sx, sy.
  - by intros _ _ _ ->.
  - by intros _ _ _ ->.
  - intros _ _ -> _. apply SFleb_finite. right. split; [done|lia].
  - by intros _ _ _ ->.
  - intros Hx Hy -> ->. simpl.
    pose proof (valid_exponent _ _ Hx). pose proof (valid_exponent _ _ Hy).
    destruct (shl_align_value mx ex (Z.min ex ey) ltac:(lia)) as [Ha _].
    set (a := fst (shl_align mx ex (Z.min ex ey))) in *.
    set (b := fst (shl_align my ey (Z.min ex ey))).
    destruct (Zpos a - Zpos b) as [|p|p] eqn:Hdiff; cbn [binary_normalize].
    + done.
    + apply round_below; [done|lia|lia|]. rewrite <- Ha. lia.
    + apply negative_below. unfold binary_round.
      destruct (shl_align p (Z.min ex ey) _) as [mz ez].
      by apply binary_round_aux_sign.
Qed.

End Spec.
End RoundingFacts.

Module IeeeFacts.
Import Binary64 RoundingFacts Ieee Ieee.QuoteItem IeeeExamples.
Local Open Scope float_scope.

(** *** Comparisons and the coercions *)

Lemma compare_cont_flip (m n : positive) :
  Pos.compare_cont Eq n m = CompOpp (Pos.compare_cont Eq m n).
Proof. by rewrite (Pos.compare_cont_antisym m n Eq). Qed.

Lemma SFcompare_Lt_antisym (x y : spec_float) :
  SFcompare x y = Some Lt -> SFcompare y x = Some Gt.
Proof.
  destruct x as [sx|sx| |sx mx ex], y as [sy|sy| |sy my ey]; simpl;
    try destruct sx; try destruct sy; try done.
  - rewrite (Z.compare_antisym ex ey), (compare_cont_flip mx my).
    destruct (ex ?= ey)%Z; simpl; try done.
    destruct (Pos.compare_cont Eq mx my); simpl; congruence.
  - rewrite (Z.compare_antisym ex ey), (compare_cont_flip mx my).
    destruct (ex ?= ey)%Z; simpl; try done.
    destruct (Pos.compare_cont Eq mx my); simpl; congruence.
Qed.

Lemma ltb_antisym (a b : float) : (a <? b) = true -> (b <? a) = false.
Proof.
  rewrite !FloatAxioms.ltb_spec. unfold SFltb.
  destruct (SFcompare (Prim2SF a) (Prim2SF b)) as [[| |]|] eqn:E; try done.
  intros _. by rewrite (SFcompare_Lt_antisym _ _ E).
Qed.

(** [Math.max(0, x)] is never below 0. *)
Lemma max_zero_not_negative (x : float) : (max 0 x <? 0) = false.
Proof.
  unfold max. change (is_nan 0) with false. simpl.
  destruct (is_nan x); [reflexivity|].
  destruct (0 <? x) eqn:E; [by apply ltb_antisym|].
  destruct (x <? 0); reflexivity.
Qed.

(** [(x || 0) || 0] is [x || 0]. *)
Lemma orZero_idempotent (x : float) : orZero (orZero x) = orZero x.
Proof.
  unfold orZero. destruct (is_nan x || is_zero x) eqn:E; [reflexivity|].
  by rewrite E.
Qed.

(** *** The rows of a maintained list *)

Lemma addItem_kept (items : list QuoteItem) :
  Forall kept items -> Forall kept (addItem items).
Proof.
  intros H. unfold addItem. apply Forall_app. split; [done|].
  constructor; [|constructor]. unfold kept; simpl. repeat split; reflexivity.
Qed.

Lemma filterFrom_kept (p : QuoteItem -> nat -> bool) (l : list QuoteItem) :
  forall i, Forall kept l -> Forall kept (Editor.filterFrom p i l).
Proof.
  induction l as [|x l IH]; intros i H; simpl; [constructor|].
  inversion H; subst. destruct (p x i); [constructor|]; auto.
Qed.

Lemma recalculate_kept (item : QuoteItem) :
  orZero (unit_price item) = unit_price item ->
  orZero (needed_quantity item) = needed_quantity item ->
  orZero (owned_quantity item) = owned_quantity item ->
  kept (recalculate item).
Proof.
  intros Hp Hn Ho. unfold kept, recalculate; simpl.
  rewrite Hp, Hn, Ho. by repeat split.
Qed.

Lemma handle_kept (e : Event) (items items' : list QuoteItem) :
  Forall kept items -> handle e items = Some items' -> Forall kept items'.
Proof.
  intros Hall. destruct e as [|i|i v|i v|i v|i v]; simpl.
  - intros [= <-]. by apply addItem_kept.
  - destruct (Nat.ltb i (length items)); [|done].
    intros [= <-]. by apply filterFrom_kept.
  - unfold updateItem. destruct (items !! i) as [item|] eqn:Hitem; [|done].
    intros [= <-]. apply Forall_insert; [done|].
    exact (Forall_lookup_1 _ _ _ _ Hall Hitem).
  - unfold updateItem. destruct (items !! i) as [item|] eqn:Hitem; [|done].
    intros [= <-]. apply Forall_insert; [done|].
    destruct (Forall_lookup_1 _ _ _ _ Hall Hitem) as (Hp & Hn & Ho & _).
    apply recalculate_kept; simpl; [apply orZero_idempotent|done|done].
  - unfold updateItem. destruct (items !! i) as [item|] eqn:Hitem; [|done].
    intros [= <-]. apply Forall_insert; [done|].
    destruct (Forall_lookup_1 _ _ _ _ Hall Hitem) as (Hp & Hn & Ho & _).
    apply recalculate_kept; simpl; [done|apply orZero_idempotent|done].
  - unfold updateItem. destruct (items !! i) as [item|] eqn:Hitem; [|done].
    intros [= <-]. apply Forall_insert; [done|].
    destruct (Forall_lookup_1 _ _ _ _ Hall Hitem) as (Hp & Hn & Ho & _).
    apply recalculate_kept; simpl; [done|done|apply orZero_idempotent].
Qed.

Lemma edit_kept (events : list Event) :
  forall items items',
    Forall kept items -> edit events items = Some items' -> Forall kept items'.
Proof.
  induction events as [|e events IH]; intros items items' Hall; simpl.
  - by intros [= <-].
  - destruct (handle e items) as [next|] eqn:Hnext; [|done].
    apply IH. by apply (handle_kept e items).
Qed.

Lemma maintained_kept (items : list QuoteItem) :
  maintained items -> Forall kept items.
Proof. intros [events Hevents]. by apply (edit_kept events [] items). Qed.

(** The reduce of the summary reads each stored total; in a maintained
    list that is the product recomputed from the quantities and the
    price. *)
Lemma sum_of_kept (items : list QuoteItem) :
  Forall kept items ->
  forall start,
    fold_left (fun sum item => sum + orZero (QuoteItem.total item)) items start
    = fold_left
        (fun sum item =>
           sum + orZero (max 0 (needed_quantity item - owned_quantity item)
                         * unit_price item))
        items start.
Proof.
  induction 1 as [|item items (_ & _ & _ & Hbuy & Htotal) _ IH]; intros start;
    [reflexivity|].
  simpl. rewrite IH. by rewrite Htotal, Hbuy.
Qed.

Lemma tenths_maintained : maintained tenthsItems.
Proof. exists tenths. reflexivity. Qed.

Lemma huge_maintained : maintained hugeItems.
Proof. exists huge. reflexivity. Qed.

(** *** Signs *)

Lemma prec_positive : (0 < prec)%Z.
Proof. reflexivity. Qed.

Lemma leb_zero (x : float) : (0 <=? x) = true <-> nonneg (Prim2SF x).
Proof. rewrite FloatAxioms.leb_spec. apply nonneg_spec. Qed.

Lemma finite_float (x : float) :
  (0 <=? x) = true -> (x <? infinity) = true -> finite_nonneg (Prim2SF x).
Proof.
  rewrite FloatAxioms.leb_spec, FloatAxioms.ltb_spec. intros H1 H2. by apply finite_nonneg_spec.
Qed.

Lemma percent_finite (d : float) :
  (0 <=? d) = true -> (d <=? 100) = true -> finite_nonneg (Prim2SF d).
Proof.
  rewrite !FloatAxioms.leb_spec.
  replace (Prim2SF 100) with (S754_finite false 7036874417766400 (-46)) by reflexivity.
  destruct (Prim2SF d) as [s|[|]| |[|] m e]; simpl; try done.
Qed.

Lemma not_nan (x : float) : is_nan x = false -> Prim2SF x <> S754_nan.
Proof.
  unfold is_nan. rewrite FloatAxioms.eqb_spec. intros H Hnan. rewrite Hnan in H. done.
Qed.

Lemma infinity_only (x : float) :
  (0 <=? x) = true -> (x <? infinity) = false -> x = infinity.
Proof.
  rewrite FloatAxioms.leb_spec, FloatAxioms.ltb_spec. intros H1 H2. apply Prim2SF_inj.
  replace (Prim2SF infinity) with (S754_infinity false) by reflexivity.
  destruct (Prim2SF x) as [s|[|]| |[|] m e]; simpl in *; try done.
Qed.

Lemma orZero_percent (d : float) :
  (0 <=? d) = true -> (d <=? 100) = true ->
  (0 <=? orZero d) = true /\ (orZero d <=? 100) = true.
Proof. intros H1 H2. unfold orZero. by destruct (is_nan d || is_zero d). Qed.

(** The share of the discount is not negative. *)
Lemma share_nonneg (s d : float) :
  finite_nonneg (Prim2SF s) -> finite_nonneg (Prim2SF d) ->
  nonneg (Prim2SF (s * d / 100)).
Proof.
  intros Hs Hd. rewrite FloatAxioms.div_spec, FloatAxioms.mul_spec.
  replace (Prim2SF 100) with (S754_finite false 7036874417766400 (-46)) by reflexivity.
  apply SFdiv_nonneg. by apply SFmul_nonneg.
Qed.

(** Taking away a number that is not negative from a finite number that
    is not negative gives no more than there was: the rounding of the
    difference does not pass the number taken from. *)
Lemma sub_le (s q : float) :
  finite_nonneg (Prim2SF s) -> nonneg (Prim2SF q) -> (s - q <=? s) = true.
Proof.
  intros Hs Hq. rewrite FloatAxioms.leb_spec, FloatAxioms.sub_spec.
  apply (SFsub_le prec emax prec_positive); auto using Prim2SF_valid.
Qed.

Lemma add_nonneg (a b : float) :
  nonneg (Prim2SF a) -> nonneg (Prim2SF b) -> nonneg (Prim2SF (a + b)).
Proof.
  intros Ha Hb. rewrite FloatAxioms.add_spec. by apply SFadd_nonneg.
Qed.

Lemma SFmul_nonneg_or_nan (x y : spec_float) :
  nonneg_or_nan x -> nonneg_or_nan y -> nonneg_or_nan (SFmul prec emax x y).
Proof.
  destruct x as [sx|sx| |sx mx ex], y as [sy|sy| |sy my ey]; simpl; try done.
  - by intros -> ->.
  - by intros -> ->.
  - by intros -> ->.
  - intros -> ->. simpl.
    pose proof (rounded_nonneg prec emax (Zpos (mx * my)) (ex + ey) loc_Exact
                  ltac:(lia)) as H.
    by destruct (binary_round_aux prec emax false (Zpos (mx * my)) (ex + ey) loc_Exact).
Qed.

Lemma max_zero_sign (x : float) : nonneg_or_nan (Prim2SF (max 0 x)).
Proof.
  unfold max. change (is_nan 0) with false. simpl.
  destruct (is_nan x); [done|].
  destruct (0 <? x) eqn:E.
  - rewrite FloatAxioms.ltb_spec in E.
    replace (Prim2SF 0) with (S754_zero false) in E by reflexivity.
    by destruct (Prim2SF x) as [s|[|]| |[|] m e].
  - by destruct (x <? 0).
Qed.

Lemma orZero_nonneg (t : float) : nonneg_or_nan (Prim2SF t) -> nonneg (Prim2SF (orZero t)).
Proof.
  intros H. unfold orZero. destruct (is_nan t) eqn:E; simpl; [done|].
  destruct (is_zero t); [done|].
  apply not_nan in E. by destruct (Prim2SF t).
Qed.

(** *** Rows whose numbers are in range *)

Lemma SFcompare_refl (x : spec_float) : x <> S754_nan -> SFcompare x x = Some Eq.
Proof.
  destruct x as [s|[|]| |[|] m e]; simpl; try done; intros _.
  - by rewrite Z.compare_refl, Pos.compare_cont_refl.
  - by rewrite Z.compare_refl, Pos.compare_cont_refl.
Qed.

Lemma is_nan_false (x : float) : Prim2SF x <> S754_nan -> is_nan x = false.
Proof.
  intros H. unfold is_nan. rewrite FloatAxioms.eqb_spec. unfold SFeqb.
  by rewrite SFcompare_refl.
Qed.

Lemma is_zero_spec (x : float) :
  is_zero x = true -> exists s, Prim2SF x = S754_zero s.
Proof.
  unfold is_zero. rewrite FloatAxioms.eqb_spec.
  replace (Prim2SF zero) with (S754_zero false) by reflexivity.
  destruct (Prim2SF x) as [s|[|]| |[|] m e]; simpl; try done. by exists s.
Qed.

(** On a number with the sign bit clear, [|| 0] does nothing. *)
Lemma orZero_unsigned (x : float) : unsigned (Prim2SF x) -> orZero x = x.
Proof.
  intros H. unfold orZero.
  rewrite is_nan_false by (by destruct (Prim2SF x)). simpl.
  destruct (is_zero x) eqn:E; [|done].
  apply is_zero_spec in E as [s Hs]. rewrite Hs in H. simpl in H. subst s.
  apply Prim2SF_inj. by rewrite Hs.
Qed.

Lemma kept_unsigned (x : float) :
  orZero x = x -> (0 <=? x) = true -> unsigned (Prim2SF x).
Proof.
  intros Hkept Hle. apply leb_zero in Hle.
  destruct (Prim2SF x) as [[|]| | |] eqn:E; simpl in *; try done.
  exfalso. unfold orZero in Hkept.
  assert (Hz : is_zero x = true).
  { unfold is_zero. rewrite FloatAxioms.eqb_spec, E. reflexivity. }
  rewrite Hz, orb_true_r in Hkept. rewrite <- Hkept in E. vm_compute in E. discriminate.
Qed.

Lemma SFmul_unsigned (x y : spec_float) :
  finite_nonneg x -> finite_nonneg y -> unsigned x -> unsigned y ->
  unsigned (SFmul prec emax x y).
Proof.
  destruct x as [sx|sx| |sx mx ex], y as [sy|sy| |sy my ey]; simpl; try done.
  - by intros _ _ -> ->.
  - by intros _ _ -> ->.
  - by intros _ _ -> ->.
  - intros _ _ -> ->. simpl.
    pose proof (binary_round_aux_sign prec emax false (Zpos (mx * my)) (ex + ey)
                  loc_Exact ltac:(lia)) as H.
    by destruct (binary_round_aux prec emax false (Zpos (mx * my)) (ex + ey) loc_Exact).
Qed.

(** With quantities in range, the quantity to buy is finite, not
    negative and not [-0]. *)
Lemma buy_in_range (n o : float) :
  inRange n = true -> inRange o = true ->
  finite_nonneg (Prim2SF (max 0 (n - o))) /\ unsigned (Prim2SF (max 0 (n - o))).
Proof.
  unfold inRange. rewrite !andb_true_iff. intros [Hn Hnf] [Ho Hof].
  pose proof (finite_float n Hn Hnf) as Hfn.
  assert (Hle : (n - o <=? n) = true).
  { apply sub_le; [done|]. by apply leb_zero. }
  unfold max. change (is_nan 0) with false. simpl.
  rewrite is_nan_false.
  2: { rewrite FloatAxioms.leb_spec in Hle. by destruct (Prim2SF (n - o)). }
  destruct (0 <? n - o) eqn:Hpos.
  - rewrite FloatAxioms.ltb_spec in Hpos. rewrite FloatAxioms.leb_spec in Hle.
    replace (Prim2SF 0) with (S754_zero false) in Hpos by reflexivity.
    destruct (Prim2SF (n - o)) as [s|[|]| |[|] m e]; simpl in *; try done.
    by destruct (Prim2SF n) as [?|[|]| |[|] ? ?].
  - by destruct (n - o <? 0).
Qed.

(** In a row that the editor keeps, with numbers in range, the product
    is not falsy unless it is [0]. *)
Lemma product_in_range (item : QuoteItem) :
  kept item ->
  inRange (unit_price item) = true ->
  inRange (needed_quantity item) = true ->
  inRange (owned_quantity item) = true ->
  orZero (max 0 (needed_quantity item - owned_quantity item) * unit_price item)
  = max 0 (needed_quantity item - owned_quantity item) * unit_price item.
Proof.
  intros (Hp & _) Hprice Hn Ho. apply orZero_unsigned.
  destruct (buy_in_range _ _ Hn Ho) as [Hfin Hsign].
  unfold inRange in Hprice. apply andb_true_iff in Hprice as [Hlo Hhi].
  rewrite FloatAxioms.mul_spec. apply SFmul_unsigned; [done| |done|].
  - by apply finite_float.
  - by apply kept_unsigned.
Qed.

Lemma sum_in_range (items : list QuoteItem) :
  Forall kept items ->
  Forall (fun item =>
            inRange (unit_price item) && inRange (needed_quantity item)
            && inRange (owned_quantity item) = true) items ->
  forall start,
    fold_left (fun sum item => sum + orZero (QuoteItem.total item)) items start
    = fold_left
        (fun sum item =>
           sum + max 0 (needed_quantity item - owned_quantity item) * unit_price item)
        items start.
Proof.
  induction 1 as [|item items Hkept _ IH]; intros Hrange start; [reflexivity|].
  inversion Hrange as [|? ? Hitem Hrest]; subst.
  apply andb_true_iff in Hitem as [Hitem Ho]. apply andb_true_iff in Hitem as [Hp Hn].
  simpl. rewrite IH by done. f_equal. f_equal.
  destruct Hkept as (H1 & H2 & H3 & Hbuy & Htotal).
  rewrite Htotal, Hbuy. apply product_in_range; [|done|done|done].
  by repeat split.
Qed.

Lemma priced (items : list QuoteItem) (discount : float) :
  maintained items ->
  Forall (fun item =>
            buy_quantity item = max 0 (needed_quantity item - owned_quantity item) /\
            (buy_quantity item <? 0) = false /\
            QuoteItem.total item = buy_quantity item * unit_price item)
         items /\
  subtotal (QuoteSummary items discount)
  = fold_left
      (fun sum item =>
         sum + orZero (max 0 (needed_quantity item - owned_quantity item)
                       * unit_price item))
      items 0 /\
  (Forall (fun item =>
             inRange (unit_price item) && inRange (needed_quantity item)
             && inRange (owned_quantity item) = true) items ->
   subtotal (QuoteSummary items discount)
   = fold_left
       (fun sum item =>
          sum + max 0 (needed_quantity item - owned_quantity item) * unit_price item)
       items 0).
Proof.
  intros Hm. pose proof (maintained_kept items Hm) as Hall. split; [|split].
  - eapply Forall_impl; [exact Hall|].
    intros item (_ & _ & _ & Hbuy & Htotal). split; [done|]. split; [|done].
    rewrite Hbuy. apply max_zero_not_negative.
  - simpl. unfold sumTotals. by apply sum_of_kept.
  - intros Hrange. simpl. unfold sumTotals. by apply sum_in_range.
Qed.

(** In a maintained list with no negative price the subtotal is not
    negative ([Infinity] at most). *)
Lemma sum_nonneg (items : list QuoteItem) :
  Forall kept items ->
  Forall (fun item => (0 <=? unit_price item) = true) items ->
  forall start,
    nonneg (Prim2SF start) ->
    nonneg (Prim2SF (fold_left (fun sum item => sum + orZero (QuoteItem.total item))
                       items start)).
Proof.
  induction 1 as [|item items (_ & _ & _ & Hbuy & Htotal) _ IH];
    intros Hprices start Hstart; [done|].
  inversion Hprices as [|? ? Hprice Hrest]; subst.
  simpl. apply IH; [done|]. apply add_nonneg; [done|]. apply orZero_nonneg.
  rewrite Htotal, Hbuy, FloatAxioms.mul_spec. apply SFmul_nonneg_or_nan.
  - apply max_zero_sign.
  - apply leb_zero in Hprice. by destruct (Prim2SF (unit_price item)).
Qed.

Lemma subtotal_nonneg (items : list QuoteItem) :
  maintained items ->
  Forall (fun item => (0 <=? unit_price item) = true) items ->
  (0 <=? sumTotals items) = true.
Proof.
  intros Hm Hprices. apply leb_zero. unfold sumTotals.
  apply sum_nonneg; [by apply maintained_kept|done|done].
Qed.

(** *** Overflow *)

(** Once the subtotal is [Infinity], the share of a discount that is not
    negative is [NaN] or [Infinity], and the total is [NaN]. *)
Lemma overflowed_total (d : float) :
  (0 <=? d) = true -> infinity - infinity * d / 100 = nan.
Proof.
  intros Hd. apply Prim2SF_inj.
  rewrite FloatAxioms.sub_spec, FloatAxioms.div_spec, FloatAxioms.mul_spec.
  rewrite FloatAxioms.leb_spec in Hd.
  destruct (Prim2SF d) as [s|s| |s m e]; try destruct s; try done.
Qed.

Lemma overflowed_total_printed (d : float) :
  (0 <=? d) = true -> infinity - infinity * orZero d / 100 = nan.
Proof.
  intros Hd. unfold orZero.
  destruct (is_nan d || is_zero d); [reflexivity|by apply overflowed_total].
Qed.

(** The total against the subtotal, for a subtotal that is not negative
    and a discount in [0,100]: the total is not above the subtotal
    exactly when the subtotal is finite. *)
Lemma bound_iff_finite (s d : float) :
  (0 <=? s) = true ->
  (0 <=? d) = true ->
  (d <=? 100) = true ->
  (s - s * d / 100 <=? s) = (s <? infinity).
Proof.
  intros Hs Hlo Hhi. destruct (s <? infinity) eqn:Hfin.
  - pose proof (finite_float s Hs Hfin) as Hsf.
    apply sub_le; [done|]. apply share_nonneg; [done|by apply percent_finite].
  - rewrite (infinity_only s Hs Hfin). by rewrite (overflowed_total d Hlo).
Qed.

Lemma totals (items : list QuoteItem) (d : float) :
  maintained items ->
  Forall (fun item => (0 <=? unit_price item) = true) items ->
  (0 <=? d) = true ->
  (d <=? 100) = true ->
  let shown := QuoteSummary items d in
  let printed := calculateTotals items d in
  Ieee.total shown = subtotal shown - subtotal shown * d / 100 /\
  Ieee.total printed = subtotal printed - subtotal printed * orZero d / 100 /\
  (Ieee.total shown <=? subtotal shown) = (subtotal shown <? infinity) /\
  (Ieee.total printed <=? subtotal printed) = (subtotal printed <? infinity) /\
  (subtotal shown = infinity -> Ieee.total shown = nan /\ Ieee.total printed = nan).
Proof.
  intros Hm Hprices Hlo Hhi shown printed.
  pose proof (subtotal_nonneg items Hm Hprices) as Hs.
  destruct (orZero_percent d Hlo Hhi) as [Hlo' Hhi'].
  split; [reflexivity|]. split; [reflexivity|].
  split; [by apply bound_iff_finite|]. split; [by apply bound_iff_finite|].
  unfold shown, printed; simpl. intros ->.
  by rewrite (overflowed_total d Hlo), (overflowed_total_printed d Hlo).
Qed.

(** C4 as stated fails: with one row priced at 1e308 and 10 needed the
    subtotal is [Infinity]; at discount 10 the share of the discount is
    [Infinity] as well, the total is [NaN], and [total <= subtotal] is
    false. *)
Lemma overflowed_subtotal_breaks_the_bound :
  ~ (forall (items : list QuoteItem) (d : float),
       maintained items ->
       Forall (fun item => (0 <=? unit_price item) = true) items ->
       (0 <=? d) = true -> (d <=? 100) = true ->
       Ieee.total (QuoteSummary items d)
         = subtotal (QuoteSummary items d) - subtotal (QuoteSummary items d) * d / 100 /\
       (Ieee.total (QuoteSummary items d) <=? subtotal (QuoteSummary items d)) = true).
Proof.
  intros H.
  destruct (H hugeItems 10 huge_maintained) as [_ Hle];
    [by repeat constructor|reflexivity|reflexivity|].
  vm_compute in Hle. discriminate.
Qed.

(** C3: in every list that the item editor has built, each row has
    [buy_quantity = Math.max(0, needed_quantity - owned_quantity)], which
    is never below 0, and [total = buy_quantity * unit_price]; and the
    subtotal of the summary is the sum over the rows, taken from 0 in
    the order of the list, of [max(0, needed - owned) * price], where
    a product that is [NaN] counts as 0; with prices and quantities that
    are finite and not negative no product is [NaN], and the subtotal
    is that sum as it stands.  Every operation is the one of the
    doubles. *)
Theorem maintained_list_is_priced (items : list QuoteItem) (discount : float) :
  maintained items ->
  Forall (fun item =>
            buy_quantity item = max 0 (needed_quantity item - owned_quantity item) /\
            (buy_quantity item <? 0) = false /\
            QuoteItem.total item = buy_quantity item * unit_price item)
         items /\
  subtotal (QuoteSummary items discount)
  = fold_left
      (fun sum item =>
         sum + orZero (max 0 (needed_quantity item - owned_quantity item)
                       * unit_price item))
      items 0 /\
  (Forall (fun item =>
             inRange (unit_price item) && inRange (needed_quantity item)
             && inRange (owned_quantity item) = true) items ->
   subtotal (QuoteSummary items discount)
   = fold_left
       (fun sum item =>
          sum + max 0 (needed_quantity item - owned_quantity item) * unit_price item)
       items 0).
Proof. apply priced. Qed.

Lemma maintained_list_is_priced_witness :
  Forall (fun item =>
            buy_quantity item = max 0 (needed_quantity item - owned_quantity item) /\
            (buy_quantity item <? 0) = false /\
            QuoteItem.total item = buy_quantity item * unit_price item)
         tenthsItems /\
  subtotal (QuoteSummary tenthsItems 10)
  = fold_left
      (fun sum item =>
         sum + orZero (max 0 (needed_quantity item - owned_quantity item)
                       * unit_price item))
      tenthsItems 0 /\
  subtotal (QuoteSummary tenthsItems 10)
  = fold_left
      (fun sum item =>
         sum + max 0 (needed_quantity item - owned_quantity item) * unit_price item)
      tenthsItems 0.
Proof.
  destruct (maintained_list_is_priced tenthsItems 10) as (Hrows & Hsum & Hrange).
  { exists tenths. reflexivity. }
  split; [exact Hrows|]. split; [exact Hsum|]. apply Hrange. repeat constructor.
Defined.

(** C4, amended: for a list that the editor has built with no negative
    price and a discount in [0,100], the total is
    [subtotal - subtotal * discount / 100] in the summary of the editor
    and in the PDF generator (which reads [discount || 0]), every
    operation being the one of the doubles; and [total <= subtotal]
    holds exactly when the subtotal is finite.  A subtotal that has
    overflowed to [Infinity] gives the total [NaN]. *)
Theorem total_formula_and_bound (items : list QuoteItem) (d : float) :
  maintained items ->
  Forall (fun item => (0 <=? unit_price item) = true) items ->
  (0 <=? d) = true ->
  (d <=? 100) = true ->
  let shown := QuoteSummary items d in
  let printed := calculateTotals items d in
  Ieee.total shown = subtotal shown - subtotal shown * d / 100 /\
  Ieee.total printed = subtotal printed - subtotal printed * orZero d / 100 /\
  (Ieee.total shown <=? subtotal shown) = (subtotal shown <? infinity) /\
  (Ieee.total printed <=? subtotal printed) = (subtotal printed <? infinity) /\
  (subtotal shown = infinity -> Ieee.total shown = nan /\ Ieee.total printed = nan).
Proof. apply totals. Qed.

Lemma total_formula_and_bound_witness :
  let shown := QuoteSummary tenthsItems 10 in
  let printed := calculateTotals tenthsItems 10 in
  Ieee.total shown = subtotal shown - subtotal shown * 10 / 100 /\
  Ieee.total printed = subtotal printed - subtotal printed * orZero 10 / 100 /\
  (Ieee.total shown <=? subtotal shown) = (subtotal shown <? infinity) /\
  (Ieee.total printed <=? subtotal printed) = (subtotal printed <? infinity) /\
  (subtotal shown = infinity -> Ieee.total shown = nan /\ Ieee.total printed = nan).
Proof.
  apply (total_formula_and_bound tenthsItems 10);
    [exists tenths; reflexivity
    |repeat constructor
    |reflexivity
    |reflexivity].
Defined.

End IeeeFacts.

(* ===================================================================== *)
(** ** Further properties of the gate and the storage *)
(* ===================================================================== *)

Module GateProps.
Import Js Server Examples Routes Client MoreExamples Interleaving.
Import GateFacts CounterFacts InterleavingFacts.

(** The read-only check and the gate never disagree: the gate calls
    [next()] exactly when check-pdf-access answers [canGenerate: true],
    for every storage (failing ones included) and every caller. *)
Theorem check_predicts_gate (st : Storage) (claims : Claims) :
  requireSubscriptionOrFreeTrial st claims = Next <->
  property "canGenerate" (body (checkPdfAccess st claims)) = Some (JBool true).
Proof.
  unfold requireSubscriptionOrFreeTrial, checkPdfAccess.
  destruct (getUser st (sub claims)) as [[user|]|e]; simpl.
  - destruct (isAdminAnyCase user); [done|].
    destruct (truthy (hasActiveSubscription user)); [done|].
    destruct (isZero (freeDownloadsUsed user)); simpl; split; congruence.
  - split; discriminate.
  - destruct (includes "DATABASE_URL is not set" (errorText e)); simpl;
      split; congruence.
Qed.

Lemma track_subscriber (db : Db) (claims : Claims) (user : User) :
  users db !! sub claims = Some user ->
  truthy (hasActiveSubscription user) = true ->
  trackPdfDownload (Connected db) claims =
    (Connected db,
     json 200
       (JObj [ ("success", JBool true);
               ("message", JStr "PDF generated successfully");
               ("freeDownloadsUsed", jOptNum (freeDownloadsUsed user)) ])).
Proof.
  intros Hrow Hsub. unfold trackPdfDownload, requireSubscriptionOrFreeTrial.
  rewrite (getUser_stored Hrow), Hsub.
  rewrite (handler_leaves Hrow) by auto.
  by destruct (isAdminAnyCase user).
Qed.

(** A user with an active subscription can download any number of times:
    every request is answered with 200 and the storage stays exactly as
    it was. *)
Theorem subscriber_downloads_freely (db : Db) (claims : Claims) (user : User) (n : nat) :
  users db !! sub claims = Some user ->
  truthy (hasActiveSubscription user) = true ->
  run (replicate n (TrackPdfDownload claims)) (Connected db) = Connected db /\
  status (snd (trackPdfDownload (Connected db) claims)) = 200%Z.
Proof.
  intros Hrow Hsub. split.
  - induction n as [|n IH]; [done|]. simpl.
    unfold run in IH |- *. simpl.
    by rewrite (track_subscriber db claims user Hrow Hsub).
  - by rewrite (track_subscriber db claims user Hrow Hsub).
Qed.

Lemma subscriber_downloads_freely_witness :
  run (replicate 3 (TrackPdfDownload subscriberClaims)) (Connected db1) = Connected db1 /\
  status (snd (trackPdfDownload (Connected db1) subscriberClaims)) = 200%Z.
Proof.
  apply (subscriber_downloads_freely db1 subscriberClaims subscriber 3); reflexivity.
Defined.

(** The cached subscription flag decides for a user whose free download is
    spent: once the webhook has stored the status of the subscription, the
    download is answered with 200 when the status is 'active' or
    'trialing' and with 402 otherwise, and the counter is not touched
    either way. *)
Theorem webhook_status_decides (db : Db) (claims : Claims) (user : User) (n : Z)
    (stripeStatus : string) :
  users db !! sub claims = Some user ->
  isAdminAnyCase user = false ->
  freeDownloadsUsed user = Some n ->
  n <> 0%Z ->
  let st := perform (StripeWebhook (sub claims) (isActive stripeStatus)) (Connected db) in
  status (snd (trackPdfDownload st claims))
    = (if isActive stripeStatus then 200%Z else 402%Z) /\
  counterOf (fst (trackPdfDownload st claims)) (sub claims) = Some (Some n).
Proof.
  intros Hrow Hadmin Hn Hnz st.
  assert (Hst : st = Connected (setUsers db
                   (<[sub claims := withSubscription (isActive stripeStatus) user]>
                      (users db)))).
  { unfold st; simpl. unfold updateRow. by rewrite Hrow. }
  rewrite Hst.
  set (db' := setUsers db _).
  assert (Hrow' : users db' !! sub claims
                  = Some (withSubscription (isActive stripeStatus) user))
    by (unfold db'; simpl; apply lookup_insert_eq).
  assert (Hz : isZero (Some n) = false) by (simpl; by apply Z.eqb_neq).
  destruct (isActive stripeStatus) eqn:Hactive.
  - rewrite (track_subscriber db' claims _ Hrow') by done. simpl.
    split; [done|]. unfold counterOf; simpl. rewrite lookup_insert_eq. simpl.
    by rewrite Hn.
  - unfold trackPdfDownload, requireSubscriptionOrFreeTrial.
    rewrite (getUser_stored Hrow').
    replace (isAdminAnyCase (withSubscription false user)) with false by done.
    simpl. rewrite Hn, Hz. simpl. split; [done|].
    unfold counterOf; simpl. rewrite lookup_insert_eq. simpl. by rewrite Hn.
Qed.

Lemma webhook_status_decides_witness :
  let st := perform (StripeWebhook (sub spentClaims) (isActive "past_due")) (Connected db0) in
  status (snd (trackPdfDownload st spentClaims))
    = (if isActive "past_due" then 200%Z else 402%Z) /\
  counterOf (fst (trackPdfDownload st spentClaims)) (sub spentClaims) = Some (Some 1%Z).
Proof.
  apply (webhook_status_decides db0 spentClaims spent 1%Z "past_due");
    [reflexivity | reflexivity | reflexivity | discriminate].
Defined.

(** The free download can be handed out twice: the gate, the handler
    and the increment are three awaits, so two downloads that a user on
    the free trial starts at once both read the counter at 0, both are
    answered with 200 and the message of the free trial, and the counter
    ends at 2. *)
Theorem concurrent_downloads_use_the_trial_twice (db : Db) (claims : Claims) (user : User) :
  users db !! sub claims = Some user ->
  truthy (hasActiveSubscription user) = false ->
  freeDownloadsUsed user = Some 0%Z ->
  exists st',
    reachable (Connected db) st' [Answered trialUsed; Answered trialUsed] /\
    counterOf st' (sub claims) = Some (Some 2%Z).
Proof. apply two_downloads_at_once. Qed.

Lemma concurrent_downloads_use_the_trial_twice_witness :
  exists st',
    reachable (Connected db0) st' [Answered trialUsed; Answered trialUsed] /\
    counterOf st' (sub freshClaims) = Some (Some 2%Z).
Proof.
  apply (concurrent_downloads_use_the_trial_twice db0 freshClaims fresh); reflexivity.
Defined.

(** However the requests interleave and whichever statements are
    rejected, the counter of an existing row never goes down as long as
    no admin update that writes the counter is in flight. *)
Theorem counter_monotone_under_interleaving (c c' : Storage * list Request)
    (id : string) (u : User) (n : Z) :
  rtc quietStep c c' ->
  Forall onTrial (snd c) ->
  Forall (fun rq => writesCounter rq = false) (snd c) ->
  rowOf (fst c) id = Some u ->
  freeDownloadsUsed u = Some n ->
  exists u' n',
    rowOf (fst c') id = Some u' /\ freeDownloadsUsed u' = Some n' /\ (n <= n')%Z.
Proof. intros H. by apply (counter_never_decreases c c' H). Qed.

Lemma counter_monotone_under_interleaving_witness :
  exists u' n',
    rowOf (fst (Connected db0, [AtGate freshClaims])) "user-2" = Some u' /\
    freeDownloadsUsed u' = Some n' /\ (1 <= n')%Z.
Proof.
  apply (counter_monotone_under_interleaving
           (Connected db0, []) (Connected db0, [AtGate freshClaims]) "user-2" spent 1%Z);
    [|constructor|constructor|reflexivity|reflexivity].
  apply rtc_once. split; [exact (arrives _ [] (AtGate freshClaims) eq_refl)|].
  repeat constructor.
Defined.



End GateProps.

(* ===================================================================== *)
(** ** Further properties of the user rows *)
(* ===================================================================== *)

Module UserProps.
Import Js Server Examples Routes Client MoreExamples Interleaving.
Import GateFacts CounterFacts InterleavingFacts.

Lemma upsert_keeps_rows (st : Storage) (id : string) (mail : option string)
    (r : Result (Storage * User)) (other : string) (u : User) :
  delivers (upsertUser st id mail) r ->
  rowOf st other = Some u ->
  exists u',
    rowOf (stateOf st r) other = Some u' /\
    role u' = role u /\
    freeDownloadsUsed u' = freeDownloadsUsed u /\
    hasActiveSubscription u' = hasActiveSubscription u /\
    stripeCustomerId u' = stripeCustomerId u /\
    stripeSubscriptionId u' = stripeSubscriptionId u /\
    (other <> id -> u' = u).
Proof.
  intros [|e] Hrow; [|by exists u].
  destruct st as [db|e]; [|done]. simpl in Hrow |- *.
  destruct (decide (id = other)) as [->|Hne].
  - rewrite lookup_insert_eq, Hrow. eexists. split; [done|].
    destruct mail; by repeat split.
  - rewrite lookup_insert_ne by done. exists u. by repeat split.
Qed.

Lemma upsert_creates_trial_row (st : Storage) (id : string) (mail : option string)
    (r : Result (Storage * User)) (a : Storage * User) :
  delivers (upsertUser st id mail) r ->
  rowOf st id = None ->
  r = Ok a ->
  let st' := stateOf st r in
  rowOf st' id = Some (mkUser id mail (Some "user") None None (Some 0%Z) (Some false)) /\
  forall address,
    trackPdfDownload st' (mkClaims id address)
    = (fst (trackPdfDownload st' (mkClaims id address)), trialUsed) /\
    counterOf (fst (trackPdfDownload st' (mkClaims id address))) id = Some (Some 1%Z).
Proof.
  intros [|e] Hnone Hok st'; [|done].
  destruct st as [db|e]; [|done]. simpl in Hnone.
  unfold st'; simpl. rewrite Hnone. simpl. rewrite lookup_insert_eq.
  split; [done|]. intros address.
  set (row := mkUser id mail (Some "user") None None (Some 0%Z) (Some false)).
  set (db' := setUsers db (<[id := row]> (users db))).
  assert (Hrow : users db' !! sub (mkClaims id address) = Some row)
    by (unfold db'; simpl; apply lookup_insert_eq).
  assert (Htrack : trackPdfDownload (Connected db') (mkClaims id address)
                   = trackPdfDownloadHandler (Connected db') (mkClaims id address)).
  { unfold trackPdfDownload, requireSubscriptionOrFreeTrial.
    by rewrite (getUser_stored Hrow). }
  rewrite Htrack, (handler_counts Hrow) by done. simpl.
  split; [done|]. unfold counterOf; simpl. by rewrite lookup_insert_eq.
Qed.

(** A login never changes what a user is entitled to.  Whether the
    upsert of the login callback is accepted or rejected, every row that
    was there keeps its role, its counter, its subscription flag and its
    Stripe ids, and only the row of the user who logs in can change at
    all; when the upsert creates the row, the row has the free download
    available, so that the first download of the new user, handled on
    its own, is served and counted. *)
Theorem login_keeps_entitlement (st : Storage) (id : string) (mail : option string)
    (r : Result (Storage * User)) :
  delivers (upsertUser st id mail) r ->
  let st' := stateOf st r in
  (forall other u,
     rowOf st other = Some u ->
     exists u',
       rowOf st' other = Some u' /\
       role u' = role u /\
       freeDownloadsUsed u' = freeDownloadsUsed u /\
       hasActiveSubscription u' = hasActiveSubscription u /\
       stripeCustomerId u' = stripeCustomerId u /\
       stripeSubscriptionId u' = stripeSubscriptionId u /\
       (other <> id -> u' = u)) /\
  (forall a,
     rowOf st id = None ->
     r = Ok a ->
     rowOf st' id = Some (mkUser id mail (Some "user") None None (Some 0%Z) (Some false)) /\
     forall address,
       trackPdfDownload st' (mkClaims id address)
       = (fst (trackPdfDownload st' (mkClaims id address)), trialUsed) /\
       counterOf (fst (trackPdfDownload st' (mkClaims id address))) id = Some (Some 1%Z)).
Proof.
  intros Hr st'. split.
  - intros other u. by apply (upsert_keeps_rows st id mail r).
  - intros a Hnone Hok. by apply (upsert_creates_trial_row st id mail r a).
Qed.

Lemma login_keeps_entitlement_witness :
  let st' := stateOf (Connected db0)
               (upsertUser (Connected db0) "user-9" (Some "user9@example.com")) in
  rowOf st' "user-9"
  = Some (mkUser "user-9" (Some "user9@example.com") (Some "user") None None (Some 0%Z)
            (Some false)) /\
  exists u', rowOf st' "user-2" = Some u' /\ freeDownloadsUsed u' = Some 1%Z.
Proof.
  destruct (login_keeps_entitlement (Connected db0) "user-9" (Some "user9@example.com") _
              (Accepted _)) as [Hkept Hnew].
  split.
  - destruct (Hnew _ eq_refl eq_refl) as [Hrow _]. exact Hrow.
  - destruct (Hkept "user-2" spent eq_refl) as (u' & Hrow & _ & Hcount & _).
    exists u'. split; [exact Hrow|exact Hcount].
Defined.

Lemma lower_admin (r : option string) :
  toLowerCase (orEmpty r) <> "admin" -> r <> Some "admin".
Proof. intros H ->. by apply H. Qed.

Lemma setRole_lookup (db : Db) (id : string) (r : option string) :
  users (setRole id r db) !! id = withRole r <$> users db !! id.
Proof. unfold setRole; simpl. by rewrite lookup_alter_eq. Qed.

Lemma tests_of_plain_role (r : option string) (u : User) :
  toLowerCase (orEmpty r) <> "admin" ->
  isAdminAnyCase (withRole r u) = false /\ roleIsNotAdmin (Some (withRole r u)) = true.
Proof.
  intros H. split.
  - unfold isAdminAnyCase; simpl. by apply String.eqb_neq.
  - unfold roleIsNotAdmin; simpl. destruct r as [r|]; [|done].
    apply negb_true_iff, String.eqb_neq. intros ->. by apply H.
Qed.

Lemma alter_missing (db : Db) (id : string) (r1 r2 : option string) :
  users db !! id = None -> setRole id r1 db = setRole id r2 db.
Proof.
  intros Hnone. unfold setRole. f_equal. apply map_eq. intros k.
  destruct (decide (id = k)) as [<-|Hne].
  - by rewrite !lookup_alter_eq, Hnone.
  - by rewrite !lookup_alter_ne.
Qed.

(** With a role that is not 'admin' in any casing, the routes answer as
    they do for a row without a role. *)
Lemma plain_role_baseline (db : Db) (claims : Claims) (u : User) (r : option string)
    (quote target : string) (data : UserPatch) :
  users db !! sub claims = Some u ->
  toLowerCase (orEmpty r) <> "admin" ->
  let st := Connected (setRole (sub claims) r db) in
  let st0 := Connected (setRole (sub claims) None db) in
  checkPdfAccess st claims = checkPdfAccess st0 claims /\
  snd (trackPdfDownload st claims) = snd (trackPdfDownload st0 claims) /\
  counterOf (fst (trackPdfDownload st claims)) (sub claims)
    = counterOf (fst (trackPdfDownload st0 claims)) (sub claims) /\
  getQuote st claims quote = getQuote st0 claims quote /\
  snd (deleteQuote st claims quote) = snd (deleteQuote st0 claims quote) /\
  snd (adminUpdateUser st claims target data)
    = snd (adminUpdateUser st0 claims target data).
Proof.
  intros Hu Hr st st0.
  assert (Hrow : users (setRole (sub claims) r db) !! sub claims = Some (withRole r u))
    by (by rewrite setRole_lookup, Hu).
  assert (Hrow0 : users (setRole (sub claims) None db) !! sub claims
                  = Some (withRole None u))
    by (by rewrite setRole_lookup, Hu).
  destruct (tests_of_plain_role r u Hr) as [Hpdf Hstrict].
  assert (Hr0 : toLowerCase (orEmpty None) <> "admin") by discriminate.
  destruct (tests_of_plain_role None u Hr0) as [Hpdf0 Hstrict0].
  assert (Hgate : requireSubscriptionOrFreeTrial st claims
                  = requireSubscriptionOrFreeTrial st0 claims).
  { unfold st, st0, requireSubscriptionOrFreeTrial.
    by rewrite (getUser_stored Hrow), (getUser_stored Hrow0), Hpdf, Hpdf0. }
  split.
  { unfold st, st0, checkPdfAccess.
    by rewrite (getUser_stored Hrow), (getUser_stored Hrow0), Hpdf, Hpdf0. }
  assert (Htrack :
    snd (trackPdfDownload st claims) = snd (trackPdfDownload st0 claims) /\
    counterOf (fst (trackPdfDownload st claims)) (sub claims)
      = counterOf (fst (trackPdfDownload st0 claims)) (sub claims)).
  { unfold trackPdfDownload. rewrite Hgate.
    destruct (requireSubscriptionOrFreeTrial st0 claims) as [|answer].
    2: { split; [done|]. unfold st, st0.
         cbv beta iota delta [fst snd counterOf rowOf].
         by rewrite Hrow, Hrow0. }
    unfold st, st0.
    destruct (truthy (hasActiveSubscription u)) eqn:Hs.
    { rewrite (handler_leaves Hrow), (handler_leaves Hrow0) by (by left).
      split; [done|]. cbv beta iota delta [fst snd counterOf rowOf].
      by rewrite Hrow, Hrow0. }
    destruct (isZero (freeDownloadsUsed u)) eqn:Hz.
    2: { rewrite (handler_leaves Hrow), (handler_leaves Hrow0) by (by right).
         split; [done|]. cbv beta iota delta [fst snd counterOf rowOf].
         by rewrite Hrow, Hrow0. }
    assert (Hzero : freeDownloadsUsed u = Some 0%Z).
    { destruct (freeDownloadsUsed u) as [z|]; [|done].
      simpl in Hz. apply Z.eqb_eq in Hz. by subst z. }
    rewrite (handler_counts Hrow), (handler_counts Hrow0) by done.
    split; [done|]. unfold counterOf; simpl. by rewrite !lookup_insert_eq. }
  destruct Htrack as [Hanswer Hcounter].
  split; [done|]. split; [done|].
  assert (Hdrafts : forall r', quoteDrafts (setRole (sub claims) r' db) = quoteDrafts db)
    by done.
  split.
  { unfold st, st0, getQuote, getQuoteDraft, getQuoteItems, getUser, withDb.
    rewrite !Hdrafts.
    destruct (quoteDrafts db !! quote) as [q|]; [|done].
    cbv beta iota zeta. by rewrite Hrow, Hrow0, Hstrict, Hstrict0. }
  split.
  { unfold st, st0, deleteQuote, getQuoteDraft, deleteQuoteDraft, getUser, withDb.
    rewrite !Hdrafts.
    destruct (quoteDrafts db !! quote) as [q|]; [|done].
    cbv beta iota zeta. rewrite Hrow, Hrow0, Hstrict, Hstrict0.
    by destruct (negb (String.eqb (createdBy q) (claimsEmail claims))). }
  unfold st, st0, adminUpdateUser.
  by rewrite (getUser_stored Hrow), (getUser_stored Hrow0), Hstrict, Hstrict0.
Qed.

(** The server reads the role only to tell admins apart: whatever role a
    caller has that is not 'admin' in some casing ('user', 'banned',
    'deleted', none at all), check-pdf-access, track-pdf-download, the
    quote routes and the admin routes answer the same. *)
Theorem only_admin_role_matters (db : Db) (claims : Claims) (r1 r2 : option string)
    (quote : string) (target : string) (data : UserPatch) :
  toLowerCase (orEmpty r1) <> "admin" ->
  toLowerCase (orEmpty r2) <> "admin" ->
  let st1 := Connected (setRole (sub claims) r1 db) in
  let st2 := Connected (setRole (sub claims) r2 db) in
  checkPdfAccess st1 claims = checkPdfAccess st2 claims /\
  snd (trackPdfDownload st1 claims) = snd (trackPdfDownload st2 claims) /\
  counterOf (fst (trackPdfDownload st1 claims)) (sub claims)
    = counterOf (fst (trackPdfDownload st2 claims)) (sub claims) /\
  getQuote st1 claims quote = getQuote st2 claims quote /\
  snd (deleteQuote st1 claims quote) = snd (deleteQuote st2 claims quote) /\
  snd (adminUpdateUser st1 claims target data) = snd (adminUpdateUser st2 claims target data).
Proof.
  intros H1 H2 st1 st2.
  destruct (users db !! sub claims) as [u|] eqn:Hu.
  - destruct (plain_role_baseline db claims u r1 quote target data Hu H1)
      as (A1 & B1 & C1 & D1 & E1 & F1).
    destruct (plain_role_baseline db claims u r2 quote target data Hu H2)
      as (A2 & B2 & C2 & D2 & E2 & F2).
    unfold st1, st2.
    rewrite A1, A2, B1, B2, C1, C2, D1, D2, E1, E2, F1, F2. by repeat split.
  - unfold st1, st2. rewrite (alter_missing db (sub claims) r1 r2 Hu). by repeat split.
Qed.

Lemma only_admin_role_matters_witness :
  let st1 := Connected (setRole (sub bannedClaims) (Some "banned") db1) in
  let st2 := Connected (setRole (sub bannedClaims) (Some "user") db1) in
  checkPdfAccess st1 bannedClaims = checkPdfAccess st2 bannedClaims /\
  snd (trackPdfDownload st1 bannedClaims) = snd (trackPdfDownload st2 bannedClaims) /\
  counterOf (fst (trackPdfDownload st1 bannedClaims)) (sub bannedClaims)
    = counterOf (fst (trackPdfDownload st2 bannedClaims)) (sub bannedClaims) /\
  getQuote st1 bannedClaims "q-1" = getQuote st2 bannedClaims "q-1" /\
  snd (deleteQuote st1 bannedClaims "q-1") = snd (deleteQuote st2 bannedClaims "q-1") /\
  snd (adminUpdateUser st1 bannedClaims "user-1" resetCounter)
    = snd (adminUpdateUser st2 bannedClaims "user-1" resetCounter).
Proof.
  apply (only_admin_role_matters db1 bannedClaims (Some "banned") (Some "user"));
    discriminate.
Defined.

End UserProps.

(* ===================================================================== *)
(** ** Properties of the quote routes *)
(* ===================================================================== *)

Module RouteProps.
Import Js Server Examples Routes Client MoreExamples GateFacts.

Lemma getQuotes_connected (db : Db) (claims : Claims) :
  getQuotes (Connected db) claims =
    Rows (if roleIsNotAdmin (users db !! sub claims)
          then if String.eqb (claimsEmail claims) ""
               then quoteDrafts db
               else filter (fun row => createdBy (snd row) = claimsEmail claims)
                      (quoteDrafts db)
          else quoteDrafts db).
Proof.
  unfold getQuotes, getUser, listQuoteDrafts; simpl.
  destruct (roleIsNotAdmin (users db !! sub claims)); [|done].
  by destruct (String.eqb (claimsEmail claims) "").
Qed.

(** GET /api/quotes for a caller who is not an admin and has an email
    address: a quote is listed exactly when it was created by that
    address. *)
Theorem listing_shows_own_quotes (db : Db) (claims : Claims) :
  roleIsNotAdmin (users db !! sub claims) = true ->
  claimsEmail claims <> "" ->
  exists rows,
    getQuotes (Connected db) claims = Rows rows /\
    forall id quote,
      rows !! id = Some quote <->
      quoteDrafts db !! id = Some quote /\ createdBy quote = claimsEmail claims.
Proof.
  intros Hrole Hmail. rewrite getQuotes_connected, Hrole.
  apply String.eqb_neq in Hmail. rewrite Hmail.
  eexists. split; [done|]. intros id quote.
  by rewrite map_lookup_filter_Some.
Qed.

Lemma listing_shows_own_quotes_witness :
  exists rows,
    getQuotes (Connected db1) spentClaims = Rows rows /\
    forall id quote,
      rows !! id = Some quote <->
      quoteDrafts db1 !! id = Some quote /\ createdBy quote = claimsEmail spentClaims.
Proof.
  apply (listing_shows_own_quotes db1 spentClaims); [reflexivity | discriminate].
Defined.

(** GET /api/quotes lists every quote for an admin, and also for a caller
    whose email claim is empty: [listQuoteDrafts] filters only on a truthy
    address.  GET /api/quotes/:id does not share that: the same caller is
    refused with 403 on each listed quote that has a creator. *)
Theorem empty_email_lists_all (db : Db) (claims : Claims) :
  roleIsNotAdmin (users db !! sub claims) = false \/ claimsEmail claims = "" ->
  getQuotes (Connected db) claims = Rows (quoteDrafts db) /\
  (roleIsNotAdmin (users db !! sub claims) = true ->
   forall id quote,
     quoteDrafts db !! id = Some quote ->
     createdBy quote <> "" ->
     getQuote (Connected db) claims id = json 403 (messageBody "Access denied")).
Proof.
  intros H. rewrite getQuotes_connected. split.
  - destruct H as [-> | ->]; [done|]. by destruct (roleIsNotAdmin _).
  - intros Hrole id quote Hquote Hcreator.
    destruct H as [H|Hmail]; [congruence|].
    unfold getQuote, getQuoteDraft, getUser; simpl.
    rewrite Hquote, Hrole, Hmail.
    by destruct (String.eqb_spec (createdBy quote) "").
Qed.

Lemma empty_email_lists_all_witness :
  getQuotes (Connected db1) namelessClaims = Rows (quoteDrafts db1) /\
  (roleIsNotAdmin (users db1 !! sub namelessClaims) = true ->
   forall id quote,
     quoteDrafts db1 !! id = Some quote ->
     createdBy quote <> "" ->
     getQuote (Connected db1) namelessClaims id = json 403 (messageBody "Access denied")).
Proof.
  apply (empty_email_lists_all db1 namelessClaims). right. reflexivity.
Defined.

Lemma deleteQuote_allowed (db : Db) (claims : Claims) (id : string) (quote : QuoteDraft) :
  quoteDrafts db !! id = Some quote ->
  roleIsNotAdmin (users db !! sub claims) = false \/ createdBy quote = claimsEmail claims ->
  deleteQuote (Connected db) claims id =
    (Connected (mkDb (users db) (delete id (quoteDrafts db)) (delete id (quoteItems db))),
     json 200 (messageBody "Quote deleted successfully")).
Proof.
  intros Hquote Hmay. unfold deleteQuote, getQuoteDraft, getUser, deleteQuoteDraft; simpl.
  rewrite Hquote.
  destruct Hmay as [-> | ->]; [done|].
  by rewrite String.eqb_refl, andb_false_r.
Qed.

(** DELETE /api/quotes/:id by the creator or an admin: the answer is 200,
    afterwards the quote and its items are gone for every caller (404),
    and every other quote and every user row is as before. *)
Theorem delete_then_read (db : Db) (claims : Claims) (id : string) (quote : QuoteDraft) :
  quoteDrafts db !! id = Some quote ->
  roleIsNotAdmin (users db !! sub claims) = false \/ createdBy quote = claimsEmail claims ->
  let st := fst (deleteQuote (Connected db) claims id) in
  snd (deleteQuote (Connected db) claims id)
    = json 200 (messageBody "Quote deleted successfully") /\
  (forall anyone,
     getQuote st anyone id = json 404 (messageBody "Quote not found") /\
     getItems st anyone id = json 404 (messageBody "Quote not found")) /\
  (forall anyone other,
     other <> id ->
     getQuote st anyone other = getQuote (Connected db) anyone other /\
     getItems st anyone other = getItems (Connected db) anyone other) /\
  (forall user, rowOf st user = users db !! user).
Proof.
  intros Hquote Hmay st. unfold st.
  rewrite (deleteQuote_allowed db claims id quote Hquote Hmay). simpl.
  split; [done|]. split; [|split; [|done]].
  - intros anyone. unfold getQuote, getItems, getQuoteDraft; simpl.
    by rewrite lookup_delete_eq.
  - intros anyone other Hne.
    unfold getQuote, getItems, getQuoteDraft, getQuoteItems, getUser; simpl.
    by rewrite !lookup_delete_ne.
Qed.

Lemma delete_then_read_witness :
  let st := fst (deleteQuote (Connected db1) freshClaims "q-1") in
  snd (deleteQuote (Connected db1) freshClaims "q-1")
    = json 200 (messageBody "Quote deleted successfully") /\
  (forall anyone,
     getQuote st anyone "q-1" = json 404 (messageBody "Quote not found") /\
     getItems st anyone "q-1" = json 404 (messageBody "Quote not found")) /\
  (forall anyone other,
     other <> "q-1" ->
     getQuote st anyone other = getQuote (Connected db1) anyone other /\
     getItems st anyone other = getItems (Connected db1) anyone other) /\
  (forall user, rowOf st user = users db1 !! user).
Proof.
  apply (delete_then_read db1 freshClaims "q-1" draft); [reflexivity|].
  right. reflexivity.
Defined.

(** A caller who is neither the creator of a quote nor an admin cannot
    read it, list its items or delete it: the three routes answer 403 and
    the storage is left as it was. *)
Theorem strangers_are_refused (db : Db) (claims : Claims) (id : string)
    (quote : QuoteDraft) :
  quoteDrafts db !! id = Some quote ->
  roleIsNotAdmin (users db !! sub claims) = true ->
  createdBy quote <> claimsEmail claims ->
  getQuote (Connected db) claims id = json 403 (messageBody "Access denied") /\
  getItems (Connected db) claims id = json 403 (messageBody "Access denied") /\
  deleteQuote (Connected db) claims id
    = (Connected db, json 403 (messageBody "Access denied")).
Proof.
  intros Hquote Hrole Hother. apply String.eqb_neq in Hother.
  unfold getQuote, getItems, deleteQuote, getQuoteDraft, getUser; simpl.
  by rewrite Hquote, Hrole, Hother.
Qed.

Lemma strangers_are_refused_witness :
  getQuote (Connected db1) spentClaims "q-1" = json 403 (messageBody "Access denied") /\
  getItems (Connected db1) spentClaims "q-1" = json 403 (messageBody "Access denied") /\
  deleteQuote (Connected db1) spentClaims "q-1"
    = (Connected db1, json 403 (messageBody "Access denied")).
Proof.
  apply (strangers_are_refused db1 spentClaims "q-1" draft);
    [reflexivity | reflexivity | discriminate].
Defined.

(** GET /api/quotes/:id and GET /api/quotes/:id/items apply one rule: for
    every storage, caller and id they answer with the same status, and
    when that is 200 the items sent with the quote are the items sent by
    the items route. *)
Theorem quote_and_items_agree (st : Storage) (claims : Claims) (id : string) :
  status (getQuote st claims id) = status (getItems st claims id) /\
  (status (getQuote st claims id) = 200%Z ->
   exists columns : list (string * Json),
     body (getQuote st claims id)
       = JObj (columns ++ [("items", body (getItems st claims id))])%list).
Proof.
  unfold getQuote, getItems.
  destruct (getQuoteDraft st id) as [[quote|]|e]; simpl; [|by split..].
  destruct (getUser st (sub claims)) as [user|e]; simpl; [|by split].
  destruct (roleIsNotAdmin user && negb (String.eqb (createdBy quote) (claimsEmail claims)));
    simpl; [by split|].
  destruct (getQuoteItems st id) as [items|e]; simpl; [|by split].
  split; [done|]. intros _.
  exists (([ ("id", JStr (quoteId quote)); ("code", JStr (code quote));
             ("createdBy", JStr (createdBy quote)) ] ++ otherColumns quote)%list).
  by rewrite <- app_assoc.
Qed.

End RouteProps.

(* ===================================================================== *)
(** ** Properties of the session middleware and the local login *)
(* ===================================================================== *)

Module AuthProps.
Import Js Server Examples Routes Auth MoreExamples GateFacts.

(** An expired session with a refresh token is renewed when the identity
    provider grants the refresh: the request passes, the session takes
    the new tokens and the new expiry, and every later request up to that
    expiry passes without the provider being needed again. *)
Theorem refresh_renews_session (user : Session) (now : Z)
    (grant : string -> Result Tokens) (refreshToken : string) (tokens : Tokens)
    (expiry : Z) :
  noExpiry user = false ->
  (default 0 (expires_at user) < now)%Z ->
  refreshable user = Some refreshToken ->
  grant refreshToken = Ok tokens ->
  exp tokens = Some expiry ->
  expiry <> 0%Z ->
  isAuthenticated (Some user) now grant = (Next, Some (updateUserSession tokens)) /\
  forall later anyGrant,
    (later <= expiry)%Z ->
    isAuthenticated (Some (updateUserSession tokens)) later anyGrant
      = (Next, Some (updateUserSession tokens)).
Proof.
  intros Hexp Hlate Hrefresh Hgrant Hnew Hnz. split.
  - unfold isAuthenticated. rewrite Hexp.
    replace (Z.leb now (default 0%Z (expires_at user))) with false
      by (symmetry; apply Z.leb_gt; lia).
    by rewrite Hrefresh, Hgrant.
  - intros later anyGrant Hle. unfold isAuthenticated, noExpiry; simpl.
    rewrite Hnew. simpl.
    replace (Z.eqb expiry 0) with false by (symmetry; by apply Z.eqb_neq).
    by replace (Z.leb later expiry) with true by (symmetry; apply Z.leb_le; lia).
Qed.

Lemma refresh_renews_session_witness :
  isAuthenticated (Some stale) 2000 grantAlways = (Next, Some (updateUserSession renewed)) /\
  forall later anyGrant,
    (later <= 5000)%Z ->
    isAuthenticated (Some (updateUserSession renewed)) later anyGrant
      = (Next, Some (updateUserSession renewed)).
Proof.
  apply (refresh_renews_session stale 2000 grantAlways "rt-1" renewed 5000);
    [reflexivity | reflexivity | reflexivity | reflexivity | reflexivity | discriminate].
Defined.

(** A granted refresh whose claims carry no expiry (or the expiry 0) lets
    the current request pass and leaves a session that is refused with
    401 from then on, at any time and whatever the provider would
    answer. *)
Theorem refresh_without_expiry_locks_out (user : Session) (now : Z)
    (grant : string -> Result Tokens) (refreshToken : string) (tokens : Tokens) :
  noExpiry user = false ->
  (default 0 (expires_at user) < now)%Z ->
  refreshable user = Some refreshToken ->
  grant refreshToken = Ok tokens ->
  exp tokens = None \/ exp tokens = Some 0%Z ->
  isAuthenticated (Some user) now grant = (Next, Some (updateUserSession tokens)) /\
  forall later anyGrant,
    isAuthenticated (Some (updateUserSession tokens)) later anyGrant
      = (Respond unauthorized, Some (updateUserSession tokens)).
Proof.
  intros Hexp Hlate Hrefresh Hgrant Hnone. split.
  - unfold isAuthenticated. rewrite Hexp.
    replace (Z.leb now (default 0%Z (expires_at user))) with false
      by (symmetry; apply Z.leb_gt; lia).
    by rewrite Hrefresh, Hgrant.
  - intros later anyGrant. unfold isAuthenticated, noExpiry; simpl.
    by destruct Hnone as [-> | ->].
Qed.

Lemma refresh_without_expiry_locks_out_witness :
  let tokens := mkTokens freshClaims None (Some "at-2") (Some "rt-2") in
  isAuthenticated (Some stale) 2000 (fun _ => Ok tokens)
    = (Next, Some (updateUserSession tokens)) /\
  forall later anyGrant,
    isAuthenticated (Some (updateUserSession tokens)) later anyGrant
      = (Respond unauthorized, Some (updateUserSession tokens)).
Proof.
  apply (refresh_without_expiry_locks_out stale 2000 _ "rt-1");
    [reflexivity | reflexivity | reflexivity | reflexivity | by left].
Defined.

(** The middleware lets a request through in exactly two cases, a live
    session or a granted refresh; in every other case the answer is 401
    and the session is left as it was. *)
Theorem isAuthenticated_passes_iff (session : option Session) (now : Z)
    (grant : string -> Result Tokens) :
  (fst (isAuthenticated session now grant) = Next <->
   exists user,
     session = Some user /\ noExpiry user = false /\
     ((now <= default 0 (expires_at user))%Z \/
      exists refreshToken tokens,
        refreshable user = Some refreshToken /\ grant refreshToken = Ok tokens)) /\
  (fst (isAuthenticated session now grant) <> Next ->
   isAuthenticated session now grant = (Respond unauthorized, session)).
Proof.
  unfold isAuthenticated.
  destruct session as [user|]; [|split; [split; [done|by intros (? & ? & _)]|done]].
  destruct (noExpiry user) eqn:Hexp.
  { split; [split; [done|]|done]. intros (u & [= <-] & H & _). congruence. }
  destruct (Z.leb_spec now (default 0%Z (expires_at user))) as [Hle|Hgt].
  { split; [split; [|done]|done]. intros _. exists user. auto. }
  destruct (refreshable user) as [refreshToken|] eqn:Hrefresh.
  2: { split; [split; [done|]|done].
       intros (u & [= <-] & _ & [H|(t & k & H & _)]); [lia|congruence]. }
  destruct (grant refreshToken) as [tokens|e] eqn:Hgrant.
  - split; [split; [|done]|done]. intros _. exists user.
    split; [done|]. split; [done|]. right. by exists refreshToken, tokens.
  - split; [split; [done|]|done].
    intros (u & [= <-] & _ & [H|(t & k & Ht & Hk)]); [lia|].
    rewrite Hrefresh in Ht. injection Ht as <-. congruence.
Qed.

End AuthProps.

(* ===================================================================== *)
(** ** Properties of the PDF generation of the client *)
(* ===================================================================== *)

Module ClientProps.
Import Js Server Editor PdfGenerator Examples EditorExamples Routes Client MoreExamples.
Import GateFacts EditorFacts.
Local Open Scope Q_scope.

(** What the editor saves is what it shows and what the PDF prints: the
    subtotal and total of the save mutation, of the summary and of the
    PDF generator are the same numbers, for every list of items and every
    discount. *)
Theorem saved_shown_printed_agree (quote : Quote) :
  saveSubtotal (items quote) == subtotal (QuoteSummary (items quote) (discount quote)) /\
  saveSubtotal (items quote) == subtotal (calculateTotals quote) /\
  saveTotal (items quote) (discount quote)
    == Editor.total (QuoteSummary (items quote) (discount quote)) /\
  saveTotal (items quote) (discount quote) == Editor.total (calculateTotals quote).
Proof.
  unfold saveSubtotal, saveTotal, QuoteSummary, calculateTotals; simpl.
  rewrite orZero_eq. repeat split; reflexivity.
Qed.

(** A download that is not answered with 2xx has changed nothing. *)
Lemma track_refused_unchanged (st : Storage) (claims : Claims) :
  ok (snd (trackPdfDownload st claims)) = false ->
  fst (trackPdfDownload st claims) = st.
Proof.
  unfold trackPdfDownload.
  destruct (requireSubscriptionOrFreeTrial st claims) as [|answer]; [|done].
  unfold trackPdfDownloadHandler.
  destruct (getUser st (sub claims)) as [[user|]|e]; [|done..].
  destruct (negb (truthy (hasActiveSubscription user))
            && isZero (freeDownloadsUsed user)); [|done].
  by destruct (incrementFreeDownloads st (sub claims)) as [[st' row]|e].
Qed.

(** [generateQuotePDF] never consumes anything when it reports that a
    subscription is required: the server is then exactly as it was.  And
    it writes a document only when it reports success. *)
Theorem refusal_consumes_nothing (st : Storage) (claims : Claims) (quote : Quote)
    (companyList : Result (list Company)) (windowOpens : bool) (today : string) :
  let outcome := generateQuotePDF st claims quote companyList windowOpens today in
  (PdfResult.requiresSubscription (snd (fst outcome)) = true -> fst (fst outcome) = st) /\
  (PdfResult.success (snd (fst outcome)) = false -> snd outcome = None).
Proof.
  intros outcome. unfold outcome, generateQuotePDF.
  destruct (ok (checkPdfAccess st claims)); simpl; [|by split].
  destruct (property "canGenerate" (body (checkPdfAccess st claims))) as [can|];
    simpl; [|by split].
  destruct (truthyJson can); simpl; [|by split].
  destruct (ok (snd (trackPdfDownload st claims))) eqn:Hok; simpl.
  - destruct companyList as [companies|e]; simpl; [|by split].
    destruct (property "freeDownloadsUsed" (body (snd (trackPdfDownload st claims))));
      simpl; [|by split].
    destruct (property "message" (body (snd (trackPdfDownload st claims))));
      simpl; by split.
  - pose proof (track_refused_unchanged st claims Hok) as Hsame.
    destruct (property "code" (body (snd (trackPdfDownload st claims)))) as [code|];
      simpl; [|by split].
    destruct (isString code "SUBSCRIPTION_REQUIRED"); simpl; by split.
Qed.

Section TrialUser.
Variable db : Db.
Variable claims : Claims.
Variable user : User.
Hypothesis stored : users db !! sub claims = Some user.
Hypothesis plain : isAdminAnyCase user = false.
Hypothesis unused : freeDownloadsUsed user = Some 0%Z.
Hypothesis unsubscribed : hasActiveSubscription user = Some false.

Lemma trial_access :
  checkPdfAccess (Connected db) claims =
    json 200
      (JObj [ ("canGenerate", JBool true);
              ("hasActiveSubscription", JBool false);
              ("freeDownloadsUsed", JNum 0);
              ("isFreeTrial", JBool true) ]).
Proof using stored plain unused unsubscribed.
  unfold checkPdfAccess.
  by rewrite (getUser_stored stored), plain, unsubscribed, unused.
Qed.

Lemma trial_track :
  trackPdfDownload (Connected db) claims =
    (Connected (setUsers db (<[sub claims := plusOne user]> (users db))),
     json 200
       (JObj [ ("success", JBool true);
               ("message", JStr "Free trial used. Subscribe to continue generating PDFs.");
               ("freeDownloadsUsed", JNum 1) ])).
Proof using stored plain unused unsubscribed.
  unfold trackPdfDownload, requireSubscriptionOrFreeTrial.
  rewrite (getUser_stored stored), plain, unsubscribed, unused. simpl.
  apply (handler_counts stored); [by rewrite unsubscribed | done].
Qed.

End TrialUser.

(** The free download is counted before the document exists: when
    [Company.list()] throws for such a user, [generateQuotePDF] reports
    the general error and writes nothing, and the counter of the user has
    gone from 0 to 1 all the same. *)
Theorem trial_lost_when_company_list_fails (db : Db) (claims : Claims) (user : User)
    (quote : Quote) (e : JsError) (windowOpens : bool) (today : string) :
  users db !! sub claims = Some user ->
  isAdminAnyCase user = false ->
  Server.freeDownloadsUsed user = Some 0%Z ->
  hasActiveSubscription user = Some false ->
  let outcome := generateQuotePDF (Connected db) claims quote (Throw e) windowOpens today in
  snd (fst outcome) = generationError /\
  snd outcome = None /\
  counterOf (Connected db) (sub claims) = Some (Some 0%Z) /\
  counterOf (fst (fst outcome)) (sub claims) = Some (Some 1%Z).
Proof.
  intros Hrow Hplain Hzero Hsub outcome.
  assert (Houtcome : outcome =
    (Connected (setUsers db (<[sub claims := plusOne user]> (users db))),
     generationError, None)).
  { unfold outcome, generateQuotePDF.
    rewrite (trial_access db claims user Hrow Hplain Hzero Hsub).
    rewrite (trial_track db claims user Hrow Hplain Hzero Hsub).
    reflexivity. }
  rewrite Houtcome. cbn [fst snd]. split; [done|]. split; [done|]. split.
  - unfold counterOf, rowOf. by rewrite Hrow, <- Hzero.
  - unfold counterOf, rowOf, setUsers; cbn [users]. rewrite lookup_insert_eq.
    simpl. by rewrite Hzero.
Qed.

Lemma trial_lost_when_company_list_fails_witness :
  let outcome := generateQuotePDF (Connected db0) freshClaims sessionQuote
                   (Throw (mkError (Some "403: Admin access required"))) true "01/01/2026" in
  snd (fst outcome) = generationError /\
  snd outcome = None /\
  counterOf (Connected db0) (sub freshClaims) = Some (Some 0%Z) /\
  counterOf (fst (fst outcome)) (sub freshClaims) = Some (Some 1%Z).
Proof.
  apply (trial_lost_when_company_list_fails db0 freshClaims fresh sessionQuote);
    reflexivity.
Defined.

(** Without a database the gate is open but nothing can be generated:
    check-pdf-access says [canGenerate], the download cannot be tracked,
    and [generateQuotePDF] ends in the general error for every caller and
    quote. *)
Theorem no_database_no_pdf (e : JsError) (claims : Claims) (quote : Quote)
    (companyList : Result (list Company)) (windowOpens : bool) (today : string) :
  includes "DATABASE_URL is not set" (errorText e) = true ->
  property "canGenerate" (body (checkPdfAccess (Failing e) claims)) = Some (JBool true) /\
  generateQuotePDF (Failing e) claims quote companyList windowOpens today
    = (Failing e, generationError, None).
Proof.
  intros Hmsg.
  assert (Haccess : checkPdfAccess (Failing e) claims = json 200 unconditionalAccess).
  { unfold checkPdfAccess; simpl. by rewrite Hmsg. }
  assert (Htrack : trackPdfDownload (Failing e) claims = (Failing e, trackFailed)).
  { unfold trackPdfDownload, requireSubscriptionOrFreeTrial; simpl. by rewrite Hmsg. }
  split; [by rewrite Haccess|].
  unfold generateQuotePDF. rewrite Haccess, Htrack. reflexivity.
Qed.

Lemma no_database_no_pdf_witness :
  property "canGenerate" (body (checkPdfAccess createStubDb freshClaims))
    = Some (JBool true) /\
  generateQuotePDF createStubDb freshClaims sessionQuote (Ok []) true "01/01/2026"
    = (createStubDb, generationError, None).
Proof.
  apply (no_database_no_pdf stubError freshClaims sessionQuote (Ok []) true "01/01/2026").
  reflexivity.
Defined.

(** Whether the browser opens the window has no influence on what
    [generateQuotePDF] returns or on the server: with the window blocked
    the same value is returned (success included) and the same download
    is counted, only no document is shown. *)
Theorem blocked_window_still_counts (st : Storage) (claims : Claims) (quote : Quote)
    (companyList : Result (list Company)) (today : string) :
  fst (generateQuotePDF st claims quote companyList false today)
    = fst (generateQuotePDF st claims quote companyList true today) /\
  snd (generateQuotePDF st claims quote companyList false today) = None.
Proof.
  unfold generateQuotePDF.
  destruct (ok (checkPdfAccess st claims)); simpl; [|by split].
  destruct (property "canGenerate" (body (checkPdfAccess st claims))) as [can|];
    simpl; [|by split].
  destruct (truthyJson can); simpl; [|by split].
  destruct (ok (snd (trackPdfDownload st claims))); simpl.
  - destruct companyList as [companies|e]; simpl; [|by split].
    destruct (property "freeDownloadsUsed" (body (snd (trackPdfDownload st claims))));
      simpl; [|by split].
    destruct (property "message" (body (snd (trackPdfDownload st claims))));
      simpl; by split.
  - destruct (property "code" (body (snd (trackPdfDownload st claims)))) as [code|];
      simpl; [|by split].
    destruct (isString code "SUBSCRIPTION_REQUIRED"); simpl; by split.
Qed.

End ClientProps.

(* ===================================================================== *)
(** ** Further properties of the item editor *)
(* ===================================================================== *)

Module EditorProps.
Import Editor Editor.QuoteItem PdfGenerator EditorExamples MoreEditorExamples.
Import EditorFacts RendererFacts.
Local Open Scope Q_scope.

(** [updateItem] edits one row in place: the list keeps its length, every
    other row is the row it was, and the call has no result exactly when
    the index is past the end. *)
Theorem updateItem_touches_one_row (index : nat) (a : Assignment) (items : list QuoteItem) :
  match updateItem index a items with
  | Some items' =>
      (index < length items)%nat /\
      length items' = length items /\
      (forall j, j <> index -> items' !! j = items !! j) /\
      exists before after,
        items !! index = Some before /\ items' !! index = Some after /\
        description after
          = match a with Description v => v | _ => description before end
  | None => (length items <= index)%nat
  end.
Proof.
  unfold updateItem.
  destruct (items !! index) as [item|] eqn:Hitem.
  - pose proof (lookup_lt_Some _ _ _ Hitem) as Hlt.
    split; [done|]. split; [apply length_insert|]. split.
    + intros j Hj. by apply list_lookup_insert_ne.
    + exists item. eexists. split; [done|].
      split; [by apply list_lookup_insert_eq|].
      by destruct a.
  - by apply lookup_ge_None.
Qed.

Lemma filterFrom_skip {A} (l : list A) :
  forall (start index : nat),
    (index < start)%nat ->
    filterFrom (fun _ i => negb (Nat.eqb i index)) start l = l.
Proof.
  induction l as [|x l IH]; intros start index Hlt; simpl; [done|].
  replace (Nat.eqb start index) with false by (symmetry; apply Nat.eqb_neq; lia).
  simpl. f_equal. apply IH. lia.
Qed.

Lemma filterFrom_delete {A} (l : list A) :
  forall (start index : nat),
    (start <= index)%nat ->
    filterFrom (fun _ i => negb (Nat.eqb i index)) start l = delete (index - start)%nat l.
Proof.
  induction l as [|x l IH]; intros start index Hle; simpl; [done|].
  destruct (Nat.eqb_spec start index) as [->|Hne]; simpl.
  - rewrite Nat.sub_diag. simpl. apply filterFrom_skip. lia.
  - replace (index - start)%nat with (S (index - S start)) by lia.
    simpl. f_equal. apply IH. lia.
Qed.

Lemma removeItem_delete (index : nat) (items : list QuoteItem) :
  removeItem index items = delete index items.
Proof.
  unfold removeItem. rewrite filterFrom_delete by lia. by rewrite Nat.sub_0_r.
Qed.

(** [removeItem] takes out the row at the index and nothing else: the
    rows before it stay where they are, the rows after it move up by one,
    and the list is one shorter; with an index past the end the list is
    returned as it is. *)
Theorem removeItem_positions (index : nat) (items : list QuoteItem) :
  (forall j, (j < index)%nat -> removeItem index items !! j = items !! j) /\
  (forall j, (index <= j)%nat -> removeItem index items !! j = items !! S j) /\
  ((index < length items)%nat -> S (length (removeItem index items)) = length items) /\
  ((length items <= index)%nat -> removeItem index items = items).
Proof.
  rewrite removeItem_delete. repeat split.
  - intros j Hj. by apply list_lookup_delete_lt.
  - intros j Hj. by apply list_lookup_delete_ge.
  - intros Hlt. rewrite length_delete; [lia|]. by apply lookup_lt_is_Some_2.
  - intros Hge. revert index Hge.
    induction items as [|x items IH]; intros index Hge; [by destruct index|].
    destruct index as [|index]; simpl in *; [lia|].
    f_equal. apply IH. lia.
Qed.

Lemma sumTotals_app (l1 l2 : list QuoteItem) :
  sumTotals (l1 ++ l2) == sumTotals l1 + sumTotals l2.
Proof.
  induction l1 as [|item l1 IH]; simpl.
  - unfold sumTotals at 2. simpl. ring.
  - rewrite !sumTotals_cons, IH. ring.
Qed.

(** Adding a row puts the default row (price 0, 1 needed, 0 owned, 1 to
    buy, total 0) after the others, which keep their places; the subtotal
    does not move, and removing the new row gives the list back. *)
Theorem addItem_appends_free_row (items : list QuoteItem) :
  length (addItem items) = S (length items) /\
  (forall j, (j < length items)%nat -> addItem items !! j = items !! j) /\
  addItem items !! length items = Some (make "" 0 1 0 1 0) /\
  sumTotals (addItem items) == sumTotals items /\
  removeItem (length items) (addItem items) = items.
Proof.
  unfold addItem. split; [rewrite length_app; simpl; lia|].
  split; [intros j Hj; by apply lookup_app_l|].
  split; [by rewrite list_lookup_middle|].
  split.
  - rewrite sumTotals_app. unfold sumTotals at 2. simpl.
    unfold orZero. simpl. ring.
  - rewrite removeItem_delete, delete_middle. apply app_nil_r.
Qed.

(** The numbers of a row, without its description. *)
Lemma description_edit_row (v : string) (item : QuoteItem) :
  unit_price (assign (Description v) item) = unit_price item /\
  needed_quantity (assign (Description v) item) = needed_quantity item /\
  owned_quantity (assign (Description v) item) = owned_quantity item /\
  buy_quantity (assign (Description v) item) = buy_quantity item /\
  QuoteItem.total (assign (Description v) item) = QuoteItem.total item.
Proof. by repeat split. Qed.

(** Editing a description changes no number: the prices, quantities and
    totals of all rows are what they were, and so are the subtotal, the
    discount amount and the total of the summary. *)
Theorem description_edit_keeps_numbers (index : nat) (v : string)
    (items items' : list QuoteItem) (discount : Q) :
  updateItem index (Description v) items = Some items' ->
  map (fun item => (unit_price item, needed_quantity item, owned_quantity item,
                    buy_quantity item, QuoteItem.total item)) items'
  = map (fun item => (unit_price item, needed_quantity item, owned_quantity item,
                      buy_quantity item, QuoteItem.total item)) items /\
  QuoteSummary items' discount = QuoteSummary items discount.
Proof.
  unfold updateItem.
  destruct (items !! index) as [item|] eqn:Hitem; [|done].
  intros [= <-]. simpl.
  assert (Hmap :
    map (fun item => (unit_price item, needed_quantity item, owned_quantity item,
                      buy_quantity item, QuoteItem.total item))
        (<[index := assign (Description v) item]> items)
    = map (fun item => (unit_price item, needed_quantity item, owned_quantity item,
                        buy_quantity item, QuoteItem.total item)) items).
  { rewrite list_fmap_insert. simpl. apply list_insert_id.
    by rewrite list_lookup_fmap, Hitem. }
  split; [exact Hmap|].
  assert (Hsum : forall l1 l2 : list QuoteItem,
            map QuoteItem.total l1 = map QuoteItem.total l2 ->
            forall acc,
              fold_left (fun sum item => sum + orZero (QuoteItem.total item)) l1 acc
              = fold_left (fun sum item => sum + orZero (QuoteItem.total item)) l2 acc).
  { induction l1 as [|x l1 IH]; intros [|y l2] Heq acc; simpl in *; try done.
    injection Heq as Hx Hrest. rewrite Hx. by apply IH. }
  unfold QuoteSummary, sumTotals.
  rewrite (Hsum (<[index := assign (Description v) item]> items) items); [done|].
  apply (f_equal (map (fun t => snd t))) in Hmap.
  by rewrite !map_map in Hmap.
Qed.

Lemma description_edit_keeps_numbers_witness :
  map (fun item => (unit_price item, needed_quantity item, owned_quantity item,
                    buy_quantity item, QuoteItem.total item))
      (<[0%nat := assign (Description "Cimento") sessionRow]> sessionItems)
  = map (fun item => (unit_price item, needed_quantity item, owned_quantity item,
                      buy_quantity item, QuoteItem.total item)) sessionItems /\
  QuoteSummary (<[0%nat := assign (Description "Cimento") sessionRow]> sessionItems) 10
  = QuoteSummary sessionItems 10.
Proof.
  apply (description_edit_keeps_numbers 0 "Cimento" sessionItems). reflexivity.
Defined.

End EditorProps.

(* ===================================================================== *)
(** ** Further properties of the totals in the arithmetic of the engine *)
(* ===================================================================== *)

Module IeeeProps.
Import Ieee Ieee.QuoteItem IeeeExamples IeeeFacts.

Local Open Scope float_scope.

(** The subtotal of a list maintained by the editor in which no price is
    negative is a number that is not negative: it can be [Infinity], it
    is never [NaN] and never below 0, whatever was typed into the
    quantity fields. *)
Theorem subtotal_is_not_negative (items : list QuoteItem) :
  maintained items ->
  Forall (fun item => (0 <=? unit_price item) = true) items ->
  (0 <=? sumTotals items) = true.
Proof. apply subtotal_nonneg. Qed.

Lemma subtotal_is_not_negative_witness : (0 <=? sumTotals hugeItems) = true.
Proof.
  apply (subtotal_is_not_negative hugeItems).
  - exists huge. reflexivity.
  - repeat constructor.
Defined.

End IeeeProps.
